(** * git-pull-request: branch naming, metadata tracker and update logic

    A shallow embedding of [git-pull-request.py] (the [gitpr] command):
    the functions that derive the local branch of a pull request, keep
    the per-request metadata record in the temporary directory, and run
    the update / continue-update / close / merge / submit commands.

    Python [str] values are sequences of Unicode code points, so text is
    a [list N]; slicing, [re] and [int()] work on code points. *)

From Stdlib Require Import ZArith NArith Ascii String List Lia.
From stdpp Require Import base option list gmap.

Local Open Scope N_scope.

(** ** Text *)

Definition ustring := list N.

(** An ASCII literal as code points. *)
Definition u (s : string) : ustring :=
  map N_of_ascii (list_ascii_of_string s).

Definition ustring_eqb (a b : ustring) : bool := bool_decide (a = b).

(** [s.startswith(p)]. *)
Fixpoint starts_with (p s : ustring) : bool :=
  match p, s with
  | [], _ => true
  | c :: p', x :: s' => (x =? c) && starts_with p' s'
  | _ :: _, [] => false
  end.

(** [pat in s] for a non-empty or empty [pat]: substring test. *)
Fixpoint contains (pat s : ustring) : bool :=
  starts_with pat s ||
  match s with
  | [] => false
  | _ :: s' => contains pat s'
  end.

(** [s.split(sep)] for a one-character separator: never an empty list. *)
Fixpoint split_on (sep : N) (s : ustring) : list ustring :=
  match s with
  | [] => [[]]
  | c :: s' =>
      if c =? sep then [] :: split_on sep s'
      else match split_on sep s' with
           | w :: ws => (c :: w) :: ws
           | [] => [[c]]
           end
  end.

(** Characters for which [str.isspace()] holds; [str.strip()] removes
    them from both ends. *)
Definition is_space (c : N) : bool :=
  ((0x9 <=? c) && (c <=? 0xd)) || ((0x1c <=? c) && (c <=? 0x20))
  || (c =? 0x85) || (c =? 0xa0) || (c =? 0x1680)
  || ((0x2000 <=? c) && (c <=? 0x200a))
  || (c =? 0x2028) || (c =? 0x2029) || (c =? 0x202f) || (c =? 0x205f)
  || (c =? 0x3000).

Fixpoint lstrip (s : ustring) : ustring :=
  match s with
  | c :: s' => if is_space c then lstrip s' else s
  | [] => []
  end.

Definition strip (s : ustring) : ustring :=
  rev (lstrip (rev (lstrip s))).

(** ** Character classes of the [re] module *)

(** [[A-Z]]: the 26 ASCII capitals only (no IGNORECASE flag is used). *)
Definition is_upper (c : N) : bool := (65 <=? c) && (c <=? 90).

(** First code point of every run of ten decimal digits (category Nd,
    Unicode 14): [\d] in a [str] pattern and [int()] accept all of them,
    the digit at offset [i] of a run having value [i]. *)
Definition nd_blocks : list N :=
  [ 0x30; 0x660; 0x6f0; 0x7c0; 0x966; 0x9e6; 0xa66; 0xae6; 0xb66; 0xbe6;
    0xc66; 0xce6; 0xd66; 0xde6; 0xe50; 0xed0; 0xf20; 0x1040; 0x1090;
    0x17e0; 0x1810; 0x1946; 0x19d0; 0x1a80; 0x1a90; 0x1b50; 0x1bb0;
    0x1c40; 0x1c50; 0xa620; 0xa8d0; 0xa900; 0xa9d0; 0xa9f0; 0xaa50;
    0xabf0; 0xff10; 0x104a0; 0x10d30; 0x11066; 0x110f0; 0x11136; 0x111d0;
    0x112f0; 0x11450; 0x114d0; 0x11650; 0x116c0; 0x11730; 0x118e0;
    0x11950; 0x11c50; 0x11d50; 0x11da0; 0x16a60; 0x16ac0; 0x16b50;
    0x1d7ce; 0x1d7d8; 0x1d7e2; 0x1d7ec; 0x1d7f6;
    0x1e140; 0x1e2f0; 0x1e950; 0x1fbf0 ].

Definition decimal_value (c : N) : option N :=
  match find (fun b => (b <=? c) && (c <? b + 10)) nd_blocks with
  | Some b => Some (c - b)
  | None => None
  end.

(** [\d] *)
Definition is_decimal (c : N) : bool :=
  match decimal_value c with Some _ => true | None => false end.

(** [[0-9]] *)
Definition is_ascii_digit (c : N) : bool := (48 <=? c) && (c <=? 57).

(** ** Integers and text *)

(** [int(s)] on a string of decimal digits, the only strings the tool
    converts (no bound on the number of digits is modelled). *)
Definition py_int (s : ustring) : N :=
  fold_left (fun acc c => 10 * acc + default 0 (decimal_value c)) s 0.

Fixpoint dec_digits (fuel : nat) (n : N) : ustring :=
  match fuel with
  | O => []
  | S f =>
      if n <? 10 then [48 + n]
      else dec_digits f (n / 10) ++ [48 + n mod 10]
  end.

(** [str(n)] for [n >= 0]: a number below [2^k] has at most [k] digits. *)
Definition str_of_N (n : N) : ustring :=
  dec_digits (S (N.to_nat (N.log2 n))) n.

(** [str(z)] for a Python [int]. *)
Definition str_of_Z (z : Z) : ustring :=
  match z with
  | Zneg p => 45 :: str_of_N (Npos p)
  | _ => str_of_N (Z.to_N z)
  end.

(** ** The fragment of [re] the tool uses

    A pattern is a sequence of atoms; every atom is also a capture
    segment. [Rep p lo] is the greedy [p{lo,}] over one-character class
    [p]: it first takes the whole run and gives characters back one at a
    time while the rest of the pattern fails. *)

Inductive atom :=
| Lit (l : ustring)
| Rep (p : N -> bool) (lo : nat).

Record regex := { anchored : bool; atoms : list atom }.

Fixpoint span (p : N -> bool) (s : ustring) : nat :=
  match s with
  | c :: s' => if p c then S (span p s') else O
  | [] => O
  end.

(** The backtracking loop of a greedy repetition: lengths [k], [k-1],
    ... down to [lo] are tried in turn. *)
Fixpoint give_back (try : nat -> option (list ustring)) (lo k : nat)
  : option (list ustring) :=
  if (k <? lo)%nat then None
  else match try k with
       | Some gs => Some gs
       | None => match k with
                 | O => None
                 | S k' => give_back try lo k'
                 end
       end.

Fixpoint match_here (r : list atom) (s : ustring) : option (list ustring) :=
  match r with
  | [] => Some []
  | Lit l :: r' =>
      if starts_with l s
      then cons l <$> match_here r' (drop (length l) s)
      else None
  | Rep p lo :: r' =>
      give_back (fun k => cons (take k s) <$> match_here r' (drop k s))
                lo (span p s)
  end.

(** Leftmost start position wins, the empty suffix included. *)
Fixpoint search_from (r : list atom) (s : ustring) : option (list ustring) :=
  match match_here r s with
  | Some gs => Some gs
  | None => match s with
            | [] => None
            | _ :: s' => search_from r s'
            end
  end.

(** [re.search(rx, s)]: the capture segments of the match, if any. *)
Definition re_search (rx : regex) (s : ustring) : option (list ustring) :=
  if anchored rx then match_here (atoms rx) s else search_from (atoms rx) s.

(** [m.group(0)] *)
Definition group0 (m : list ustring) : ustring := concat m.

(** The text of the [i]-th atom. *)
Definition segment (i : nat) (m : list ustring) : ustring := nth i m [].

(** [[A-Z]{3,}-\d+] *)
Definition ticket_re : regex :=
  {| anchored := false; atoms := [Rep is_upper 3; Lit [45]; Rep is_decimal 1] |}.

(** [^pull-request-(\d+)] *)
Definition branch_re : regex :=
  {| anchored := true; atoms := [Lit (u "pull-request-"); Rep is_decimal 1] |}.

(** The pattern of the written contract, [[A-Z]{3,}-[0-9]+]. *)
Definition ticket_re_ascii : regex :=
  {| anchored := false;
     atoms := [Rep is_upper 3; Lit [45]; Rep is_ascii_digit 1] |}.

Definition is_nil {A} (l : list A) : bool :=
  match l with [] => true | _ => false end.

(** [get_jira_ticket(text)] *)
Definition get_jira_ticket (text : ustring) : ustring :=
  match re_search ticket_re text with
  | Some m => if negb (is_nil (group0 m)) then group0 m else []
  | None => []
  end.

(** [get_pull_request_ID(branch_name)]; [None] is Python's [None]. *)
Definition get_pull_request_ID (branch_name : ustring) : option Z :=
  match re_search branch_re branch_name with
  | Some m =>
      if negb (is_nil (segment 1 m))
      then Some (Z.of_N (py_int (segment 1 m)))
      else None
  | None => None
  end.

(** [s.replace(old, new)]: occurrences are replaced left to right without
    overlap; with an empty [old], [new] goes around every character. *)
Fixpoint replace_go (old new : ustring) (skip : nat) (s : ustring) : ustring :=
  match s with
  | [] => []
  | c :: s' =>
      match skip with
      | S k => replace_go old new k s'
      | O =>
          if starts_with old s
          then new ++ replace_go old new (length old - 1) s'
          else c :: replace_go old new 0 s'
      end
  end.

Definition replace (old new s : ustring) : ustring :=
  if is_nil old then new ++ concat (map (fun c => c :: new) s)
  else replace_go old new 0 s.

(** ** JSON documents

    The values [json.load] produces (numbers are the integers; the tool
    reads no fractional ones).  An object is a Python [dict]: keys in
    insertion order, looked up by the first binding. *)

#[warnings="-register-all"]
Inductive json :=
| JNull
| JBool (b : bool)
| JInt (z : Z)
| JStr (s : ustring)
| JArr (l : list json)
| JObj (d : list (ustring * json)).

Definition dict := list (ustring * json).

Fixpoint dict_get (k : ustring) (d : dict) : option json :=
  match d with
  | [] => None
  | (k', v) :: d' => if ustring_eqb k' k then Some v else dict_get k d'
  end.

(** [d[k] = v]: an existing key keeps its position, a new one goes last. *)
Fixpoint dict_set (k : ustring) (v : json) (d : dict) : dict :=
  match d with
  | [] => [(k, v)]
  | (k', v') :: d' =>
      if ustring_eqb k' k then (k', v) :: d' else (k', v') :: dict_set k v d'
  end.

(** The text of a file or of an HTTP body, by what the JSON decoder makes
    of it: [Encoded v] is text that decodes to [v] (what [json.dump]
    writes for [v]); [NotJson s] is text [s] the decoder rejects, the
    empty text among them. *)
Inductive payload :=
| NotJson (s : ustring)
| Encoded (v : json).

(** ** Exceptions and results *)

Inductive exn :=
| UserWarning (msg : ustring)
| TypeError
| KeyError
| AttributeError
| FileNotFoundError
| JSONDecodeError
| UnboundLocalError.

Inductive result (A : Type) :=
| Ok (a : A)
| Raise (e : exn).
Arguments Ok {A} a.
Arguments Raise {A} e.

(** ** The process and its surroundings *)

(** What the process does to the outside, in order. *)
Inductive event :=
| EvSystem (cmd : ustring)                   (* os.system(cmd) *)
| EvPopen (cmd : ustring)                    (* os.popen(cmd).read() *)
| EvChdir (dir : ustring)                    (* os.chdir(dir) *)
| EvRequest (post : bool) (url : ustring) (params : option json)
| EvPrint (text : ustring)                   (* print(text) *)
| EvPrintColor (text token : ustring)        (* print(color_text(text, token)) *)
| EvPrintJson (v : json)   (* print(json.dumps(v, sort_keys=True, indent=4)) *)
| EvPrintPull (number title login : json)    (* the REQUEST line of a pull *)
| EvPrintUrl (url : json)                    (* its indented html_url *)
| EvPrintBody (body : ustring)               (* its trimmed description *)
| EvBrowser (url : json).                    (* webbrowser.open_new_tab(url) *)

Inductive http_reply :=
| ConnectionFailed                            (* urllib3 raised *)
| Response (status : Z) (data : payload).

(** Everything the tool asks of git, the file system, GitHub and the
    Python library, as functions of what it has done so far. *)
Record shell := {
  sh_tmpdir : ustring;                        (* tempfile.gettempdir() *)
  sh_repr : json -> ustring;                  (* str() of a list or a dict *)
  sh_repr_bytes : ustring -> ustring;         (* str() of a bytes object *)
  sh_lower : ustring -> ustring;              (* str.lower() *)
  sh_int : ustring -> option Z;               (* int(text), None: ValueError *)
  sh_system : list event -> ustring -> Z;     (* exit status *)
  sh_popen : list event -> ustring -> ustring;         (* standard output *)
  sh_exists : list event -> ustring -> bool;           (* os.path.exists *)
  sh_islink : list event -> ustring -> bool;           (* os.path.islink *)
  sh_http : list event -> bool -> ustring -> option json -> http_reply;
  sh_remote_re : ustring -> ustring -> option ustring
    (* group 1 of get_repo_name_for_remote's search, if it matches *)
}.

(** The entries of [options] the modelled commands read. *)
Record options := {
  opt_update_branch : ustring;
  opt_update_method : ustring;
  opt_work_dir : option ustring;
  opt_close_default_comment : option ustring;
  opt_fetch_auto_checkout : bool;
  opt_merge_auto_close : bool;
  opt_filter_by_update_branch : bool;
  opt_format_submit_body : option ustring
}.

(** The global [_work_dir]: [None] until resolved, then [False] or a
    directory. *)
Inductive work_dir_val :=
| WdNone
| WdFalse
| WdPath (p : ustring).

(** A value handed to a file's [write]: [str] or [bytes]. *)
Inductive chunk :=
| Str (s : ustring)
| Bytes (b : ustring).

(** Globals of the module and the files the tool owns: the metadata
    records ([w_docs]) and the two directory pointers ([w_blobs]), by
    path.  Pointers live under [.git] or are named
    [git-pull-request-chdir], so the two never share a path. *)
Record world := {
  w_trace : list event;
  w_options : options;
  w_DEBUG : bool;
  w_DEFAULT_USERNAME : ustring;
  w__work_dir : work_dir_val;
  w_docs : gmap ustring payload;
  w_blobs : gmap ustring ustring
}.

Definition with_trace (t : list event) (w : world) : world :=
  {| w_trace := t; w_options := w_options w; w_DEBUG := w_DEBUG w;
     w_DEFAULT_USERNAME := w_DEFAULT_USERNAME w;
     w__work_dir := w__work_dir w; w_docs := w_docs w;
     w_blobs := w_blobs w |}.

Definition with__work_dir (d : work_dir_val) (w : world) : world :=
  {| w_trace := w_trace w; w_options := w_options w; w_DEBUG := w_DEBUG w;
     w_DEFAULT_USERNAME := w_DEFAULT_USERNAME w;
     w__work_dir := d; w_docs := w_docs w; w_blobs := w_blobs w |}.

Definition with_docs (m : gmap ustring payload) (w : world) : world :=
  {| w_trace := w_trace w; w_options := w_options w; w_DEBUG := w_DEBUG w;
     w_DEFAULT_USERNAME := w_DEFAULT_USERNAME w;
     w__work_dir := w__work_dir w; w_docs := m; w_blobs := w_blobs w |}.

Definition with_blobs (m : gmap ustring ustring) (w : world) : world :=
  {| w_trace := w_trace w; w_options := w_options w; w_DEBUG := w_DEBUG w;
     w_DEFAULT_USERNAME := w_DEFAULT_USERNAME w;
     w__work_dir := w__work_dir w; w_docs := w_docs w; w_blobs := m |}.

(** A computation: it ends in a value or an exception, and in both
    cases leaves a world behind. *)
Definition M (A : Type) : Type := world -> result A * world.

Definition ret {A} (a : A) : M A := fun w => (Ok a, w).

Definition raise {A} (e : exn) : M A := fun w => (Raise e, w).

Definition bind {A B} (m : M A) (f : A -> M B) : M B :=
  fun w => match m w with
           | (Ok a, w') => f a w'
           | (Raise e, w') => (Raise e, w')
           end.

(** [try: m  except Exception: h] *)
Definition try_except {A} (m : M A) (h : exn -> M A) : M A :=
  fun w => match m w with
           | (Ok a, w') => (Ok a, w')
           | (Raise e, w') => h e w'
           end.

Definition lift {A} (r : result A) : M A :=
  match r with Ok a => ret a | Raise e => raise e end.

Declare Scope py_scope.
Delimit Scope py_scope with py.
Notation "x <- m ;; k" := (bind m (fun x => k))
  (at level 100, m at next level, right associativity) : py_scope.
Notation "m ;;; k" := (bind m (fun _ => k))
  (at level 100, right associativity) : py_scope.

Definition rbind {A B} (r : result A) (f : A -> result B) : result B :=
  match r with Ok a => f a | Raise e => Raise e end.

Notation "x <-- r ;; k" := (rbind r (fun x => k))
  (at level 100, r at next level, right associativity) : py_scope.

Definition when (b : bool) (m : M unit) : M unit :=
  if b then m else ret tt.

Definition emit (e : event) : M unit :=
  fun w => (Ok tt, with_trace (w_trace w ++ [e]) w).

Definition get_world : M world := fun w => (Ok w, w).

Definition get_options : M options := fun w => (Ok (w_options w), w).

(** ** Python values *)

(** [bool(v)] *)
Definition truthy (v : json) : bool :=
  match v with
  | JNull => false
  | JBool b => b
  | JInt z => negb (z =? 0)%Z
  | JStr s => negb (is_nil s)
  | JArr l => negb (is_nil l)
  | JObj d => negb (is_nil d)
  end.

(** [v == s] for a [str] [s] *)
Definition py_eq_str (v : json) (s : ustring) : bool :=
  match v with
  | JStr t => ustring_eqb t s
  | _ => false
  end.

(** [v[k]] for a [str] [k] *)
Definition py_getitem (v : json) (k : ustring) : result json :=
  match v with
  | JObj d => match dict_get k d with
              | Some x => Ok x
              | None => Raise KeyError
              end
  | _ => Raise TypeError
  end.

(** [v.get(k)] *)
Definition py_get (v : json) (k : ustring) : result json :=
  match v with
  | JObj d => Ok (default JNull (dict_get k d))
  | _ => Raise AttributeError
  end.

(** [k in v] for a [str] [k] *)
Definition py_in (k : ustring) (v : json) : result bool :=
  match v with
  | JObj d => Ok (bool_decide (is_Some (dict_get k d)))
  | JArr l => Ok (existsb (fun x => py_eq_str x k) l)
  | JStr s => Ok (contains k s)
  | _ => Raise TypeError
  end.

(** [v[0:10]] *)
Definition py_slice10 (v : json) : result json :=
  match v with
  | JStr s => Ok (JStr (take 10 s))
  | JArr l => Ok (JArr (take 10 l))
  | _ => Raise TypeError
  end.

(** [re.search] and [str] methods want a [str]. *)
Definition expect_str (e : exn) (v : json) : result ustring :=
  match v with
  | JStr s => Ok s
  | _ => Raise e
  end.

(** [a or b] *)
Definition py_or (a b : json) : json := if truthy a then a else b.

(** [for x in v]: the elements of a list, the keys of a dict, the
    characters of a string. *)
Definition py_iter (v : json) : result (list json) :=
  match v with
  | JArr l => Ok l
  | JObj d => Ok (map (fun kv => JStr (fst kv)) d)
  | JStr s => Ok (map (fun c => JStr [c]) s)
  | _ => Raise TypeError
  end.

(** [current_obj] after [for word in pieces: current_obj = current_obj[word]] *)
Fixpoint get_path (pieces : list ustring) (v : json) : result json :=
  match pieces with
  | [] => Ok v
  | word :: ps =>
      match py_getitem v word with
      | Ok child => get_path ps child
      | Raise e => Raise e
      end
  end.

(** The document after [current_obj[key] = value], [current_obj] being
    the object reached from the document through [pieces]. *)
Fixpoint set_path (pieces : list ustring) (key : ustring) (value v : json)
  : result json :=
  match v with
  | JObj d =>
      match pieces with
      | [] => Ok (JObj (dict_set key value d))
      | word :: ps =>
          match dict_get word d with
          | Some child =>
              match set_path ps key value child with
              | Ok child' => Ok (JObj (dict_set word child' d))
              | Raise e => Raise e
              end
          | None => Raise KeyError
          end
      end
  | _ => Raise TypeError
  end.

(** [pieces.pop()]: the last piece and the ones before it. *)
Definition pop_last (pieces : list ustring) : list ustring * ustring :=
  (removelast pieces, default [] (last pieces)).

(** [os.path.join(a, b)] for a relative [b]. *)
Definition path_join (a b : ustring) : ustring :=
  match last a with
  | None => b
  | Some c => if c =? 47 then a ++ b else a ++ 47 :: b
  end.

(** Lines 312-328 of [close_pull_request]: do two [git diff-tree]
    listings differ?  A line is cut at spaces and its fourth field, the
    blob the path has after the commit, is compared. *)
Definition commits_differ (commit original : ustring) : bool :=
  let current_commits := split_on 32 commit in
  let original_commits := split_on 32 original in
  (4 <=? length current_commits)%nat
  && (4 <=? length original_commits)%nat
  && negb (ustring_eqb (nth 3 current_commits []) (nth 3 original_commits [])).

Definition trees_differ (current_diff_tree original_diff_tree : ustring) : bool :=
  let current_tree_commits := split_on 10 current_diff_tree in
  let original_tree_commits := split_on 10 original_diff_tree in
  if (length current_tree_commits =? length original_tree_commits)%nat
  then existsb (fun co => commits_differ (fst co) (snd co))
               (zip current_tree_commits original_tree_commits)
  else true.

(** ** The text of a description *)

(** The characters at which [str.splitlines()] ends a line. *)
Definition is_linebreak (c : N) : bool :=
  ((0xa <=? c) && (c <=? 0xd)) || ((0x1c <=? c) && (c <=? 0x1e))
  || (c =? 0x85) || (c =? 0x2028) || (c =? 0x2029).

(** [s.splitlines()]: a carriage return and the line feed after it end
    one line, and the text after the last line break is a line only when
    it is not empty. *)
Fixpoint splitlines (s : ustring) : list ustring :=
  match s with
  | [] => []
  | c :: s' =>
      if is_linebreak c then
        [] :: (if c =? 13
               then match s' with
                    | c' :: s'' => if c' =? 10 then splitlines s''
                                   else splitlines s'
                    | [] => splitlines s'
                    end
               else splitlines s')
      else match splitlines s' with
           | l :: ls => (c :: l) :: ls
           | [] => [[c]]
           end
  end.

(** [sep.join(lines)] for the line feed as [sep] *)
Fixpoint join_nl (lines : list ustring) : ustring :=
  match lines with
  | [] => []
  | l :: ls => match ls with
               | [] => l
               | _ :: _ => l ++ 10 :: join_nl ls
               end
  end.

(** [not line.strip()] *)
Definition blank (line : ustring) : bool := is_nil (strip line).

(** [while lines and not lines[0].strip(): lines.pop(0)] *)
Fixpoint drop_blank (lines : list ustring) : list ustring :=
  match lines with
  | l :: ls => if blank l then drop_blank ls else lines
  | [] => []
  end.

(** [strip_empty_lines(text)] *)
Definition strip_empty_lines (text : ustring) : ustring :=
  let lines := splitlines text in
  let lines := drop_blank lines in
  let lines := rev (drop_blank (rev lines)) in
  join_nl lines.

(** Where [pat] first occurs in [s]. *)
Fixpoint find_sub (pat s : ustring) : option nat :=
  if starts_with pat s then Some O
  else match s with
       | [] => None
       | _ :: s' => S <$> find_sub pat s'
       end.

(** [re.sub] of the pattern [<html>([\s\S]*?)</html>] by nothing: from
    left to right, every [<html>] that has a [</html>] after it is
    removed together with the text up to and including the nearest one;
    [skip] counts the characters of a match still to be dropped. *)
Fixpoint sub_html_blocks (skip : nat) (s : ustring) : ustring :=
  match s with
  | [] => []
  | c :: s' =>
      match skip with
      | S k => sub_html_blocks k s'
      | O =>
          if starts_with (u "<html>") s then
            match find_sub (u "</html>") (drop 6 s) with
            | Some i => sub_html_blocks (5 + i + 7) s'
            | None => c :: sub_html_blocks 0 s'
            end
          else c :: sub_html_blocks 0 s'
      end
  end.

(** The loop of [strip_html_tags] over the characters. *)
Fixpoint strip_tags_go (quote tag : bool) (s : ustring) : ustring :=
  match s with
  | [] => []
  | c :: s' =>
      if (c =? 60) && negb quote then strip_tags_go quote true s'
      else if (c =? 62) && negb quote then strip_tags_go quote false s'
      else if ((c =? 34) || (c =? 39)) && tag
      then strip_tags_go (negb quote) tag s'
      else if negb tag then c :: strip_tags_go quote tag s'
      else strip_tags_go quote tag s'
  end.

(** [strip_html_tags(html_raw)] *)
Definition strip_html_tags (html_raw : ustring) : ustring :=
  strip_tags_go false false (sub_html_blocks 0 html_raw).

(** [build_pull_request_title(branch_name)] *)
Definition build_pull_request_title (branch_name : ustring) : ustring :=
  let jira_ticket := get_jira_ticket branch_name in
  if negb (is_nil jira_ticket) then jira_ticket else branch_name.

(** [lookup_alias(key)] on the mapping [users]: whatever goes wrong,
    the key stands for itself. *)
Definition lookup_alias (users : json) (key : ustring) : json :=
  match (if truthy users then
           present <-- py_in key users ;;
           if present : bool then
             user_alias <-- py_getitem users key ;;
             Ok (if truthy user_alias then user_alias else JStr key)
           else Ok (JStr key)
         else Ok (JStr key))%py with
  | Ok user_alias => user_alias
  | Raise _ => JStr key
  end.

Section Program.

Variable sh : shell.

Local Open Scope py_scope.

(** *** Primitives *)

Definition os_system (cmd : ustring) : M Z :=
  fun w => (Ok (sh_system sh (w_trace w) cmd),
            with_trace (w_trace w ++ [EvSystem cmd]) w).

Definition os_popen (cmd : ustring) : M ustring :=
  fun w => (Ok (sh_popen sh (w_trace w) cmd),
            with_trace (w_trace w ++ [EvPopen cmd]) w).

Definition os_path_exists (path : ustring) : M bool :=
  fun w => (Ok (sh_exists sh (w_trace w) path), w).

Definition os_path_islink (path : ustring) : M bool :=
  fun w => (Ok (sh_islink sh (w_trace w) path), w).

(** [os.chdir(dir)] *)
Definition os_chdir (dir : ustring) : M unit :=
  ok <- os_path_exists dir ;;
  if ok : bool then emit (EvChdir dir) else raise FileNotFoundError.

Definition print_ (text : ustring) : M unit := emit (EvPrint text).

Definition print_color (text token : ustring) : M unit :=
  emit (EvPrintColor text token).

(** [json.load(open(path, mode))] for the modes [r] and [r+] *)
Definition load_doc (path : ustring) : M json :=
  fun w => match w_docs w !! path with
           | None => (Raise FileNotFoundError, w)
           | Some (NotJson _) => (Raise JSONDecodeError, w)
           | Some (Encoded v) => (Ok v, w)
           end.

(** The file holds exactly [json.dump(v)]: after [open(path, "w")], or
    after [seek(0)] and [truncate(0)]. *)
Definition dump_doc (path : ustring) (v : json) : M unit :=
  fun w => (Ok tt, with_docs (<[path := Encoded v]> (w_docs w)) w).

(** [os.remove(path)] under [except OSError: pass] *)
Definition remove_doc (path : ustring) : M unit :=
  fun w => (Ok tt, with_docs (delete path (w_docs w)) w).

(** [f = open(path, "wb"); f.write(data); f.close()]: opening empties
    the file, and a binary file takes [bytes] only. *)
Definition write_wb (path : ustring) (data : chunk) : M unit :=
  fun w => match data with
           | Str _ => (Raise TypeError, with_blobs (<[path := []]> (w_blobs w)) w)
           | Bytes b => (Ok tt, with_blobs (<[path := b]> (w_blobs w)) w)
           end.

(** [open(path, "rb").read()] *)
Definition read_rb (path : ustring) : M ustring :=
  fun w => match w_blobs w !! path with
           | None => (Raise FileNotFoundError, w)
           | Some b => (Ok b, w)
           end.

(** [str(v)], as [%s] formats it *)
Definition py_str (v : json) : ustring :=
  match v with
  | JNull => u "None"
  | JBool true => u "True"
  | JBool false => u "False"
  | JInt z => str_of_Z z
  | JStr s => s
  | _ => sh_repr sh v
  end.

(** *** Paths and logging *)

Definition get_tmp_path (filename : ustring) : ustring :=
  sh_tmpdir sh ++ 47 :: filename.

Definition get_api_url (command : ustring) : ustring :=
  u "https://api.github.com/" ++ command.

(** The record of request [pull_request_ID] *)
Definition treeish_path (pull_request_ID : json) : ustring :=
  get_tmp_path (u "git-pull-request-treeish-" ++ py_str pull_request_ID).

Fixpoint log (args : list json) : M unit :=
  match args with
  | [] => ret tt
  | arg :: rest =>
      emit (EvPrintJson arg) ;;;
      print_ (u "/---") ;;;
      log rest
  end.

(** [chdir(dir)] *)
Definition chdir (dir : chunk) : M unit :=
  write_wb (get_tmp_path (u "git-pull-request-chdir")) dir.

(** *** Branch naming *)

(** [build_branch_name(pull_request)] *)
Definition build_branch_name (pull_request : json) : result ustring :=
  head <-- py_getitem pull_request (u "head") ;;
  ref <-- py_getitem head (u "ref") ;;
  request_id <-- py_getitem pull_request (u "number") ;;
  let branch_name := u "pull-request-" ++ py_str request_id in
  ref_text <-- expect_str TypeError ref ;;
  let jira_ticket := get_jira_ticket ref_text in
  jira_ticket <-- (if negb (is_nil jira_ticket) then Ok jira_ticket
                   else title <-- py_getitem pull_request (u "title") ;;
                        title_text <-- expect_str TypeError title ;;
                        Ok (get_jira_ticket title_text)) ;;
  if negb (is_nil jira_ticket)
  then Ok (branch_name ++ 45 :: jira_ticket)
  else Ok branch_name.

(** [get_current_branch_name(ensure_pull_request)] *)
Definition get_current_branch_name (ensure_pull_request : bool) : M ustring :=
  out <- os_popen (u "git rev-parse --abbrev-ref HEAD") ;;
  let branch_name := strip out in
  if ensure_pull_request
     && negb (ustring_eqb (take 13 branch_name) (u "pull-request-"))
  then raise (UserWarning (u "Invalid branch: not a pull request"))
  else ret branch_name.

(** [display_status()] *)
Definition display_status : M ustring :=
  branch_name <- get_current_branch_name false ;;
  let out := u "Current branch: " ++ branch_name in
  print_ out ;;;
  ret out.

(** *** The metadata record *)

(** [meta(key, value)]; a [key] of [None] and a [value] of [None]
    ([JNull]) are the defaults.  The handler reports the [key] of the
    moment: the whole key while the file is opened and decoded, its last
    piece afterwards.  A [None] key is written to the file as [null]. *)
Definition meta (key : option ustring) (value : json) : M json :=
  branch_name <- get_current_branch_name false ;;
  match get_pull_request_ID branch_name with
  | None => ret JNull
  | Some pull_request_ID =>
      let meta_data_path := treeish_path (JInt pull_request_ID) in
      let failed (key : option ustring) : M json :=
        log [JStr (u "Could not update '"
                   ++ py_str (from_option JStr JNull key) ++ u "' with '"
                   ++ py_str value ++ u "'")] ;;;
        ret JNull in
      loaded <- try_except (current_value <- load_doc meta_data_path ;;
                            ret (Some current_value))
                           (fun _ => ret None) ;;
      match loaded with
      | None => failed key
      | Some current_value =>
          let pieces :=
            match key with
            | Some k => fst (pop_last (split_on 46 k))
            | None => []
            end in
          let key :=
            match key with
            | Some k => Some (snd (pop_last (split_on 46 k)))
            | None => None
            end in
          try_except
            (current_obj <- lift (get_path pieces current_value) ;;
             val <- match key, value with
                    | Some k, JNull =>
                        present <- lift (py_in k current_obj) ;;
                        if present : bool then lift (py_getitem current_obj k)
                        else ret (JStr [])
                    | _, _ => ret current_value
                    end ;;
             match value with
             | JNull => ret val
             | _ =>
                 new_value <- lift (set_path pieces (default (u "null") key)
                                             value current_value) ;;
                 dump_doc meta_data_path new_value ;;;
                 ret value
             end)
            (fun _ => failed key)
      end
  end.

(** [update_meta()] *)
Definition update_meta : M ustring :=
  branch_name <- get_current_branch_name true ;;
  opts <- get_options ;;
  let update_branch_option := opt_update_branch opts in
  out <- os_popen (u "git merge-base " ++ update_branch_option
                   ++ u " " ++ branch_name) ;;
  let parent_commit := take 10 (strip out) in
  out <- os_popen (u "git rev-parse HEAD") ;;
  let head_commit := take 10 (strip out) in
  let updated := JObj [(u "parent_commit", JStr parent_commit);
                       (u "head_commit", JStr head_commit)] in
  meta (Some (u "updated")) updated ;;;
  let branch_treeish :=
    if ustring_eqb parent_commit head_commit then head_commit
    else parent_commit ++ u ".." ++ head_commit in
  print_color (u "Original commits: " ++ branch_treeish) (u "status") ;;;
  ret branch_treeish.

(** *** GitHub *)

(** [github_request(url, params)] with the stored token.  The status of
    a response is read nowhere but in the handler of a failed request,
    where there is no response: that handler ends in [AttributeError]. *)
Definition github_request (url : ustring) (params : option json) : M payload :=
  let encode_data :=
    match params with
    | Some p => if truthy p then Some p else None
    | None => None
    end in
  w <- get_world ;;
  when (w_DEBUG w) (print_ url) ;;;
  w <- get_world ;;
  let post := bool_decide (is_Some encode_data) in
  emit (EvRequest post url encode_data) ;;;
  match sh_http sh (w_trace w) post url encode_data with
  | ConnectionFailed => raise AttributeError
  | Response _ data =>
      match data with
      | NotJson [] => raise (UserWarning (u "Invalid response from github"))
      | _ => ret data
      end
  end.

(** [github_json_request(url, params)] *)
Definition github_json_request (url : ustring) (params : option json) : M json :=
  data <- github_request url params ;;
  match data with
  | Encoded v => ret v
  | NotJson _ => raise JSONDecodeError
  end.

(** [get_pull_request(repo_name, pull_request_ID)] *)
Definition get_pull_request (repo_name : ustring) (pull_request_ID : json) : M json :=
  let url := get_api_url (u "repos/" ++ repo_name ++ u "/pulls/"
                          ++ py_str pull_request_ID) in
  github_json_request url None.

Fixpoint filter_pulls (update_branch : ustring) (pulls : list json)
  : result (list json) :=
  match pulls with
  | [] => Ok []
  | pull :: rest =>
      base <-- py_getitem pull (u "base") ;;
      ref <-- py_getitem base (u "ref") ;;
      kept <-- filter_pulls update_branch rest ;;
      Ok (if py_eq_str ref update_branch then pull :: kept else kept)
  end.

(** [get_pull_requests(repo_name, filter_by_update_branch)] *)
Definition get_pull_requests (repo_name : ustring) (filter_by_update_branch : bool)
  : M json :=
  let url := get_api_url (u "repos/" ++ repo_name ++ u "/pulls") in
  pulls <- github_json_request url None ;;
  if filter_by_update_branch then
    opts <- get_options ;;
    items <- lift (py_iter pulls) ;;
    pull_requests <- lift (filter_pulls (opt_update_branch opts) items) ;;
    ret (JArr pull_requests)
  else ret pulls.

(** [post_comment(repo_name, pull_request_ID, comment)] *)
Definition post_comment (repo_name : ustring) (pull_request_ID : json)
  (comment : ustring) : M unit :=
  let url := get_api_url (u "repos/" ++ repo_name ++ u "/issues/"
                          ++ py_str pull_request_ID ++ u "/comments") in
  let params := JObj [(u "body", JStr comment)] in
  github_json_request url (Some params) ;;;
  ret tt.

(** [display_pull_request_minimal(pull_request)]: the fields it reads
    and the line it prints. *)
Definition display_pull_request_minimal (pull_request : json) : M unit :=
  number <- lift (py_get pull_request (u "number")) ;;
  title <- lift (py_get pull_request (u "title")) ;;
  user <- lift (py_getitem pull_request (u "user")) ;;
  login <- lift (py_get user (u "login")) ;;
  emit (EvPrintPull number title login).

(** [display_pull_request(pull_request)]; the description is printed
    after tags, blank lines and the excess over the configured limits
    are removed. *)
Definition display_pull_request (pull_request : json) : M unit :=
  display_pull_request_minimal pull_request ;;;
  html_url <- lift (py_get pull_request (u "html_url")) ;;
  emit (EvPrintUrl html_url) ;;;
  pr_body <- lift (py_get pull_request (u "body")) ;;
  if truthy pr_body then
    text <- lift (expect_str AttributeError pr_body) ;;
    when (negb (is_nil (strip text))) (emit (EvPrintBody text))
  else ret tt.

(** [get_repo_url(pull_request, repo_name, force)] *)
Definition get_repo_url (pull_request : json) (repo_name : ustring) (force : bool)
  : result json :=
  if negb force then Ok (JStr (u "git@github.com:" ++ repo_name ++ u ".git"))
  else
    head <-- py_getitem pull_request (u "head") ;;
    repo <-- py_getitem head (u "repo") ;;
    html_url <-- py_getitem repo (u "html_url") ;;
    html_text <-- expect_str AttributeError html_url ;;
    let repo_url := JStr (replace (u "https") (u "git") html_text) in
    private_repo <-- py_getitem repo (u "private") ;;
    if truthy private_repo then py_getitem repo (u "ssh_url")
    else Ok repo_url.

(** [fetch_pull_request(pull_request, repo_name)] *)
Definition fetch_pull_request (pull_request : json) (repo_name : ustring)
  : M ustring :=
  branch_name <- lift (build_branch_name pull_request) ;;
  repo_url <- lift (get_repo_url pull_request repo_name false) ;;
  number <- lift (py_getitem pull_request (u "number")) ;;
  let remote_branch_name := u "refs/pull/" ++ py_str number ++ u "/head" in
  let fetch (repo_url : json) (remote : ustring) :=
    u "git fetch " ++ py_str repo_url ++ u " " ++ 34 :: remote
    ++ 34 :: u ":" ++ branch_name in
  code <- os_system (u "git show-ref --verify -q refs/heads/" ++ branch_name) ;;
  code <- (if negb (code =? 0)%Z
           then os_system (fetch repo_url remote_branch_name) else ret code) ;;
  code <- (if negb (code =? 0)%Z
           then os_system (u "git show-ref --verify refs/heads/" ++ branch_name)
           else ret code) ;;
  (if negb (code =? 0)%Z then
     print_ (u "Could not get from refs/pull/" ++ py_str number
             ++ u "/head, trying to brute force the fetch") ;;;
     repo_url <- lift (get_repo_url pull_request repo_name true) ;;
     head <- lift (py_getitem pull_request (u "head")) ;;
     remote_branch_name <- lift (py_getitem head (u "ref")) ;;
     code <- os_system (fetch repo_url (py_str remote_branch_name)) ;;
     code <- (if negb (code =? 0)%Z
              then os_system (u "git show-ref --verify refs/heads/" ++ branch_name)
              else ret code) ;;
     if negb (code =? 0)%Z then raise (UserWarning (u "Fetch failed"))
     else ret tt
   else ret tt) ;;;
  remove_doc (treeish_path number) ;;;
  ret branch_name.

(** *** The work directory *)

(** [get_git_base_path()] *)
Definition get_git_base_path : M ustring :=
  out <- os_popen (u "git rev-parse --show-toplevel") ;;
  ret (strip out).

(** [get_work_dir()].  The entry [work-dir-<branch>] it adds to
    [options] is read nowhere and is left out. *)
Definition get_work_dir : M work_dir_val :=
  w <- get_world ;;
  match w__work_dir w with
  | WdNone =>
      out <- os_popen (u "git symbolic-ref HEAD") ;;
      let symbolic_ref := replace (u "refs/heads/") [] (strip out) in
      opts <- get_options ;;
      let work_dir_global := opt_work_dir opts in
      local <- (if negb (is_nil symbolic_ref)
                then out <- os_popen (u "git config git-pull-request."
                                      ++ u "work-dir-" ++ symbolic_ref) ;;
                     ret (strip out)
                else ret []) ;;
      found <- (if negb (is_nil local) then os_path_exists local
                else ret false) ;;
      resolved <-
        (if found : bool then ret (WdPath local)
         else match work_dir_global with
              | Some g =>
                  if negb (is_nil g) then
                    there <- os_path_exists g ;;
                    ret (if there : bool then WdPath g else WdFalse)
                  else ret WdFalse
              | None => ret WdFalse
              end) ;;
      (fun w => (Ok resolved, with__work_dir resolved w))
  | cached => ret cached
  end.

(** [in_work_dir()] *)
Definition in_work_dir : M bool :=
  git_base_path <- get_git_base_path ;;
  work_dir <- get_work_dir ;;
  match work_dir with
  | WdPath d =>
      if ustring_eqb (sh_lower sh git_base_path) (sh_lower sh d)
      then os_path_islink (path_join (path_join git_base_path (u ".git"))
                                     (u "config"))
      else ret false
  | _ => ret false
  end.

(** [get_original_dir_path()].  What is read is [bytes], which equal no
    [str]: the fallback through the link of [.git/config] is never
    taken. *)
Definition get_original_dir_path : M ustring :=
  git_base_path <- get_git_base_path ;;
  work_dir <- get_work_dir ;;
  match work_dir with
  | WdPath d =>
      read_rb (path_join (path_join d (u ".git")) (u "original_dir_path"))
  | _ => raise TypeError
  end.

(** *** Update, continue, complete *)

Definition resolve_instruction : ustring :=
  u "Resolve conflicts and 'git add' files, then run 'gitpr continue-update'".

(** [complete_update(branch_name)] *)
Definition complete_update (branch_name : ustring) : M unit :=
  opts <- get_options ;;
  let update_branch_option := opt_update_branch opts in
  inside <- in_work_dir ;;
  (if inside : bool then
     code <- os_system (u "git checkout " ++ update_branch_option) ;;
     (if negb (code =? 0)%Z
      then raise (UserWarning (u "Could not checkout " ++ update_branch_option
                               ++ u " branch in work directory"))
      else ret tt) ;;;
     original_dir_path <- get_original_dir_path ;;
     print_color (u "Switching to original directory: '"
                  ++ sh_repr_bytes sh original_dir_path ++ u "'") (u "status") ;;;
     os_chdir original_dir_path ;;;
     chdir (Bytes original_dir_path) ;;;
     current <- get_current_branch_name false ;;
     if ustring_eqb current branch_name then
       code <- os_system (u "git reset --hard && git clean -f") ;;
       if negb (code =? 0)%Z
       then raise (UserWarning (u "Syncing branch " ++ branch_name
                                ++ u " with work directory failed"))
       else ret tt
     else
       code <- os_system (u "git checkout " ++ branch_name) ;;
       if negb (code =? 0)%Z
       then raise (UserWarning (u "Could not checkout " ++ branch_name))
       else ret tt
   else ret tt) ;;;
  opts <- get_options ;;
  let update_branch_option := opt_update_branch opts in
  update_meta ;;;
  print_color (u "Updating " ++ branch_name ++ u " from " ++ update_branch_option
               ++ u " complete") (u "success").

(** [continue_update()]; with any other update method [ret] is unbound
    when it is tested. *)
Definition continue_update : M unit :=
  opts <- get_options ;;
  code <- (if ustring_eqb (opt_update_method opts) (u "merge")
           then os_system (u "git commit")
           else if ustring_eqb (opt_update_method opts) (u "rebase")
           then os_system (u "git rebase --continue")
           else raise UnboundLocalError) ;;
  if negb (code =? 0)%Z
  then raise (UserWarning (u "Updating from " ++ opt_update_branch opts
                           ++ u " failed" ++ 10 :: resolve_instruction))
  else
    branch_name <- get_current_branch_name true ;;
    complete_update branch_name.

(** [update_branch(branch_name)] *)
Definition update_branch (branch_name : ustring) : M unit :=
  inside <- in_work_dir ;;
  (if inside : bool
   then raise (UserWarning
     (u "Cannot perform an update from within the work directory."
      ++ 10 :: u "If you are done fixing conflicts run 'gitpr continue-update' to complete the update."))
   else ret tt) ;;;
  work_dir <- get_work_dir ;;
  let has_work_dir := match work_dir with WdPath _ => true | _ => false end in
  match work_dir with
  | WdPath d =>
      original_dir_path <- get_git_base_path ;;
      print_color (u "Switching to work directory " ++ d) (u "status") ;;;
      os_chdir d ;;;
      write_wb (path_join (path_join d (u ".git")) (u "original_dir_path"))
               (Str original_dir_path) ;;;
      code <- os_system (u "git reset --hard && git clean -f") ;;
      if negb (code =? 0)%Z
      then raise (UserWarning
                    (u "Cleaning up work directory failed, update not performed"))
      else ret tt
  | _ => ret tt
  end ;;;
  code <- os_system (u "git checkout " ++ branch_name) ;;
  (if negb (code =? 0)%Z then
     if has_work_dir
     then raise (UserWarning (u "Could not checkout " ++ branch_name
                   ++ u " in the work directory, update not performed"))
     else raise (UserWarning (u "Could not checkout " ++ branch_name
                              ++ u ", update not performed"))
   else ret tt) ;;;
  opts <- get_options ;;
  let update_branch_option := opt_update_branch opts in
  code <- os_system (u "git " ++ opt_update_method opts ++ u " " ++ opt_update_branch opts) ;;
  (if negb (code =? 0)%Z then
     match work_dir with
     | WdPath d => chdir (Str d)
     | _ => ret tt
     end ;;;
     raise (UserWarning (u "Updating " ++ branch_name ++ u " from "
                         ++ update_branch_option ++ u " failed"
                         ++ 10 :: resolve_instruction))
   else ret tt) ;;;
  complete_update branch_name.

(** *** Commands *)

(** [command_fetch(repo_name, pull_request_ID, auto_update)] *)
Definition command_fetch (repo_name : ustring) (pull_request_ID : json)
  (auto_update : bool) : M json :=
  print_color (u "Fetching pull request") (u "status") ;;;
  pull_request <- get_pull_request repo_name pull_request_ID ;;
  display_pull_request pull_request ;;;
  branch_name <- fetch_pull_request pull_request repo_name ;;
  base <- lift (py_getitem pull_request (u "base")) ;;
  parent_commit <- lift (py_getitem base (u "sha")) ;;
  head <- lift (py_getitem pull_request (u "head")) ;;
  head_commit <- lift (py_getitem head (u "sha")) ;;
  user <- lift (py_getitem pull_request (u "user")) ;;
  username <- lift (py_getitem user (u "login")) ;;
  parent_short <- lift (py_slice10 parent_commit) ;;
  head_short <- lift (py_slice10 head_commit) ;;
  let branch_info :=
    JObj [(u "username", username);
          (u "original", JObj [(u "parent_commit", parent_short);
                               (u "head_commit", head_short)])] in
  dump_doc (treeish_path pull_request_ID) branch_info ;;;
  opts <- get_options ;;
  (if auto_update then update_branch branch_name
   else if opt_fetch_auto_checkout opts then
     code <- os_system (u "git checkout " ++ branch_name) ;;
     if negb (code =? 0)%Z
     then raise (UserWarning (u "Could not checkout " ++ branch_name))
     else ret tt
   else ret tt) ;;;
  print_color (u "Fetch completed") (u "success") ;;;
  display_status ;;;
  ret pull_request.

(** The [try] block of [close_pull_request]: the comment it builds.
    Everything in it that can raise comes before [comment] is first
    assigned, so a failure leaves the caller's comment as it was. *)
Definition close_comment (repo_name : ustring) (pull_request_ID : json)
  (comment : option ustring) : M (option ustring) :=
  branch_info <- load_doc (treeish_path pull_request_ID) ;;
  username <- lift (py_getitem branch_info (u "username")) ;;
  has_original <- lift (py_in (u "original") branch_info) ;;
  original_commits <-
    (if has_original : bool then
       original <- lift (py_getitem branch_info (u "original")) ;;
       p <- lift (py_getitem original (u "parent_commit")) ;;
       h <- lift (py_getitem original (u "head_commit")) ;;
       ret (p, h)
     else ret (JStr [], JStr [])) ;;
  let original_parent_commit := fst original_commits in
  let original_head_commit := snd original_commits in
  has_updated <- lift (py_in (u "updated") branch_info) ;;
  updated_commits <-
    (if has_updated : bool then
       updated <- lift (py_getitem branch_info (u "updated")) ;;
       p <- lift (py_getitem updated (u "parent_commit")) ;;
       h <- lift (py_getitem updated (u "head_commit")) ;;
       ret (p, h)
     else ret (JStr [], JStr [])) ;;
  let updated_parent_commit := fst updated_commits in
  let updated_head_commit := snd updated_commits in
  out <- os_popen (u "git rev-parse HEAD") ;;
  let current_head_commit := take 10 (strip out) in
  diff_commit <-
    (if negb (py_eq_str original_head_commit current_head_commit) then
       out <- os_popen (u "git diff-tree -r -c -M -C --no-commit-id HEAD") ;;
       let current_diff_tree := strip out in
       out <- os_popen (u "git diff-tree -r -c -M -C --no-commit-id "
                        ++ py_str original_head_commit) ;;
       let original_diff_tree := strip out in
       ret (trees_differ current_diff_tree original_diff_tree)
     else ret false) ;;
  let last_head := py_or updated_head_commit original_head_commit in
  let diff_commit :=
    if py_eq_str last_head current_head_commit then false else diff_commit in
  let my_diff_comment :=
    if diff_commit : bool
    then 10 :: 10 :: u "View just my changes: https://github.com/"
         ++ repo_name ++ u "/compare/" ++ py_str username ++ u ":"
         ++ py_str last_head ++ u "..." ++ current_head_commit
    else [] in
  let comment := default [] comment in
  new_pr_url <- meta (Some (u "new_pr_url")) JNull ;;
  let comment :=
    if truthy new_pr_url && negb (py_eq_str new_pr_url [])
    then comment ++ 10 :: u "Pull request submitted at: " ++ py_str new_pr_url
    else comment in
  let comment := comment ++ my_diff_comment in
  let comment :=
    comment ++ 10 :: u "View total diff: https://github.com/" ++ repo_name
    ++ u "/compare/"
    ++ py_str (py_or updated_parent_commit original_parent_commit)
    ++ u "..." ++ current_head_commit in
  ret (Some comment).

(** [close_pull_request(repo_name, pull_request_ID, comment)] *)
Definition close_pull_request (repo_name : ustring) (pull_request_ID : json)
  (comment : option ustring) : M unit :=
  opts <- get_options ;;
  let default_comment := opt_close_default_comment opts in
  let comment := match comment with None => default_comment | c => c end in
  comment <-
    (if is_nil (option_list comment)
        || bool_decide (comment = default_comment)
     then try_except (close_comment repo_name pull_request_ID comment)
                     (fun _ => ret comment)
     else ret comment) ;;
  match comment with
  | Some (c :: text) => post_comment repo_name pull_request_ID (c :: text)
  | _ => ret tt
  end ;;;
  let url := get_api_url (u "repos/" ++ repo_name ++ u "/pulls/"
                          ++ py_str pull_request_ID) in
  let params := JObj [(u "state", JStr (u "closed"))] in
  github_json_request url (Some params) ;;;
  ret tt.

Definition from_ID (pull_request_ID : option Z) : json :=
  from_option JInt JNull pull_request_ID.

(** [command_close(repo_name, comment)] *)
Definition command_close (repo_name : ustring) (comment : option ustring)
  : M unit :=
  print_color (u "Closing pull request") (u "status") ;;;
  branch_name <- get_current_branch_name true ;;
  let pull_request_ID := from_ID (get_pull_request_ID branch_name) in
  pull_request <- get_pull_request repo_name pull_request_ID ;;
  display_pull_request pull_request ;;;
  close_pull_request repo_name pull_request_ID comment ;;;
  opts <- get_options ;;
  let update_branch_option := opt_update_branch opts in
  code <- os_system (u "git checkout " ++ update_branch_option) ;;
  (if negb (code =? 0)%Z
   then raise (UserWarning (u "Could not checkout " ++ update_branch_option))
   else ret tt) ;;;
  print_color (u "Deleting branch " ++ branch_name) (u "status") ;;;
  code <- os_system (u "git branch -D " ++ branch_name) ;;
  (if negb (code =? 0)%Z
   then raise (UserWarning (u "Could not delete branch"))
   else ret tt) ;;;
  print_color (u "Pull request closed") (u "success") ;;;
  display_status ;;;
  ret tt.

(** [command_merge(repo_name, comment)] *)
Definition command_merge (repo_name : ustring) (comment : option ustring)
  : M unit :=
  branch_name <- get_current_branch_name true ;;
  let pull_request_ID := from_ID (get_pull_request_ID branch_name) in
  opts <- get_options ;;
  let update_branch_option := opt_update_branch opts in
  print_color (u "Merging " ++ branch_name ++ u " into " ++ update_branch_option)
              (u "status") ;;;
  code <- os_system (u "git checkout " ++ update_branch_option) ;;
  (if negb (code =? 0)%Z
   then raise (UserWarning (u "Could not checkout " ++ update_branch_option))
   else ret tt) ;;;
  code <- os_system (u "git merge " ++ branch_name) ;;
  (if negb (code =? 0)%Z
   then raise (UserWarning
     (u "Merge with " ++ update_branch_option
      ++ u " failed. Resolve conflicts, switch back into the pull request branch, and merge again"))
   else ret tt) ;;;
  print_color (u "Deleting branch " ++ branch_name) (u "status") ;;;
  code <- os_system (u "git branch -D " ++ branch_name) ;;
  (if negb (code =? 0)%Z
   then raise (UserWarning (u "Could not delete branch"))
   else ret tt) ;;;
  opts <- get_options ;;
  (if opt_merge_auto_close opts then
     print_color (u "Closing pull request") (u "status") ;;;
     close_pull_request repo_name pull_request_ID comment
   else ret tt) ;;;
  print_color (u "Merge completed") (u "success") ;;;
  display_status ;;;
  ret tt.

(** [command_update(repo_name, target)].  [JSONDecodeError] is a
    [ValueError]: a reply that does not decode is handled like a target
    that is not a number. *)
Definition command_update (repo_name : ustring) (target : option ustring)
  : M unit :=
  branch_name <-
    match target with
    | None => get_current_branch_name true
    | Some target =>
        match sh_int sh target with
        | None => ret target
        | Some pull_request_ID =>
            try_except
              (pull_request <- get_pull_request repo_name (JInt pull_request_ID) ;;
               lift (build_branch_name pull_request))
              (fun e => match e with
                        | JSONDecodeError => ret target
                        | _ => raise e
                        end)
        end
    end ;;
  opts <- get_options ;;
  print_color (u "Updating " ++ branch_name ++ u " from " ++ opt_update_branch opts)
              (u "status") ;;;
  update_branch branch_name ;;;
  display_status ;;;
  ret tt.

(** [get_repo_name_for_remote(remote_name)]; [None] when the search
    fails or captures nothing. *)
Definition get_repo_name_for_remote (remote_name : ustring) : M (option ustring) :=
  remotes <- os_popen (u "git remote -v") ;;
  match sh_remote_re sh remote_name remotes with
  | Some (c :: name) => ret (Some (c :: name))
  | _ => ret None
  end.

(** [open_URL(url)] *)
Definition open_URL (url : json) : M unit :=
  out <- os_popen (u "command -v open") ;;
  if negb (is_nil (strip out)) then
    code <- os_system (u "open -g " ++ 34 :: py_str url ++ 34 :: u " 2>/dev/null") ;;
    if negb (code =? 0)%Z
    then os_system (u "open " ++ 34 :: py_str url ++ [34]) ;;; ret tt
    else ret tt
  else
    out <- os_popen (u "command -v cygstart") ;;
    if negb (is_nil (strip out))
    then os_system (u "cygstart " ++ 34 :: py_str url ++ [34]) ;;; ret tt
    else emit (EvBrowser url).

(** The loop of [command_submit] over the reviewer's open pulls: the
    last pull of this user from this branch, if any. *)
Fixpoint find_submitted (login branch_name : ustring) (pulls : list json)
  (pull_request : option json) : result (option json) :=
  match pulls with
  | [] => Ok pull_request
  | pr :: rest =>
      user <-- py_get pr (u "user") ;;
      pr_login <-- py_get user (u "login") ;;
      mine <-- (if py_eq_str pr_login login then
                  head <-- py_get pr (u "head") ;;
                  ref <-- py_get head (u "ref") ;;
                  Ok (py_eq_str ref branch_name)
                else Ok false) ;;
      find_submitted login branch_name rest
                     (if mine : bool then Some pr else pull_request)
  end.

Definition falsy (pull_request : option json) : bool :=
  match pull_request with
  | Some v => negb (truthy v)
  | None => true
  end.

(** [command_submit(repo_name, username, reviewer_repo_name, pull_body,
    pull_title, submitOpenGitHub)].  With [format-submit-body] set the
    body template is never filled in: [committers] is a [str], which has
    no [decode]. *)
Definition command_submit (repo_name username : ustring)
  (reviewer_repo_name pull_body pull_title : option ustring)
  (submitOpenGitHub : bool) : M json :=
  branch_name <- get_current_branch_name false ;;
  print_color (u "Submitting pull request for " ++ branch_name) (u "status") ;;;
  reviewer_repo_name <-
    match reviewer_repo_name with
    | Some (c :: name) => ret (Some (c :: name))
    | _ => get_repo_name_for_remote (u "upstream")
    end ;;
  reviewer_repo_name <-
    match reviewer_repo_name with
    | Some (c :: name) => ret (c :: name)
    | _ => raise (UserWarning
                    (u "Could not determine a repo to submit this pull request to"))
    end ;;
  let reviewer_repo_name :=
    if negb (contains [47] reviewer_repo_name)
    then replace username reviewer_repo_name repo_name
    else reviewer_repo_name in
  print_color (u "Pushing local branch " ++ branch_name ++ u " to origin")
              (u "status") ;;;
  code <- os_system (u "git push origin " ++ branch_name) ;;
  (if negb (code =? 0)%Z
   then raise (UserWarning (u "Could not push this branch to your origin"))
   else ret tt) ;;;
  let url := get_api_url (u "repos/" ++ reviewer_repo_name ++ u "/pulls") in
  let pull_title :=
    match pull_title with
    | Some (c :: t) => c :: t
    | _ => build_pull_request_title branch_name
    end in
  opts <- get_options ;;
  match opt_format_submit_body opts with
  | Some (c :: format) =>
      out <- os_popen (u "git merge-base " ++ opt_update_branch opts
                       ++ u " " ++ branch_name) ;;
      let merge_base := strip out in
      os_popen (u "git log " ++ merge_base ++ u ".." ++ branch_name
                ++ u " --pretty='%an' --reverse | awk ' !x[$0]++'") ;;;
      raise AttributeError
  | _ => ret tt
  end ;;;
  let pull_body := default [] pull_body in
  opts <- get_options ;;
  let params :=
    JObj [(u "base", JStr (opt_update_branch opts));
          (u "head", JStr (username ++ u ":" ++ branch_name));
          (u "title", JStr pull_title);
          (u "body", JStr pull_body)] in
  print_color (u "Sending pull request to " ++ reviewer_repo_name) (u "status") ;;;
  sent <- try_except (pr <- github_json_request url (Some params) ;;
                      ret (Some pr, None))
                     (fun e => ret (None, Some e)) ;;
  let pull_request : option json := fst sent in
  let msg : option exn := snd sent in
  pull_request <-
    (if falsy pull_request then
       print_ (u "Couldn't get a response from github, going to check if the pull was submitted anyways...") ;;;
       reviewer_pulls <- get_pull_requests reviewer_repo_name true ;;
       pulls <- lift (py_iter reviewer_pulls) ;;
       w <- get_world ;;
       lift (find_submitted (w_DEFAULT_USERNAME w) branch_name pulls
                            pull_request)
     else ret pull_request) ;;
  match (if falsy pull_request then None else pull_request) with
  | None => raise (default UnboundLocalError msg)
  | Some pull_request =>
      new_pr_url <- lift (py_get pull_request (u "html_url")) ;;
      (if truthy new_pr_url && negb (py_eq_str new_pr_url [])
       then meta (Some (u "new_pr_url")) new_pr_url ;;; ret tt
       else ret tt) ;;;
      display_pull_request pull_request ;;;
      print_color (u "Pull request submitted") (u "success") ;;;
      display_status ;;;
      (if submitOpenGitHub then open_URL new_pr_url else ret tt) ;;;
      ret pull_request
  end.

(** [get_default_repo_name()] *)
Definition get_default_repo_name : M ustring :=
  out <- os_popen (u "git config github.repo") ;;
  let repo_name := strip out in
  repo_name <- (if is_nil repo_name
                then get_repo_name_for_remote (u "origin")
                else ret (Some repo_name)) ;;
  match repo_name with
  | Some (c :: name) => ret (c :: name)
  | _ => raise (UserWarning (u "Failed to determine github repository name"))
  end.

(** [command_comment(repo_name, comment, pull_request_ID)]; an argument
    of [None] is Python's [None]. *)
Definition command_comment (repo_name : ustring) (comment : option ustring)
  (pull_request_ID : option json) : M unit :=
  pull_request_ID <-
    match pull_request_ID with
    | None =>
        branch_name <- get_current_branch_name true ;;
        ret (from_ID (get_pull_request_ID branch_name))
    | Some given => ret given
    end ;;
  match comment with
  | Some (c :: text) => post_comment repo_name pull_request_ID (c :: text)
  | _ => raise (UserWarning (u "Please include a comment"))
  end.



(** [command_alias(alias, githubname, filename)] on the mapping
    [users], which it changes in place: the mapping it leaves is the
    result. *)
Definition command_alias (users : json) (alias githubname filename : ustring)
  : M json :=
  users <- match users with
           | JObj d => ret (JObj (dict_set alias (JStr githubname) d))
           | _ => raise (UserWarning
                           (u "Error while updating the alias for " ++ alias))
           end ;;
  dump_doc filename users ;;;
  ret users.

End Program.

(** ** Vocabulary of the statements *)

(** The segment an atom may capture. *)
Definition seg_ok (a : atom) (g : ustring) : Prop :=
  match a with
  | Lit l => g = l
  | Rep p lo => Forall (fun c => p c = true) g /\ (lo <= length g)%nat
  end.

(** [t] is a word of the pattern: one segment per atom. *)
Definition in_lang (r : list atom) (t : ustring) : Prop :=
  exists gs, Forall2 seg_ok r gs /\ t = concat gs.

(** The pattern matches at the very start of [s]. *)
Definition matches_at_start (r : list atom) (s : ustring) : Prop :=
  exists t rest, s = t ++ rest /\ in_lang r t.

(** The pattern matches nowhere in [s]. *)
Definition no_match (r : list atom) (s : ustring) : Prop :=
  forall pre t rest, s = pre ++ t ++ rest -> ~ in_lang r t.

(** [t] is the first match of the pattern in [s]: no match starts
    further left, and none that starts at the same place is longer. *)
Definition first_match (r : list atom) (s t : ustring) : Prop :=
  exists pre rest,
    s = pre ++ t ++ rest /\ in_lang r t /\
    (forall pre' t' rest', s = pre' ++ t' ++ rest' -> in_lang r t' ->
                           (length pre <= length pre')%nat) /\
    (forall t' rest', t ++ rest = t' ++ rest' -> in_lang r t' ->
                      (length t' <= length t)%nat).

(** [s] does not begin with a decimal digit. *)
Definition stops_digits (s : ustring) : Prop :=
  match s with
  | [] => True
  | c :: _ => is_decimal c = false
  end.

(** [s] consists of the digits [0] to [9]. *)
Definition ascii_digits (s : ustring) : Prop :=
  Forall (fun c => 48 <= c /\ c <= 57) s.

(** The value of field [k] of the record a file holds, if it holds one. *)
Definition record_field (file : option payload) (k : ustring) : option json :=
  match file with
  | Some (Encoded (JObj d)) => dict_get k d
  | _ => None
  end.

(** The question every command asks git first. *)
Definition current_branch_cmd : ustring :=
  u "git rev-parse --abbrev-ref HEAD".

(** The branch git reports after history [tr]. *)
Definition current_branch (sh : shell) (tr : list event) : ustring :=
  strip (sh_popen sh tr current_branch_cmd).

(** A pair of short commits, as the record stores it. *)
Definition commit_pair (parent_commit head_commit : json) : json :=
  JObj [(u "parent_commit", parent_commit); (u "head_commit", head_commit)].

(** The world after [log [arg]]: two more lines on the console. *)
Definition logged (arg : json) (w : world) : world :=
  with_trace (w_trace w ++ [EvPrintJson arg] ++ [EvPrint (u "/---")]) w.

(** The message [meta] hands to [log]. *)
Definition could_not_update (sh : shell) (key : option ustring) (value : json)
  : json :=
  JStr (u "Could not update '" ++ py_str sh (from_option JStr JNull key)
        ++ u "' with '" ++ py_str sh value ++ u "'").

(** The world once git has been asked for the current branch. *)
Definition asked_branch (w : world) : world :=
  with_trace (w_trace w ++ [EvPopen current_branch_cmd]) w.

(** Outside of field [key], the records in [docs'] are those of [docs]. *)
Definition same_but (key : ustring) (docs docs' : gmap ustring payload) : Prop :=
  forall path k', k' <> key ->
    record_field (docs' !! path) k' = record_field (docs !! path) k'.

(** Whatever the world, running [m] takes the record files to files
    related by [R]. *)
Definition docs_rel {A : Type} (R : relation (gmap ustring payload)) (m : M A)
  : Prop :=
  forall w, R (w_docs w) (w_docs (m w).2).

(** A file that is missing, or whose text does not decode. *)
Definition unreadable (file : option payload) : Prop :=
  file = None \/ exists s, file = Some (NotJson s).

(** Closing with the caller's comment as it stands: it is posted when it
    is not empty, then the pull request is closed. *)
Definition close_plainly (sh : shell) (repo_name : ustring)
  (pull_request_ID : json) (comment : option ustring) : M unit :=
  (opts <- get_options ;;
   match (match comment with
          | None => opt_close_default_comment opts
          | c => c
          end) with
   | Some (c :: text) => post_comment sh repo_name pull_request_ID (c :: text)
   | _ => ret tt
   end ;;;
   github_json_request sh
     (get_api_url (u "repos/" ++ repo_name ++ u "/pulls/"
                   ++ py_str sh pull_request_ID))
     (Some (JObj [(u "state", JStr (u "closed"))])) ;;;
   ret tt)%py.

(** [m] ends in a value, whatever the world. *)
Definition never_raises {A : Type} (m : M A) : Prop :=
  forall w, exists a, (m w).1 = Ok a.

(** The two listings [close_pull_request] asks git for. *)
Definition diff_tree_cmd (commit : ustring) : ustring :=
  u "git diff-tree -r -c -M -C --no-commit-id " ++ commit.

(** The lines close adds to a comment. *)
Definition my_changes_link (sh : shell) (repo_name : ustring)
  (username last_head : json) (current_head_commit : ustring) : ustring :=
  10 :: 10 :: u "View just my changes: https://github.com/"
  ++ repo_name ++ u "/compare/" ++ py_str sh username ++ u ":"
  ++ py_str sh last_head ++ u "..." ++ current_head_commit.

Definition total_diff_link (sh : shell) (repo_name : ustring)
  (parent : json) (current_head_commit : ustring) : ustring :=
  10 :: u "View total diff: https://github.com/" ++ repo_name
  ++ u "/compare/" ++ py_str sh parent ++ u "..." ++ current_head_commit.

Definition submitted_line (sh : shell) (new_pr_url : json) : ustring :=
  if truthy new_pr_url && negb (py_eq_str new_pr_url [])
  then 10 :: u "Pull request submitted at: " ++ py_str sh new_pr_url
  else [].

(** The value a computation ended in ([None] if it raised). *)
Definition value_of (r : result json) : json :=
  match r with
  | Ok v => v
  | Raise _ => JNull
  end.

(** The error of a command run outside a pull-request branch. *)
Definition not_a_pull_request {A : Type} : result A :=
  Raise (UserWarning (u "Invalid branch: not a pull request")).

(** Whatever the world, running [m] adds to the history only events
    that satisfy [P]. *)
Definition trace_rel {A : Type} (P : event -> Prop) (m : M A) : Prop :=
  forall w, exists evs, w_trace (m w).2 = w_trace w ++ evs /\ Forall P evs.

(** The event is not the run of command [cmd]. *)
Definition not_system (cmd : ustring) (e : event) : Prop := e <> EvSystem cmd.

(** The command that completes an update, and the one that completes
    the other kind of update. *)
Definition completion_cmd (method : ustring) : ustring :=
  if ustring_eqb method (u "merge") then u "git commit"
  else u "git rebase --continue".

Definition other_completion_cmd (method : ustring) : ustring :=
  if ustring_eqb method (u "merge") then u "git rebase --continue"
  else u "git commit".

(** [w'] comes after [w] in a run that has touched neither the record
    files nor the options and has settled on no work directory. *)
Definition later_same (w w' : world) : Prop :=
  w_docs w' = w_docs w /\ w_options w' = w_options w
  /\ (exists evs, w_trace w' = w_trace w ++ evs)
  /\ (forall p, w__work_dir w' <> WdPath p).

(** No character of [l] ends a line. *)
Definition no_linebreak (l : ustring) : Prop :=
  Forall (fun c => is_linebreak c = false) l.

(** The branch a pull request is to be merged into. *)
Definition base_ref (pull : json) : result json :=
  (base <-- py_getitem pull (u "base") ;; py_getitem base (u "ref"))%py.

Definition has_base_ref (pull : json) : Prop := exists ref, base_ref pull = Ok ref.

(** The pull request is to be merged into [update_branch]. *)
Definition on_branch (update_branch : ustring) (pull : json) : bool :=
  match base_ref pull with
  | Ok ref => py_eq_str ref update_branch
  | Raise _ => false
  end.


(** The event is neither a command run through [os.system] nor a change
    of directory. *)
Definition no_command (e : event) : Prop :=
  match e with
  | EvSystem _ | EvChdir _ => False
  | _ => True
  end.

(** The event is not a request to GitHub. *)
Definition no_request (e : event) : Prop :=
  match e with
  | EvRequest _ _ _ => False
  | _ => True
  end.

(** The event is not the deletion of a branch. *)
Definition no_branch_delete (e : event) : Prop :=
  forall branch_name, e <> EvSystem (u "git branch -D " ++ branch_name).

(** Any event. *)
Definition any_event (e : event) : Prop := True.

(** The files of [docs'] are files of [docs], unchanged. *)
Definition only_removed (docs docs' : gmap ustring payload) : Prop :=
  forall path, docs' !! path = docs !! path \/ docs' !! path = None.

(** GitHub cannot be reached. *)
Definition unreachable (sh : shell) : Prop :=
  forall tr post url params, sh_http sh tr post url params = ConnectionFailed.

(** ** Concrete surroundings and inputs *)

(** A shell that answers from the command alone. *)
Definition simple_shell (system : ustring -> Z) (popen : ustring -> ustring)
  (exists_ : ustring -> bool)
  (http : bool -> ustring -> option json -> http_reply) : shell :=
  {| sh_tmpdir := u "/tmp";
     sh_repr := fun _ => u "{...}";
     sh_repr_bytes := fun b => u "b'" ++ b ++ u "'";
     sh_lower := fun s => s;
     sh_int := fun _ => None;
     sh_system := fun _ => system;
     sh_popen := fun _ => popen;
     sh_exists := fun _ => exists_;
     sh_islink := fun _ _ => false;
     sh_http := fun _ => http;
     sh_remote_re := fun _ _ => None |}.

(** Every command succeeds and prints nothing; GitHub is unreachable. *)
Definition quiet_shell : shell :=
  simple_shell (fun _ => 0%Z) (fun _ => []) (fun _ => false)
               (fun _ _ _ => ConnectionFailed).

Definition default_options : options :=
  {| opt_update_branch := u "master";
     opt_update_method := u "merge";
     opt_work_dir := None;
     opt_close_default_comment := None;
     opt_fetch_auto_checkout := false;
     opt_merge_auto_close := true;
     opt_filter_by_update_branch := true;
     opt_format_submit_body := None |}.

(** The state of a fresh process with the default options. *)
Definition fresh_world (docs : gmap ustring payload) : world :=
  {| w_trace := [];
     w_options := default_options;
     w_DEBUG := false;
     w_DEFAULT_USERNAME := u "octocat";
     w__work_dir := WdNone;
     w_docs := docs;
     w_blobs := ∅ |}.

(** A pull request as GitHub describes it. *)
Definition pull_request_of (number : Z) (ref title : ustring) : json :=
  JObj [(u "number", JInt number);
        (u "title", JStr title);
        (u "html_url", JStr (u "https://github.com/o/r/pull/1"));
        (u "body", JNull);
        (u "user", JObj [(u "login", JStr (u "octocat"))]);
        (u "head", JObj [(u "ref", JStr ref);
                         (u "sha", JStr (u "0123456789abcdef0123"))]);
        (u "base", JObj [(u "ref", JStr (u "master"));
                         (u "sha", JStr (u "fedcba9876543210fedc"))])].

(** [ABC-] followed by the Arabic-Indic digit three. *)
Definition arabic_ticket : ustring := u "ABC-" ++ [0x663].

(** A repository checked out on [branch], every commit being
    [0123456789abcdef]; GitHub is unreachable. *)
Definition shell_on_branch (branch : ustring) : shell :=
  simple_shell (fun _ => 0%Z)
               (fun cmd => if ustring_eqb cmd current_branch_cmd
                           then branch ++ [10]
                           else u "0123456789abcdef" ++ [10])
               (fun _ => false)
               (fun _ _ _ => ConnectionFailed).

(** The record of a pull request by [octocat], as [command_fetch]
    writes it. *)
Definition fetched_record : json :=
  JObj [(u "username", JStr (u "octocat"));
        (u "original", commit_pair (JStr (u "fedcba9876"))
                                   (JStr (u "0123456789")))].

(** A fresh process that holds the record of request 42. *)
Definition world_42 : world :=
  fresh_world {[ u "/tmp/git-pull-request-treeish-42" := Encoded fetched_record ]}.

(** A repository on [branch] whose GitHub answers every request with
    status [status] and the document [reply]. *)
Definition github_shell (branch : ustring) (status : Z) (reply : payload) : shell :=
  simple_shell (fun _ => 0%Z)
               (fun cmd => if ustring_eqb cmd current_branch_cmd
                           then branch ++ [10]
                           else u "0123456789abcdef" ++ [10])
               (fun _ => false)
               (fun _ _ _ => Response status reply).

(** Pull request 42, from the branch [JIRA-99-fix]. *)
Definition pull_42 : json := pull_request_of 42 (u "JIRA-99-fix") (u "Fix it").

Definition shell_42 : shell :=
  github_shell (u "pull-request-42-JIRA-99") 200 (Encoded pull_42).

(** One line of a [git diff-tree] listing: modes, blobs, status, path. *)
Definition tree_line (blob_before blob_after : ustring) : ustring :=
  u ":100644 100644 " ++ blob_before ++ u " " ++ blob_after ++ u " M"
  ++ 9 :: u "README".

(** Request 7 was fetched at head [aaaaaaaaaa] and updated to head
    [bbbbbbbbbb]; HEAD is now [cccccccccc].  The listings of HEAD and of
    [bbbbbbbbbb] are the same; that of [aaaaaaaaaa] has another blob. *)
Definition diff_shell : shell :=
  simple_shell
    (fun _ => 0%Z)
    (fun cmd =>
       if ustring_eqb cmd current_branch_cmd then u "pull-request-7" ++ [10]
       else if ustring_eqb cmd (u "git rev-parse HEAD")
       then u "cccccccccc1234" ++ [10]
       else if ustring_eqb cmd (diff_tree_cmd (u "aaaaaaaaaa"))
       then tree_line (u "1111111") (u "2222222") ++ [10]
       else tree_line (u "1111111") (u "3333333") ++ [10])
    (fun _ => false)
    (fun _ _ _ => ConnectionFailed).

Definition record_7 : list (ustring * json) :=
  [(u "username", JStr (u "octocat"));
   (u "original", commit_pair (JStr (u "eeeeeeeeee")) (JStr (u "aaaaaaaaaa")));
   (u "updated", commit_pair (JStr (u "dddddddddd")) (JStr (u "bbbbbbbbbb")))].

Definition world_7 : world :=
  fresh_world {[ u "/tmp/git-pull-request-treeish-7" := Encoded (JObj record_7) ]}.

(** A checkout in [/repo] on [pull-request-7], with the directory
    [/work] on disk. *)
Definition work_shell : shell :=
  simple_shell
    (fun _ => 0%Z)
    (fun cmd =>
       if ustring_eqb cmd current_branch_cmd then u "pull-request-7" ++ [10]
       else if ustring_eqb cmd (u "git rev-parse --show-toplevel")
       then u "/repo" ++ [10]
       else if ustring_eqb cmd (u "git symbolic-ref HEAD")
       then u "refs/heads/pull-request-7" ++ [10]
       else if starts_with (u "git config ") cmd then []
       else u "0123456789abcdef" ++ [10])
    (fun path => ustring_eqb path (u "/work"))
    (fun _ _ _ => ConnectionFailed).

(** A fresh process with [work-dir] set to [/work]. *)
Definition work_world : world :=
  {| w_trace := [];
     w_options :=
       {| opt_update_branch := u "master";
          opt_update_method := u "merge";
          opt_work_dir := Some (u "/work");
          opt_close_default_comment := None;
          opt_fetch_auto_checkout := false;
          opt_merge_auto_close := true;
          opt_filter_by_update_branch := true;
          opt_format_submit_body := None |};
     w_DEBUG := false;
     w_DEFAULT_USERNAME := u "octocat";
     w__work_dir := WdNone;
     w_docs := ∅;
     w_blobs := ∅ |}.

(** A merge of [pull-request-42] stopped on conflicts that are still
    there: [git commit] fails, every other command succeeds. *)
Definition conflict_shell : shell :=
  simple_shell (fun cmd => if ustring_eqb cmd (u "git commit") then 1%Z else 0%Z)
               (fun cmd => if ustring_eqb cmd current_branch_cmd
                           then u "pull-request-42" ++ [10]
                           else u "0123456789abcdef" ++ [10])
               (fun _ => false)
               (fun _ _ _ => ConnectionFailed).

(** A repository on [pull-request-42] in which every [git merge] stops
    on conflicts. *)
Definition merge_conflict_shell : shell :=
  simple_shell (fun cmd => if starts_with (u "git merge ") cmd then 1%Z else 0%Z)
               (fun cmd => if ustring_eqb cmd current_branch_cmd
                           then u "pull-request-42" ++ [10]
                           else u "0123456789abcdef" ++ [10])
               (fun _ => false)
               (fun _ _ _ => ConnectionFailed).
(** ** Facts about text *)

Arguments u : simpl never.
Arguments strip : simpl never.
Arguments replace : simpl never.
Arguments str_of_N : simpl never.
Arguments str_of_Z : simpl never.
Arguments py_int : simpl never.
Arguments get_jira_ticket : simpl never.
Arguments get_pull_request_ID : simpl never.

Lemma starts_with_app p s : starts_with p (p ++ s) = true.
Proof.
  induction p as [|c p IH]; simpl; [done|].
  by rewrite N.eqb_refl, IH.
Qed.

Lemma starts_with_spec p s :
  starts_with p s = true <-> exists rest, s = p ++ rest.
Proof.
  split.
  - revert s. induction p as [|c p IH]; intros s H; simpl in *; [by eexists|].
    destruct s as [|x s]; [done|].
    apply andb_prop in H as [Hx Hp]. apply N.eqb_eq in Hx. subst x.
    destruct (IH _ Hp) as [rest ->]. by exists rest.
  - intros [rest ->]. apply starts_with_app.
Qed.

Lemma span_le p s : (span p s <= length s)%nat.
Proof. induction s as [|c s IH]; simpl; [lia|]. destruct (p c); simpl; lia. Qed.

Lemma span_take p s : Forall (fun c => p c = true) (take (span p s) s).
Proof.
  induction s as [|c s IH]; simpl; [constructor|].
  destruct (p c) eqn:E; simpl; [by constructor|constructor].
Qed.

(** A run of [p]-characters at the start of [s] is no longer than the
    maximal run. *)
Lemma span_prefix p t rest :
  Forall (fun c => p c = true) t -> (length t <= span p (t ++ rest))%nat.
Proof.
  induction 1 as [|c t Hc _ IH]; simpl; [lia|]. rewrite Hc. lia.
Qed.

Lemma span_app_stop p t rest :
  Forall (fun c => p c = true) t ->
  match rest with [] => True | c :: _ => p c = false end ->
  span p (t ++ rest) = length t.
Proof.
  intros Ht Hrest. induction Ht as [|c t Hc _ IH]; simpl.
  - destruct rest as [|c rest]; simpl; [done|]. by rewrite Hrest.
  - by rewrite Hc, IH.
Qed.

Lemma span_take_le p s j :
  (j <= span p s)%nat -> Forall (fun c => p c = true) (take j s).
Proof.
  intros Hj. replace (take j s) with (take j (take (span p s) s)).
  - apply Forall_take, span_take.
  - rewrite take_take. f_equal. lia.
Qed.

(** The character that follows the maximal run is not a [p]-character. *)
Lemma span_drop_stop p s :
  match drop (span p s) s with [] => True | c :: _ => p c = false end.
Proof.
  induction s as [|c s IH]; simpl; [done|].
  destruct (p c) eqn:E; simpl; [done|]. exact E.
Qed.

Lemma drop_span_not_nil_head p s c rest :
  drop (span p s) s = c :: rest -> p c = false.
Proof. intros H. pose proof (span_drop_stop p s) as Hs. by rewrite H in Hs. Qed.

(** ** Decimal digits and integers *)

Lemma decimal_value_ascii c :
  48 <= c -> c <= 57 -> decimal_value c = Some (c - 48).
Proof.
  intros H1 H2. unfold decimal_value, nd_blocks. simpl find.
  replace (48 <=? c) with true by (symmetry; by apply N.leb_le).
  replace (c <? 48 + 10) with true by (symmetry; apply N.ltb_lt; lia).
  done.
Qed.

Lemma is_decimal_ascii c : 48 <= c -> c <= 57 -> is_decimal c = true.
Proof. intros H1 H2. unfold is_decimal. by rewrite decimal_value_ascii. Qed.

Lemma is_decimal_hyphen : is_decimal 45 = false.
Proof. reflexivity. Qed.

Lemma is_upper_hyphen : is_upper 45 = false.
Proof. reflexivity. Qed.

Lemma ascii_digits_decimal s :
  ascii_digits s -> Forall (fun c => is_decimal c = true) s.
Proof.
  intros H. eapply Forall_impl; [exact H|].
  intros c [H1 H2]. by apply is_decimal_ascii.
Qed.

Lemma py_int_snoc s c :
  py_int (s ++ [c]) = 10 * py_int s + default 0 (decimal_value c).
Proof. unfold py_int. by rewrite fold_left_app. Qed.

Lemma dec_digits_spec fuel n :
  n < 10 ^ N.of_nat (S fuel) ->
  dec_digits (S fuel) n <> [] /\ ascii_digits (dec_digits (S fuel) n)
  /\ py_int (dec_digits (S fuel) n) = n.
Proof.
  revert n. induction fuel as [|f IH]; intros n Hn.
  - change (10 ^ N.of_nat 1) with 10 in Hn. simpl dec_digits.
    apply N.ltb_lt in Hn as E. rewrite E. apply N.ltb_lt in E.
    split; [done|]. split.
    + constructor; [lia|constructor].
    + unfold py_int. simpl. rewrite decimal_value_ascii by lia. simpl. lia.
  - remember (S f) as g eqn:Hg. simpl dec_digits.
    destruct (n <? 10) eqn:E.
    + apply N.ltb_lt in E. split; [done|]. split.
      * constructor; [lia|constructor].
      * unfold py_int. simpl. rewrite decimal_value_ascii by lia. simpl. lia.
    + apply N.ltb_ge in E.
      assert (Hq : n / 10 < 10 ^ N.of_nat g).
      { apply N.Div0.div_lt_upper_bound.
        rewrite Nat2N.inj_succ, N.pow_succ_r' in Hn. exact Hn. }
      subst g. destruct (IH _ Hq) as (Hne & Hd & Hv).
      assert (Hm : n mod 10 < 10) by (apply N.mod_lt; lia).
      pose proof (N.div_mod n 10 ltac:(lia)) as Hdm.
      set (m := n mod 10) in *. clearbody m.
      split; [by destruct (dec_digits (S f) (n / 10))|]. split.
      * apply Forall_app. split; [done|].
        constructor; [clear -Hm; lia|constructor].
      * rewrite py_int_snoc, Hv, decimal_value_ascii by (clear -Hm; lia). simpl.
        replace (48 + m - 48) with m by (clear; lia). by symmetry.
Qed.

Lemma str_of_N_fuel n : n < 10 ^ N.of_nat (S (N.to_nat (N.log2 n))).
Proof.
  rewrite Nat2N.inj_succ, N2Nat.id.
  destruct (N.eq_dec n 0) as [->|Hn]; [done|].
  destruct (N.log2_spec n) as [_ Hlt]; [lia|].
  eapply N.lt_le_trans; [exact Hlt|].
  apply N.pow_le_mono_l. lia.
Qed.

Lemma str_of_N_spec n :
  str_of_N n <> [] /\ ascii_digits (str_of_N n) /\ py_int (str_of_N n) = n.
Proof. apply dec_digits_spec, str_of_N_fuel. Qed.

Lemma str_of_Z_nonneg z :
  (0 <= z)%Z -> str_of_Z z = str_of_N (Z.to_N z).
Proof. destruct z; simpl; [done|done|lia]. Qed.

(** ** The matcher against the language of a pattern *)

Lemma give_back_some try lo k gs :
  give_back try lo k = Some gs ->
  exists j, (lo <= j <= k)%nat /\ try j = Some gs
            /\ forall i, (j < i <= k)%nat -> try i = None.
Proof.
  induction k as [|k IH]; simpl.
  - destruct (0 <? lo)%nat eqn:E; [done|]. apply Nat.ltb_ge in E.
    destruct (try 0%nat) eqn:T; [|done]. intros [= <-].
    exists 0%nat. split; [lia|]. split; [done|]. intros i Hi. lia.
  - destruct (S k <? lo)%nat eqn:E; [done|]. apply Nat.ltb_ge in E.
    destruct (try (S k)) eqn:T.
    + intros [= <-]. exists (S k). split; [lia|]. split; [done|].
      intros i Hi. lia.
    + intros H. destruct (IH H) as (j & Hj & Hs & Hn).
      exists j. split; [lia|]. split; [done|].
      intros i Hi. destruct (decide (i = S k)) as [->|Hne]; [done|].
      apply Hn. lia.
Qed.

Lemma give_back_none try lo k :
  give_back try lo k = None ->
  forall j, (lo <= j <= k)%nat -> try j = None.
Proof.
  induction k as [|k IH]; simpl.
  - destruct (0 <? lo)%nat eqn:E.
    + apply Nat.ltb_lt in E. intros _ j Hj. lia.
    + destruct (try 0%nat) eqn:T; [done|]. intros _ j Hj.
      by replace j with 0%nat by lia.
  - destruct (S k <? lo)%nat eqn:E.
    + apply Nat.ltb_lt in E. intros _ j Hj. lia.
    + destruct (try (S k)) eqn:T; [done|]. intros H j Hj.
      destruct (decide (j = S k)) as [->|Hne]; [done|]. apply IH; [done|lia].
Qed.

(** The last atom of a pattern takes its whole run. *)
Lemma give_back_last (s : ustring) lo k :
  give_back (fun j => cons (take j s) <$> match_here [] (drop j s)) lo k
  = if (k <? lo)%nat then None else Some [take k s].
Proof. destruct k; simpl; by destruct (_ <? lo)%nat. Qed.

Lemma match_here_rep p lo r s :
  match_here (Rep p lo :: r) s
  = give_back (fun k => cons (take k s) <$> match_here r (drop k s))
              lo (span p s).
Proof. reflexivity. Qed.

Lemma match_here_lit l r s :
  match_here (Lit l :: r) s
  = if starts_with l s then cons l <$> match_here r (drop (length l) s)
    else None.
Proof. reflexivity. Qed.

Lemma match_here_sound r s gs :
  match_here r s = Some gs ->
  Forall2 seg_ok r gs /\ exists rest, s = concat gs ++ rest.
Proof.
  revert s gs. induction r as [|a r IH]; intros s gs; simpl.
  - intros [= <-]. split; [constructor|]. by exists s.
  - destruct a as [l|p lo].
    + destruct (starts_with l s) eqn:E; [|done].
      apply starts_with_spec in E as [rest ->].
      rewrite drop_app_length.
      destruct (match_here r rest) as [gs'|] eqn:M; [|done].
      intros [= <-]. destruct (IH _ _ M) as [HF [rest' ->]].
      split; [by constructor|]. exists rest'. simpl. by rewrite <- app_assoc.
    + intros H. apply give_back_some in H as (j & Hj & Ht & _).
      destruct (match_here r (drop j s)) as [gs'|] eqn:M; [|done].
      injection Ht as <-. destruct (IH _ _ M) as [HF [rest' Hrest]].
      split.
      * constructor; [|done]. split.
        -- apply span_take_le. lia.
        -- pose proof (span_le p s). rewrite length_take. lia.
      * exists rest'. simpl. rewrite <- app_assoc, <- Hrest. by rewrite take_drop.
Qed.

Lemma match_here_complete r s :
  matches_at_start r s -> is_Some (match_here r s).
Proof.
  intros (t & rest & -> & gs & HF & ->). revert gs rest HF.
  induction r as [|a r IH]; intros gs rest HF; simpl; [done|].
  inversion HF as [|a' g r' gs' Hg HF' E1]; subst. simpl concat.
  rewrite <- app_assoc. destruct a as [l|p lo]; simpl in Hg.
  - subst g. rewrite starts_with_app, drop_app_length.
    destruct (IH _ rest HF') as [x ->]. done.
  - destruct Hg as [Hp Hlo].
    destruct (give_back _ lo _) eqn:G; [done|]. exfalso.
    pose proof (span_prefix p g (concat gs' ++ rest) Hp) as Hspan.
    pose proof (give_back_none _ _ _ G (length g) ltac:(lia)) as Hn.
    simpl in Hn. rewrite drop_app_length in Hn.
    destruct (IH _ rest HF') as [x Hx]. by rewrite Hx in Hn.
Qed.

Lemma match_here_none r s :
  match_here r s = None -> ~ matches_at_start r s.
Proof.
  intros Hn Hm. apply match_here_complete in Hm as [x Hx]. congruence.
Qed.

Lemma search_from_some r s gs :
  search_from r s = Some gs ->
  exists pre rest,
    s = pre ++ concat gs ++ rest /\ Forall2 seg_ok r gs
    /\ match_here r (concat gs ++ rest) = Some gs
    /\ forall i, (i < length pre)%nat -> match_here r (drop i s) = None.
Proof.
  induction s as [|c s IH]; simpl.
  - destruct (match_here r []) as [gs'|] eqn:M; [|done]. intros [= <-].
    destruct (match_here_sound _ _ _ M) as [HF [rest Hrest]].
    exists [], rest. simpl. rewrite <- Hrest. repeat split; [done..|].
    intros i Hi. simpl in Hi. lia.
  - destruct (match_here r (c :: s)) as [gs'|] eqn:M.
    + intros [= <-]. destruct (match_here_sound _ _ _ M) as [HF [rest Hrest]].
      exists [], rest. simpl. rewrite <- Hrest. repeat split; [done..|].
      intros i Hi. simpl in Hi. lia.
    + intros H. destruct (IH H) as (pre & rest & -> & HF & Hm & Hleft).
      exists (c :: pre), rest. repeat split; [done..|].
      intros [|i] Hi; [done|]. simpl. apply Hleft. simpl in Hi. lia.
Qed.

Lemma search_from_none r s :
  search_from r s = None -> no_match r s.
Proof.
  induction s as [|c s IH]; simpl.
  - destruct (match_here r []) eqn:M; [done|]. intros _ pre t rest E Hl.
    apply (match_here_none _ _ M). exists t, rest.
    destruct pre; [done|discriminate].
  - destruct (match_here r (c :: s)) eqn:M; [done|]. intros H pre t rest E Hl.
    destruct pre as [|c' pre]; simpl in E.
    + apply (match_here_none _ _ M). by exists t, rest.
    + injection E as -> E. by apply (IH H pre t rest).
Qed.

(** *** The ticket pattern *)

Section Ticket.

Variable digit : N -> bool.

Let ticket : list atom := [Rep is_upper 3; Lit [45]; Rep digit 1].

(** The engine returns the whole run of capitals, the hyphen and the
    whole run of digits. *)
Lemma ticket_match_here s gs :
  match_here ticket s = Some gs ->
  gs = [take (span is_upper s) s; [45];
        take (span digit (drop (S (span is_upper s)) s))
             (drop (S (span is_upper s)) s)].
Proof.
  unfold ticket. rewrite match_here_rep. intros H.
  apply give_back_some in H as (j & Hj & Ht & _).
  rewrite match_here_lit, match_here_rep in Ht.
  destruct (starts_with [45] (drop j s)) eqn:E; [|done].
  apply starts_with_spec in E as [rest E]. simpl in E.
  assert (j = span is_upper s) as ->.
  { destruct (decide (j = span is_upper s)) as [|Hne]; [done|]. exfalso.
    assert (Hlt : (j < span is_upper s)%nat) by lia.
    pose proof (span_take is_upper s) as Hall.
    rewrite <- (take_drop j s) in Hall at 2. rewrite E in Hall.
    rewrite take_app_ge in Hall by (rewrite length_take; lia).
    apply Forall_app in Hall as [_ Hall].
    rewrite length_take in Hall.
    pose proof (span_le is_upper s).
    replace (span is_upper s - j `min` length s)%nat
      with (S (span is_upper s - S j))%nat in Hall by lia.
    simpl in Hall. inversion Hall as [|? ? Hup _]. done. }
  rewrite give_back_last in Ht.
  assert (drop (S (span is_upper s)) s = rest) as ->.
  { change (S (span is_upper s)) with (1 + span is_upper s)%nat.
    rewrite Nat.add_comm, <- drop_drop. by rewrite E. }
  rewrite E in Ht. change (drop (length [45]) (45 :: rest)) with rest in Ht.
  destruct (_ <? 1)%nat; [done|]. by injection Ht as <-.
Qed.

Lemma in_lang_ticket t :
  in_lang ticket t ->
  exists U D, t = U ++ 45 :: D
              /\ Forall (fun c => is_upper c = true) U /\ (3 <= length U)%nat
              /\ Forall (fun c => digit c = true) D /\ (1 <= length D)%nat.
Proof.
  intros (gs & HF & ->).
  inversion HF as [|a1 g1 r1 l1 H1 HF1]; subst.
  inversion HF1 as [|a2 g2 r2 l2 H2 HF2]; subst.
  inversion HF2 as [|a3 g3 r3 l3 H3 HF3]; subst.
  inversion HF3; subst. simpl in H1, H2, H3. subst g2.
  destruct H1 as [Hup Hlu]. destruct H3 as [Hd Hld].
  exists g1, g3. simpl. by rewrite app_nil_r.
Qed.

(** No word of the pattern at the start of [s] is longer than the
    match the engine returns there. *)
Lemma ticket_longest s gs t rest :
  match_here ticket s = Some gs ->
  s = t ++ rest -> in_lang ticket t ->
  (length t <= length (concat gs))%nat.
Proof.
  intros M -> Hl. apply ticket_match_here in M. subst gs.
  destruct (in_lang_ticket _ Hl) as (g1 & g3 & -> & Hup & _ & Hd & _).
  simpl concat. rewrite app_nil_r, <- !app_assoc. simpl app.
  assert (Hs : span is_upper (g1 ++ 45 :: g3 ++ rest) = length g1).
  { apply span_app_stop; [done|]. reflexivity. }
  rewrite Hs, take_app_length.
  replace (S (length g1)) with (length (g1 ++ [45]))
    by (rewrite length_app; simpl; lia).
  replace (g1 ++ 45 :: g3 ++ rest) with ((g1 ++ [45]) ++ g3 ++ rest)
    by (by rewrite <- app_assoc).
  rewrite drop_app_length.
  pose proof (span_prefix digit g3 rest Hd) as Hspan.
  pose proof (span_le digit (g3 ++ rest)) as Hle.
  rewrite !length_app. simpl. rewrite length_take. lia.
Qed.

Lemma ticket_search_first s gs :
  search_from ticket s = Some gs -> first_match ticket s (concat gs).
Proof.
  intros H. destruct (search_from_some _ _ _ H) as (pre & rest & -> & HF & M & Hleft).
  exists pre, rest. split; [done|]. split; [by exists gs|]. split.
  - intros pre' t' rest' E Hl.
    destruct (decide (length pre <= length pre')%nat) as [|Hlt]; [done|].
    exfalso. assert (Hn := Hleft (length pre') ltac:(lia)).
    apply (match_here_none _ _ Hn). exists t', rest'.
    by rewrite E, drop_app_length.
  - intros t' rest' E Hl. by eapply ticket_longest.
Qed.

End Ticket.

Lemma first_match_unique r s t t' :
  first_match r s t -> first_match r s t' -> t = t'.
Proof.
  intros (pre & rest & E & Hl & Hleft & Hlong)
         (pre' & rest' & E' & Hl' & Hleft' & Hlong').
  assert (Hp : length pre = length pre').
  { apply Nat.le_antisymm; [by eapply Hleft|by eapply Hleft']. }
  rewrite E in E'. apply app_inj_1 in E' as [_ E']; [|done].
  assert (Ht : length t = length t').
  { apply Nat.le_antisymm; [by eapply Hlong'|by eapply Hlong]. }
  by apply app_inj_1 in E' as [? _].
Qed.

Lemma is_nil_false {A} (l : list A) : l <> [] -> is_nil l = false.
Proof. by destruct l. Qed.

Lemma first_match_not_no_match r s t : first_match r s t -> ~ no_match r s.
Proof. intros (pre & rest & E & Hl & _) Hn. by apply (Hn pre t rest). Qed.

(** [get_jira_ticket] returns the first match, or the empty text when
    there is none. *)
Lemma get_jira_ticket_spec text :
  (get_jira_ticket text = [] /\ no_match (atoms ticket_re) text)
  \/ (get_jira_ticket text <> []
      /\ first_match (atoms ticket_re) text (get_jira_ticket text)).
Proof.
  unfold get_jira_ticket, re_search. simpl anchored. cbv iota.
  destruct (search_from (atoms ticket_re) text) as [gs|] eqn:S.
  - right. pose proof (ticket_search_first is_decimal _ _ S) as Hfirst.
    unfold group0. destruct (concat gs) as [|c t] eqn:C; simpl.
    + exfalso. destruct Hfirst as (_ & _ & _ & Hl & _).
      destruct (in_lang_ticket _ _ Hl) as (U & D & E & _).
      by destruct U.
    + split; [done|]. exact Hfirst.
  - left. split; [done|]. by apply search_from_none.
Qed.

(** *** The branch pattern *)

Lemma branch_match_here s :
  match_here (atoms branch_re) s =
  if starts_with (u "pull-request-") s
  then if (span is_decimal (drop 13 s) <? 1)%nat then None
       else Some [u "pull-request-";
                  take (span is_decimal (drop 13 s)) (drop 13 s)]
  else None.
Proof.
  unfold branch_re. simpl atoms. rewrite match_here_lit.
  destruct (starts_with _ s); [|done].
  rewrite match_here_rep, give_back_last.
  change (length (u "pull-request-")) with 13%nat.
  by destruct (_ <? 1)%nat.
Qed.

(** The number of a branch is read from the digits that follow the
    prefix, whatever comes after them. *)
Lemma get_pull_request_ID_digits ds rest :
  ds <> [] -> Forall (fun c => is_decimal c = true) ds -> stops_digits rest ->
  get_pull_request_ID (u "pull-request-" ++ ds ++ rest)
  = Some (Z.of_N (py_int ds)).
Proof.
  intros Hne Hd Hstop. unfold get_pull_request_ID, re_search. simpl anchored.
  cbv iota. rewrite branch_match_here, starts_with_app.
  change 13%nat with (length (u "pull-request-")). rewrite drop_app_length.
  rewrite (span_app_stop _ _ _ Hd Hstop), take_app_length.
  destruct ds as [|d ds]; [done|]. reflexivity.
Qed.

Lemma get_pull_request_ID_spec name :
  (matches_at_start (atoms branch_re) name ->
   exists ds rest,
     name = u "pull-request-" ++ ds ++ rest /\ ds <> []
     /\ Forall (fun c => is_decimal c = true) ds /\ stops_digits rest
     /\ get_pull_request_ID name = Some (Z.of_N (py_int ds)))
  /\ (~ matches_at_start (atoms branch_re) name ->
      get_pull_request_ID name = None).
Proof.
  split.
  - intros Hm. apply match_here_complete in Hm as [gs Hgs].
    rewrite branch_match_here in Hgs.
    destruct (starts_with _ name) eqn:E; [|done].
    apply starts_with_spec in E as [s2 ->].
    change 13%nat with (length (u "pull-request-")) in Hgs.
    rewrite drop_app_length in Hgs.
    destruct (span is_decimal s2 <? 1)%nat eqn:L; [done|].
    apply Nat.ltb_ge in L. clear Hgs.
    exists (take (span is_decimal s2) s2), (drop (span is_decimal s2) s2).
    assert (Hne : take (span is_decimal s2) s2 <> []).
    { intros Hnil. apply (f_equal length) in Hnil.
      rewrite length_take in Hnil. pose proof (span_le is_decimal s2).
      simpl in Hnil. lia. }
    pose proof (span_take is_decimal s2) as Hd.
    pose proof (span_drop_stop is_decimal s2) as Hstop.
    rewrite take_drop. split; [done|]. split; [done|]. split; [done|].
    split; [exact Hstop|].
    rewrite <- (take_drop (span is_decimal s2) s2) at 1.
    by apply get_pull_request_ID_digits.
  - intros Hn. unfold get_pull_request_ID, re_search. simpl anchored. cbv iota.
    destruct (match_here (atoms branch_re) name) as [gs|] eqn:M; [|done].
    exfalso. apply Hn. destruct (match_here_sound _ _ _ M) as [HF [rest ->]].
    exists (concat gs), rest. split; [done|]. by exists gs.
Qed.

(** *** The branch of a pull request *)

Section BranchName.

Variable sh : shell.

(** What [build_branch_name] computes for a pull request whose number,
    head ref and title are an integer and two strings. *)
Lemma build_branch_name_eq pr head n ref title :
  py_getitem pr (u "number") = Ok (JInt n) ->
  py_getitem pr (u "head") = Ok head ->
  py_getitem head (u "ref") = Ok (JStr ref) ->
  py_getitem pr (u "title") = Ok (JStr title) ->
  build_branch_name sh pr =
  Ok (u "pull-request-" ++ str_of_Z n ++
      (if negb (is_nil (get_jira_ticket ref)) then 45 :: get_jira_ticket ref
       else if negb (is_nil (get_jira_ticket title))
            then 45 :: get_jira_ticket title
            else [])).
Proof.
  intros Hn Hh Hr Ht. unfold build_branch_name.
  rewrite Hh. cbn [rbind]. rewrite Hr. cbn [rbind]. rewrite Hn.
  cbn [rbind expect_str py_str].
  destruct (is_nil (get_jira_ticket ref)) eqn:E1; cbn [negb rbind].
  - rewrite Ht. cbn [rbind expect_str].
    destruct (is_nil (get_jira_ticket title)) eqn:E2; cbn [negb].
    + by rewrite app_nil_r.
    + by rewrite <- app_assoc.
  - rewrite E1. cbn [negb]. by rewrite <- app_assoc.
Qed.

(** C2. For every positive pull-request ID [n] and any head ref and
    title, the branch name built for the pull request is
    [pull-request-<n>], alone or followed by a hyphen and a ticket, and
    the ID recovered from that branch name is [n]: the digits right after
    the prefix, the suffix being ignored. *)
Theorem branch_name_id_round_trip pr head (n : Z) ref title :
  (0 < n)%Z ->
  py_getitem pr (u "number") = Ok (JInt n) ->
  py_getitem pr (u "head") = Ok head ->
  py_getitem head (u "ref") = Ok (JStr ref) ->
  py_getitem pr (u "title") = Ok (JStr title) ->
  exists suffix,
    build_branch_name sh pr = Ok (u "pull-request-" ++ str_of_Z n ++ suffix)
    /\ (suffix = [] \/ exists ticket, suffix = 45 :: ticket)
    /\ get_pull_request_ID (u "pull-request-" ++ str_of_Z n ++ suffix) = Some n.
Proof.
  intros Hpos Hn Hh Hr Ht.
  rewrite (build_branch_name_eq _ _ _ _ _ Hn Hh Hr Ht).
  eexists. split; [reflexivity|].
  rewrite str_of_Z_nonneg by lia.
  destruct (str_of_N_spec (Z.to_N n)) as (Hne & Hd & Hv).
  assert (Hid : forall suffix, stops_digits suffix ->
    get_pull_request_ID (u "pull-request-" ++ str_of_N (Z.to_N n) ++ suffix)
    = Some n).
  { intros suffix Hs.
    rewrite get_pull_request_ID_digits;
      [|done|by apply ascii_digits_decimal|done].
    rewrite Hv. f_equal. lia. }
  destruct (negb (is_nil (get_jira_ticket ref))).
  - split; [right; by eexists|]. by apply Hid.
  - destruct (negb (is_nil (get_jira_ticket title))).
    + split; [right; by eexists|]. by apply Hid.
    + split; [by left|]. by apply Hid.
Qed.

End BranchName.

Section BranchTicket.

Variable sh : shell.

(** C9 (as amended). Branch naming appends at most one ticket token.
    The head ref is scanned for the first match of [[A-Z]{3,}-\d+],
    where [\d] is any Unicode decimal digit (capitals are the ASCII ones
    only); the title is scanned only if the head ref has no match; when
    neither has one the name is [pull-request-<id>] with no suffix.  No
    error is raised in any of the three cases. *)
Theorem build_branch_name_ticket pr head (n : Z) ref title :
  py_getitem pr (u "number") = Ok (JInt n) ->
  py_getitem pr (u "head") = Ok head ->
  py_getitem head (u "ref") = Ok (JStr ref) ->
  py_getitem pr (u "title") = Ok (JStr title) ->
  let base := u "pull-request-" ++ str_of_Z n in
  (forall t, first_match (atoms ticket_re) ref t ->
             build_branch_name sh pr = Ok (base ++ 45 :: t))
  /\ (no_match (atoms ticket_re) ref ->
      forall t, first_match (atoms ticket_re) title t ->
                build_branch_name sh pr = Ok (base ++ 45 :: t))
  /\ (no_match (atoms ticket_re) ref -> no_match (atoms ticket_re) title ->
      build_branch_name sh pr = Ok base)
  /\ (exists branch_name, build_branch_name sh pr = Ok branch_name).
Proof.
  intros Hn Hh Hr Ht base.
  rewrite (build_branch_name_eq sh _ _ _ _ _ Hn Hh Hr Ht). fold base.
  split; [|split; [|split]].
  - intros t Hf.
    destruct (get_jira_ticket_spec ref) as [[_ Hno]|[Er Hr1]].
    + exfalso. by eapply first_match_not_no_match.
    + rewrite (first_match_unique _ _ _ _ Hf Hr1).
      by rewrite (is_nil_false _ Er).
  - intros Hno t Hf.
    destruct (get_jira_ticket_spec ref) as [[Er _]|[_ Hr1]];
      [|exfalso; by eapply first_match_not_no_match].
    rewrite Er. cbn [is_nil negb].
    destruct (get_jira_ticket_spec title) as [[_ Hno']|[Et Ht1]].
    + exfalso. by eapply first_match_not_no_match.
    + rewrite (first_match_unique _ _ _ _ Hf Ht1).
      by rewrite (is_nil_false _ Et).
  - intros Hno Hno'.
    destruct (get_jira_ticket_spec ref) as [[Er _]|[_ Hr1]];
      [|exfalso; by eapply first_match_not_no_match].
    destruct (get_jira_ticket_spec title) as [[Et _]|[_ Ht1]];
      [|exfalso; by eapply first_match_not_no_match].
    rewrite Er, Et. cbn [is_nil negb]. by rewrite app_nil_r.
  - by eexists.
Qed.

End BranchTicket.

(** C9, witness: pull request 42 from [JIRA-99-fix]. *)
Lemma build_branch_name_ticket_witness :
  build_branch_name quiet_shell (pull_request_of 42 (u "JIRA-99-fix") [])
  = Ok (u "pull-request-42-JIRA-99").
Proof.
  pose proof (build_branch_name_ticket quiet_shell
    (pull_request_of 42 (u "JIRA-99-fix") [])
    (JObj [(u "ref", JStr (u "JIRA-99-fix"));
           (u "sha", JStr (u "0123456789abcdef0123"))])
    42 (u "JIRA-99-fix") []
    eq_refl eq_refl eq_refl eq_refl) as (_ & _ & _ & b & Hb).
  rewrite Hb. vm_compute in Hb. injection Hb as <-. reflexivity.
Defined.

(** C9, counterexample to the claim as written, with [[0-9]+]: neither
    the head ref [ABC-٣] nor the empty title has a match of
    [[A-Z]{3,}-[0-9]+], and yet the branch gets the suffix [-ABC-٣]. *)
Lemma build_branch_name_ascii_counterexample :
  no_match (atoms ticket_re_ascii) arabic_ticket
  /\ no_match (atoms ticket_re_ascii) []
  /\ build_branch_name quiet_shell (pull_request_of 7 arabic_ticket [])
     = Ok (u "pull-request-7-" ++ arabic_ticket)
  /\ build_branch_name quiet_shell (pull_request_of 7 arabic_ticket [])
     <> Ok (u "pull-request-7").
Proof.
  split; [by apply search_from_none; vm_compute|].
  split; [by apply search_from_none; vm_compute|].
  split; [by vm_compute|]. by vm_compute.
Qed.

(** ** Dictionaries and paths *)

Lemma ustring_eqb_eq a b : ustring_eqb a b = true <-> a = b.
Proof. unfold ustring_eqb. apply bool_decide_eq_true. Qed.

Lemma ustring_eqb_refl a : ustring_eqb a a = true.
Proof. by apply ustring_eqb_eq. Qed.

Lemma ustring_eqb_ne a b : a <> b -> ustring_eqb a b = false.
Proof. unfold ustring_eqb. apply bool_decide_eq_false. Qed.

Lemma dict_get_set_eq k v d : dict_get k (dict_set k v d) = Some v.
Proof.
  induction d as [|[k' v'] d IH]; cbn [dict_set dict_get].
  - by rewrite ustring_eqb_refl.
  - destruct (ustring_eqb k' k) eqn:E; cbn [dict_get]; by rewrite E.
Qed.

Lemma dict_get_set_ne k k' v d :
  k' <> k -> dict_get k' (dict_set k v d) = dict_get k' d.
Proof.
  intros Hne. induction d as [|[k0 v0] d IH]; cbn [dict_set dict_get].
  - rewrite ustring_eqb_ne; [done|congruence].
  - destruct (ustring_eqb k0 k) eqn:E; cbn [dict_get]; [|by rewrite IH].
    apply ustring_eqb_eq in E. subst k0.
    by rewrite (ustring_eqb_ne k k') by congruence.
Qed.

Lemma split_on_no_sep sep s : sep ∉ s -> split_on sep s = [s].
Proof.
  induction s as [|c s IH]; intros Hs; cbn [split_on]; [done|].
  apply not_elem_of_cons in Hs as [Hc Hs].
  rewrite (proj2 (N.eqb_neq c sep)) by congruence. by rewrite IH.
Qed.

Lemma pop_last_single (k : ustring) : pop_last [k] = ([], k).
Proof. reflexivity. Qed.

(** ** Running the metadata accessor *)

Section Meta.

Variable sh : shell.

Lemma get_current_branch_name_run ensure w :
  get_current_branch_name sh ensure w =
  let w' := asked_branch w in
  let branch_name := current_branch sh (w_trace w) in
  if ensure && negb (ustring_eqb (take 13 branch_name) (u "pull-request-"))
  then (Raise (UserWarning (u "Invalid branch: not a pull request")), w')
  else (Ok branch_name, w').
Proof.
  unfold get_current_branch_name, bind, os_popen. cbn zeta.
  fold current_branch_cmd. fold (current_branch sh (w_trace w)).
  by destruct (ensure && _).
Qed.

Lemma log_one_run arg w : log [arg] w = (Ok tt, logged arg w).
Proof.
  unfold log, bind, emit, print_, ret, logged. cbn.
  by rewrite <- app_assoc.
Qed.

(** [meta] on a branch that is no pull-request branch does nothing. *)
Lemma meta_no_ID_run key value w :
  get_pull_request_ID (current_branch sh (w_trace w)) = None ->
  meta sh key value w = (Ok JNull, asked_branch w).
Proof.
  intros Hid. unfold meta, bind at 1.
  rewrite get_current_branch_name_run. cbn [andb]. cbn zeta. by rewrite Hid.
Qed.

(** [meta] on a record file that is missing or does not decode. *)
Lemma meta_absent_run key value w id :
  get_pull_request_ID (current_branch sh (w_trace w)) = Some id ->
  (w_docs w !! treeish_path sh (JInt id) = None
   \/ exists s, w_docs w !! treeish_path sh (JInt id) = Some (NotJson s)) ->
  meta sh key value w =
  (Ok JNull, logged (could_not_update sh key value) (asked_branch w)).
Proof.
  intros Hid Hdoc. unfold meta, bind at 1.
  rewrite get_current_branch_name_run. cbn [andb]. cbn zeta. rewrite Hid.
  unfold bind at 1. unfold try_except, bind at 1, load_doc.
  cbn [w_docs with_trace asked_branch].
  destruct Hdoc as [->|[s ->]]; cbn [ret]; unfold bind; rewrite log_one_run;
    reflexivity.
Qed.

(** A write through a one-piece key, in every case. *)
Lemma meta_write_cases key value w :
  46 ∉ key -> value <> JNull ->
  meta sh (Some key) value w =
  match get_pull_request_ID (current_branch sh (w_trace w)) with
  | None => (Ok JNull, asked_branch w)
  | Some id =>
      match w_docs w !! treeish_path sh (JInt id) with
      | Some (Encoded (JObj d)) =>
          (Ok value,
           with_docs (<[treeish_path sh (JInt id)
                        := Encoded (JObj (dict_set key value d))]> (w_docs w))
                     (asked_branch w))
      | _ => (Ok JNull,
              logged (could_not_update sh (Some key) value) (asked_branch w))
      end
  end.
Proof.
  intros Hkey Hval.
  destruct (get_pull_request_ID _) as [pid|] eqn:Hid;
    [|by apply meta_no_ID_run].
  destruct (w_docs w !! _) as [[s|v]|] eqn:Hdoc;
    [eapply meta_absent_run; eauto| |eapply meta_absent_run; eauto].
  unfold meta, bind at 1.
  rewrite get_current_branch_name_run. cbn [andb]. cbn zeta. rewrite Hid.
  unfold bind at 1. unfold try_except at 1, bind at 1, load_doc.
  cbn [w_docs with_trace asked_branch]. rewrite Hdoc. cbn [ret].
  rewrite (split_on_no_sep _ _ Hkey), pop_last_single.
  cbn [fst snd]. unfold try_except, bind. cbn [get_path lift ret].
  destruct value; try done;
    destruct v; cbn [set_path lift ret raise default from_option id];
    try (rewrite log_one_run; reflexivity); reflexivity.
Qed.

(** A write through a one-piece key into a record that is a JSON
    object. *)
Lemma meta_write_run key value w id d :
  46 ∉ key -> value <> JNull ->
  get_pull_request_ID (current_branch sh (w_trace w)) = Some id ->
  w_docs w !! treeish_path sh (JInt id) = Some (Encoded (JObj d)) ->
  meta sh (Some key) value w =
  (Ok value,
   with_docs (<[treeish_path sh (JInt id) := Encoded (JObj (dict_set key value d))]>
                (w_docs w))
             (asked_branch w)).
Proof.
  intros Hkey Hval Hid Hdoc.
  by rewrite (meta_write_cases _ _ _ Hkey Hval), Hid, Hdoc.
Qed.

End Meta.

Section MetaFrame.

Variable sh : shell.

Lemma same_but_refl key docs : same_but key docs docs.
Proof. by intros path k' _. Qed.

Lemma same_but_insert key value docs path d :
  docs !! path = Some (Encoded (JObj d)) ->
  same_but key docs (<[path := Encoded (JObj (dict_set key value d))]> docs).
Proof.
  intros Hdoc path' k' Hne. destruct (decide (path = path')) as [<-|Hp].
  - rewrite lookup_insert_eq, Hdoc. cbn [record_field].
    by apply dict_get_set_ne.
  - by rewrite lookup_insert_ne.
Qed.

(** What a write through a one-piece key does to the files. *)
Lemma meta_write_docs key value w :
  46 ∉ key -> value <> JNull ->
  (exists v, (meta sh (Some key) value w).1 = Ok v)
  /\ (w_docs (meta sh (Some key) value w).2 = w_docs w
      \/ exists pid d,
           let path := treeish_path sh (JInt pid) in
           get_pull_request_ID (current_branch sh (w_trace w)) = Some pid
           /\ w_docs w !! path = Some (Encoded (JObj d))
           /\ w_docs (meta sh (Some key) value w).2
              = <[path := Encoded (JObj (dict_set key value d))]> (w_docs w)).
Proof.
  intros Hkey Hval. rewrite (meta_write_cases sh _ _ _ Hkey Hval).
  destruct (get_pull_request_ID _) as [pid|] eqn:Hid;
    [|split; [by eexists|by left]].
  destruct (w_docs w !! _) as [[s|v]|] eqn:Hdoc;
    [split; [by eexists|by left]| |split; [by eexists|by left]].
  destruct v; try (split; [by eexists|by left]).
  split; [by eexists|]. right. by exists pid, d.
Qed.

Lemma meta_write_same_but key value w :
  46 ∉ key -> value <> JNull ->
  same_but key (w_docs w) (w_docs (meta sh (Some key) value w).2).
Proof.
  intros Hkey Hval.
  destruct (meta_write_docs _ _ w Hkey Hval) as [_ [->|(pid & d & _ & Hdoc & ->)]].
  - apply same_but_refl.
  - by apply same_but_insert.
Qed.

Lemma updated_no_dot : 46 ∉ u "updated".
Proof. by vm_compute; intros H; repeat (apply elem_of_cons in H as [H|H]; [done|]); inversion H. Qed.

Lemma new_pr_url_no_dot : 46 ∉ u "new_pr_url".
Proof. by vm_compute; intros H; repeat (apply elem_of_cons in H as [H|H]; [done|]); inversion H. Qed.

(** [update_meta], step by step. *)
Lemma update_meta_run w :
  update_meta sh w =
  let branch_name := current_branch sh (w_trace w) in
  let w1 := asked_branch w in
  if negb (ustring_eqb (take 13 branch_name) (u "pull-request-"))
  then (Raise (UserWarning (u "Invalid branch: not a pull request")), w1)
  else
    let cmd := u "git merge-base " ++ opt_update_branch (w_options w)
               ++ u " " ++ branch_name in
    let parent_commit := take 10 (strip (sh_popen sh (w_trace w1) cmd)) in
    let w2 := with_trace (w_trace w1 ++ [EvPopen cmd]) w1 in
    let head_commit :=
      take 10 (strip (sh_popen sh (w_trace w2) (u "git rev-parse HEAD"))) in
    let w3 := with_trace (w_trace w2 ++ [EvPopen (u "git rev-parse HEAD")]) w2 in
    let w4 := (meta sh (Some (u "updated"))
                    (commit_pair (JStr parent_commit) (JStr head_commit)) w3).2 in
    let branch_treeish :=
      if ustring_eqb parent_commit head_commit then head_commit
      else parent_commit ++ u ".." ++ head_commit in
    (Ok branch_treeish,
     with_trace (w_trace w4 ++ [EvPrintColor (u "Original commits: " ++ branch_treeish)
                                             (u "status")]) w4).
Proof.
  unfold update_meta, bind at 1. rewrite get_current_branch_name_run.
  cbn [andb]. cbn zeta.
  destruct (negb _); [done|].
  unfold bind at 1. unfold get_options at 1.
  unfold bind at 1. unfold os_popen at 1.
  unfold bind at 1. unfold os_popen at 1.
  unfold bind at 1. fold (commit_pair
    (JStr (take 10 (strip (sh_popen sh (w_trace (asked_branch w))
       (u "git merge-base " ++ opt_update_branch (w_options (asked_branch w))
        ++ u " " ++ current_branch sh (w_trace w))))))
    (JStr (take 10 (strip (sh_popen sh
       (w_trace (with_trace (w_trace (asked_branch w) ++
          [EvPopen (u "git merge-base " ++ opt_update_branch (w_options (asked_branch w))
        ++ u " " ++ current_branch sh (w_trace w))]) (asked_branch w)))
       (u "git rev-parse HEAD")))))).
  cbn [w_options asked_branch with_trace w_trace].
  match goal with |- context [meta sh ?k ?v ?w0] =>
    destruct (meta_write_docs (u "updated") v w0 updated_no_dot ltac:(done))
      as [[r Hr] _];
    destruct (meta sh k v w0) as [r0 w4] eqn:Hm end.
  cbn [fst snd] in *. subst r0.
  unfold bind, print_color, emit, ret. reflexivity.
Qed.

End MetaFrame.

(** C10. Every write through [meta] with a one-piece key and a value
    either leaves the record files alone or rewrites the one file of the
    current branch as a whole, with the addressed key set and every
    other field as it was; it never raises.  So [username] and
    [original] outlive every update cycle ([update_meta] writes
    [updated]) and every URL annotation ([new_pr_url]). *)
Theorem meta_write_preserves_other_fields sh key value w :
  46 ∉ key -> value <> JNull ->
  let w' := (meta sh (Some key) value w).2 in
  (exists v, (meta sh (Some key) value w).1 = Ok v)
  /\ (forall path,
        w_docs w' !! path = w_docs w !! path
        \/ exists d, w_docs w !! path = Some (Encoded (JObj d))
                     /\ w_docs w' !! path
                        = Some (Encoded (JObj (dict_set key value d))))
  /\ same_but key (w_docs w) (w_docs w')
  /\ (forall w0, same_but (u "updated") (w_docs w0)
                          (w_docs (update_meta sh w0).2))
  /\ (forall w0 url, url <> JNull ->
        same_but (u "new_pr_url") (w_docs w0)
                 (w_docs (meta sh (Some (u "new_pr_url")) url w0).2)).
Proof.
  intros Hkey Hval w'. subst w'.
  destruct (meta_write_docs sh _ _ w Hkey Hval) as [Hok Hdocs].
  split; [done|]. split; [|split; [|split]].
  - intros path. destruct Hdocs as [->|(pid & d & _ & Hdoc & ->)]; [by left|].
    destruct (decide (treeish_path sh (JInt pid) = path)) as [<-|Hp].
    + right. exists d. by rewrite lookup_insert_eq.
    + left. by rewrite lookup_insert_ne.
  - by apply meta_write_same_but.
  - intros w0. rewrite update_meta_run. cbn zeta.
    destruct (negb _); [apply same_but_refl|]. cbn [snd w_docs with_trace].
    match goal with |- context [meta sh ?k ?v ?w1] =>
      pose proof (meta_write_same_but sh (u "updated") v w1 updated_no_dot
                    ltac:(done)) as Hs end.
    exact Hs.
  - intros w0 url Hurl. by apply meta_write_same_but; [apply new_pr_url_no_dot|].
Qed.

(** C10, witness: an update of request 42 keeps the author of the
    record. *)
Lemma meta_write_preserves_other_fields_witness :
  let sh := shell_on_branch (u "pull-request-42") in
  let value := commit_pair (JStr (u "0123456789")) (JStr (u "0123456789")) in
  (46 ∉ u "updated") /\ value <> JNull
  /\ record_field (w_docs (meta sh (Some (u "updated")) value world_42).2
                   !! u "/tmp/git-pull-request-treeish-42") (u "username")
     = Some (JStr (u "octocat")).
Proof.
  intros sh value. split; [apply updated_no_dot|]. split; [done|].
  destruct (meta_write_preserves_other_fields sh (u "updated") value world_42
              updated_no_dot ltac:(done)) as (_ & _ & Hsame & _).
  rewrite (Hsame (u "/tmp/git-pull-request-treeish-42") (u "username"))
    by (by vm_compute).
  by vm_compute.
Defined.

(** ** What computations do to the record files *)

Lemma bind_ok_inv {A B} (m : M A) (f : A -> M B) w b w' :
  bind m f w = (Ok b, w') ->
  exists a w1, m w = (Ok a, w1) /\ f a w1 = (Ok b, w').
Proof.
  unfold bind. destruct (m w) as [[a|e] w1]; [|done]. intros H. by exists a, w1.
Qed.

Lemma lift_ok_inv {A} (r : result A) w a w' :
  lift r w = (Ok a, w') -> r = Ok a /\ w' = w.
Proof. destruct r; cbn; intros [= <- <-]; done. Qed.

Section DocsRel.

Variable sh : shell.
Variable R : relation (gmap ustring payload).
Context `{!Reflexive R, !Transitive R}.

Lemma docs_rel_ret {A} (a : A) : docs_rel R (ret a).
Proof. by intros w. Qed.

Lemma docs_rel_raise {A} e : docs_rel R (@raise A e).
Proof. by intros w. Qed.

Lemma docs_rel_bind {A B} (m : M A) (f : A -> M B) :
  docs_rel R m -> (forall a, docs_rel R (f a)) -> docs_rel R (bind m f).
Proof.
  intros Hm Hf w. unfold bind. specialize (Hm w).
  destruct (m w) as [[a|e] w1]; cbn [snd] in *; [|done].
  etrans; [exact Hm|apply Hf].
Qed.

Lemma docs_rel_try_except {A} (m : M A) h :
  docs_rel R m -> (forall e, docs_rel R (h e)) -> docs_rel R (try_except m h).
Proof.
  intros Hm Hh w. unfold try_except. specialize (Hm w).
  destruct (m w) as [[a|e] w1]; cbn [snd] in *; [done|].
  etrans; [exact Hm|apply Hh].
Qed.

Lemma docs_rel_lift {A} (r : result A) : docs_rel R (lift r).
Proof. destruct r; [apply docs_rel_ret|apply docs_rel_raise]. Qed.

Lemma docs_rel_emit e : docs_rel R (emit e).
Proof. by intros w. Qed.

Lemma docs_rel_os_system cmd : docs_rel R (os_system sh cmd).
Proof. by intros w. Qed.

Lemma docs_rel_os_popen cmd : docs_rel R (os_popen sh cmd).
Proof. by intros w. Qed.

Lemma docs_rel_exists path : docs_rel R (os_path_exists sh path).
Proof. by intros w. Qed.

Lemma docs_rel_islink path : docs_rel R (os_path_islink sh path).
Proof. by intros w. Qed.

Lemma docs_rel_get_world : docs_rel R get_world.
Proof. by intros w. Qed.

Lemma docs_rel_get_options : docs_rel R get_options.
Proof. by intros w. Qed.

Lemma docs_rel_load_doc path : docs_rel R (load_doc path).
Proof. intros w. unfold load_doc. by destruct (w_docs w !! path) as [[]|]. Qed.

Lemma docs_rel_write_wb path data : docs_rel R (write_wb path data).
Proof. intros w. unfold write_wb. by destruct data. Qed.

Lemma docs_rel_read_rb path : docs_rel R (read_rb path).
Proof. intros w. unfold read_rb. by destruct (w_blobs w !! path). Qed.

Lemma docs_rel_set_work_dir d :
  docs_rel R (fun w => (Ok d, with__work_dir d w) : result work_dir_val * world).
Proof. by intros w. Qed.

End DocsRel.

Create HintDb docs discriminated.

#[export] Hint Resolve docs_rel_ret docs_rel_raise docs_rel_lift docs_rel_emit
  docs_rel_os_system docs_rel_os_popen docs_rel_exists docs_rel_islink
  docs_rel_get_world docs_rel_get_options docs_rel_load_doc docs_rel_write_wb
  docs_rel_read_rb docs_rel_set_work_dir : docs.

(** Walk through a computation: binds and handlers are split, branches
    are taken apart, the leaves are looked up in the hint base. *)
Ltac docs_walk :=
  repeat first
    [ solve [eauto with docs typeclass_instances]
    | apply docs_rel_bind; [typeclasses eauto| |intros ?]
    | apply docs_rel_try_except; [typeclasses eauto| |intros ?]
    | progress (unfold when, print_, print_color)
    | match goal with
      | |- docs_rel _ (if ?b then _ else _) => destruct b
      | |- docs_rel _ (match ?x with _ => _ end) => destruct x
      | |- docs_rel _ (let _ := _ in _) => cbn zeta
      end ].

Section DocsKept.

Variable sh : shell.
Variable R : relation (gmap ustring payload).
Context `{!Reflexive R, !Transitive R}.

Lemma docs_rel_log args : docs_rel R (log args).
Proof. induction args; cbn [log]; docs_walk. Qed.

Lemma docs_rel_os_chdir dir : docs_rel R (os_chdir sh dir).
Proof. unfold os_chdir. docs_walk. Qed.

Lemma docs_rel_chdir dir : docs_rel R (chdir sh dir).
Proof. unfold chdir. docs_walk. Qed.

Lemma docs_rel_get_current_branch_name ensure :
  docs_rel R (get_current_branch_name sh ensure).
Proof. unfold get_current_branch_name. docs_walk. Qed.

Lemma docs_rel_display_status : docs_rel R (display_status sh).
Proof.
  unfold display_status.
  pose proof docs_rel_get_current_branch_name. docs_walk.
Qed.

Lemma docs_rel_github_request url params : docs_rel R (github_request sh url params).
Proof. unfold github_request. docs_walk. Qed.

Lemma docs_rel_github_json_request url params :
  docs_rel R (github_json_request sh url params).
Proof.
  unfold github_json_request. pose proof docs_rel_github_request. docs_walk.
Qed.

Lemma docs_rel_get_pull_request repo pid : docs_rel R (get_pull_request sh repo pid).
Proof. unfold get_pull_request. apply docs_rel_github_json_request. Qed.


Lemma docs_rel_post_comment repo pid c : docs_rel R (post_comment sh repo pid c).
Proof.
  unfold post_comment. pose proof docs_rel_github_json_request. docs_walk.
Qed.

Lemma docs_rel_display_pull_request_minimal pr :
  docs_rel R (display_pull_request_minimal pr).
Proof. unfold display_pull_request_minimal. docs_walk. Qed.

Lemma docs_rel_display_pull_request pr : docs_rel R (display_pull_request pr).
Proof.
  unfold display_pull_request.
  pose proof docs_rel_display_pull_request_minimal. docs_walk.
Qed.

Lemma docs_rel_get_git_base_path : docs_rel R (get_git_base_path sh).
Proof. unfold get_git_base_path. docs_walk. Qed.

Lemma docs_rel_get_work_dir : docs_rel R (get_work_dir sh).
Proof. unfold get_work_dir. docs_walk. Qed.

Lemma docs_rel_in_work_dir : docs_rel R (in_work_dir sh).
Proof.
  unfold in_work_dir.
  pose proof docs_rel_get_git_base_path. pose proof docs_rel_get_work_dir.
  docs_walk.
Qed.

Lemma docs_rel_get_original_dir_path : docs_rel R (get_original_dir_path sh).
Proof.
  unfold get_original_dir_path.
  pose proof docs_rel_get_git_base_path. pose proof docs_rel_get_work_dir.
  docs_walk.
Qed.

Lemma docs_rel_open_URL url : docs_rel R (open_URL sh url).
Proof. unfold open_URL. docs_walk. Qed.

End DocsKept.

#[export] Instance same_but_reflexive key : Reflexive (same_but key).
Proof. intros docs. apply same_but_refl. Qed.

#[export] Instance same_but_transitive key : Transitive (same_but key).
Proof.
  intros a b c Hab Hbc path k' Hne. by rewrite (Hbc path k' Hne), (Hab path k' Hne).
Qed.

Lemma bind_ok_inv_docs {A B} R (m : M A) (f : A -> M B) w b w' :
  docs_rel R m -> bind m f w = (Ok b, w') ->
  exists a w1, R (w_docs w) (w_docs w1) /\ f a w1 = (Ok b, w').
Proof.
  intros Hm H. apply bind_ok_inv in H as (a & w1 & Hr & H).
  exists a, w1. split; [|done]. specialize (Hm w). by rewrite Hr in Hm.
Qed.

(** ** Updates write [updated] and nothing else *)

Section Updates.

Variable sh : shell.

Abbreviation R := (same_but (u "updated")).

Lemma docs_rel_meta_updated value :
  value <> JNull -> docs_rel R (meta sh (Some (u "updated")) value).
Proof. intros Hv w. by apply meta_write_same_but; [apply updated_no_dot|]. Qed.

Lemma docs_rel_update_meta : docs_rel R (update_meta sh).
Proof.
  intros w. rewrite update_meta_run. cbn zeta.
  destruct (negb _); [apply same_but_refl|]. cbn [snd w_docs with_trace].
  match goal with |- context [meta sh ?k ?v ?w1] =>
    exact (docs_rel_meta_updated v ltac:(done) w1) end.
Qed.

Lemma docs_rel_complete_update branch_name :
  docs_rel R (complete_update sh branch_name).
Proof.
  unfold complete_update.
  pose proof (docs_rel_in_work_dir sh R).
  pose proof (docs_rel_get_original_dir_path sh R).
  pose proof (docs_rel_os_chdir sh R).
  pose proof (docs_rel_chdir sh R).
  pose proof (docs_rel_get_current_branch_name sh R).
  pose proof docs_rel_update_meta.
  docs_walk.
Qed.

Lemma docs_rel_continue_update : docs_rel R (continue_update sh).
Proof.
  unfold continue_update.
  pose proof (docs_rel_get_current_branch_name sh R).
  pose proof docs_rel_complete_update.
  docs_walk.
Qed.

Lemma docs_rel_update_branch branch_name :
  docs_rel R (update_branch sh branch_name).
Proof.
  unfold update_branch.
  pose proof (docs_rel_in_work_dir sh R).
  pose proof (docs_rel_get_work_dir sh R).
  pose proof (docs_rel_get_git_base_path sh R).
  pose proof (docs_rel_os_chdir sh R).
  pose proof (docs_rel_chdir sh R).
  pose proof docs_rel_complete_update.
  docs_walk.
Qed.

End Updates.

(** ** Fetching creates the record *)

Section Fetch.

Variable sh : shell.


(** The record in place once [command_fetch] has returned. *)
Lemma command_fetch_ok repo pid auto_update w pr w1 :
  command_fetch sh repo pid auto_update w = (Ok pr, w1) ->
  exists base parent_commit head head_commit user username parent_short head_short,
    py_getitem pr (u "base") = Ok base
    /\ py_getitem base (u "sha") = Ok parent_commit
    /\ py_getitem pr (u "head") = Ok head
    /\ py_getitem head (u "sha") = Ok head_commit
    /\ py_getitem pr (u "user") = Ok user
    /\ py_getitem user (u "login") = Ok username
    /\ py_slice10 parent_commit = Ok parent_short
    /\ py_slice10 head_commit = Ok head_short
    /\ exists docs,
         same_but (u "updated")
           (<[treeish_path sh pid :=
                Encoded (JObj [(u "username", username);
                               (u "original", commit_pair parent_short head_short)])]>
              docs)
           (w_docs w1).
Proof.
  unfold command_fetch. intros H.
  apply (bind_ok_inv_docs eq) in H as (? & wa & Ea & H); [|docs_walk].
  apply bind_ok_inv in H as (pr' & wb & Hpr & H).
  apply (bind_ok_inv_docs eq) in H as (? & wc & Ec & H);
    [|apply docs_rel_display_pull_request; typeclasses eauto].
  apply bind_ok_inv in H as (branch_name & wd & Hf & H).
  apply bind_ok_inv in H as (base & ? & Hl & H). apply lift_ok_inv in Hl as [H1 ->].
  apply bind_ok_inv in H as (parent_commit & ? & Hl & H).
  apply lift_ok_inv in Hl as [H2 ->].
  apply bind_ok_inv in H as (head & ? & Hl & H). apply lift_ok_inv in Hl as [H3 ->].
  apply bind_ok_inv in H as (head_commit & ? & Hl & H).
  apply lift_ok_inv in Hl as [H4 ->].
  apply bind_ok_inv in H as (user & ? & Hl & H). apply lift_ok_inv in Hl as [H5 ->].
  apply bind_ok_inv in H as (username & ? & Hl & H).
  apply lift_ok_inv in Hl as [H6 ->].
  apply bind_ok_inv in H as (parent_short & ? & Hl & H).
  apply lift_ok_inv in Hl as [H7 ->].
  apply bind_ok_inv in H as (head_short & ? & Hl & H).
  apply lift_ok_inv in Hl as [H8 ->].
  cbn zeta in H.
  apply bind_ok_inv in H as (? & we & Hd & H).
  unfold dump_doc in Hd. injection Hd as _ <-.
  apply (bind_ok_inv_docs eq) in H as (opts & wf & Ef & H); [|docs_walk].
  apply (bind_ok_inv_docs (same_but (u "updated"))) in H as (? & wg & Eg & H);
    [|pose proof (docs_rel_update_branch sh); docs_walk].
  apply (bind_ok_inv_docs eq) in H as (? & wh & Eh & H); [|docs_walk].
  apply (bind_ok_inv_docs eq) in H as (? & wi & Ei & H);
    [|apply docs_rel_display_status; typeclasses eauto].
  unfold ret in H. injection H as -> ->.
  exists base, parent_commit, head, head_commit, user, username,
         parent_short, head_short.
  repeat (split; [done|]). exists (w_docs wd).
  rewrite <- Ei, <- Eh. rewrite <- Ef in Eg. exact Eg.
Qed.

End Fetch.

Lemma get_pull_request_ID_prefix branch_name n :
  get_pull_request_ID branch_name = Some n ->
  take 13 branch_name = u "pull-request-".
Proof.
  unfold get_pull_request_ID, re_search. simpl anchored. cbv iota.
  rewrite branch_match_here.
  destruct (starts_with _ branch_name) eqn:E; [|done]. intros _.
  apply starts_with_spec in E as [rest ->].
  change 13%nat with (length (u "pull-request-")). apply take_app_length.
Qed.

Lemma record_field_some file k v :
  record_field file k = Some v ->
  exists d, file = Some (Encoded (JObj d)) /\ dict_get k d = Some v.
Proof.
  destruct file as [[s|[]]|]; cbn [record_field]; try done.
  intros H. by eexists.
Qed.

Section RoundTrip.

Variable sh : shell.

(** Reading a field of a sub-record through a two-piece key. *)
Lemma meta_read_nested key a k w n d o v :
  split_on 46 key = [a; k] ->
  get_pull_request_ID (current_branch sh (w_trace w)) = Some n ->
  w_docs w !! treeish_path sh (JInt n) = Some (Encoded (JObj d)) ->
  dict_get a d = Some (JObj o) ->
  dict_get k o = Some v ->
  meta sh (Some key) JNull w = (Ok v, asked_branch w).
Proof.
  intros Hsplit Hid Hdoc Ha Hk. unfold meta, bind at 1.
  rewrite get_current_branch_name_run. cbn [andb]. cbn zeta. rewrite Hid.
  unfold bind at 1. unfold try_except at 1, bind at 1, load_doc.
  cbn [w_docs with_trace asked_branch]. rewrite Hdoc. cbn [ret].
  rewrite Hsplit. cbn [pop_last removelast last default from_option id fst snd].
  unfold try_except, bind. cbn [get_path py_getitem lift ret].
  rewrite Ha. cbn [lift ret py_in]. rewrite Hk.
  rewrite bool_decide_eq_true_2 by (by eexists). cbn [lift ret py_getitem].
  by rewrite Hk.
Qed.

(** C1. The metadata record round trip.  When a fetch of request [n]
    has completed, for the author [login] and the commits [p] (base)
    and [h] (head) of the pull request: the record holds [login] and
    [original = (p[:10], h[:10])]; reading it back through [meta] on a
    branch of that request yields these two short commits; setting
    [updated] to a pair [(p2, h2)] stores that pair and leaves
    [original] and [username] as first written, and so does
    [update_meta] while git stays on that branch, storing the short
    merge base and head git reports; no update, continued update or update of a branch changes
    any field but [updated], in any record. *)
Theorem metadata_record_round_trip repo pid (n : Z) auto_update w pr w1
    base head user p h login :
  py_str sh pid = str_of_Z n ->
  command_fetch sh repo pid auto_update w = (Ok pr, w1) ->
  py_getitem pr (u "base") = Ok base -> py_getitem base (u "sha") = Ok (JStr p) ->
  py_getitem pr (u "head") = Ok head -> py_getitem head (u "sha") = Ok (JStr h) ->
  py_getitem pr (u "user") = Ok user -> py_getitem user (u "login") = Ok login ->
  let path := treeish_path sh (JInt n) in
  let original := commit_pair (JStr (take 10 p)) (JStr (take 10 h)) in
  let on_branch w2 :=
    w_docs w2 !! path = w_docs w1 !! path
    /\ get_pull_request_ID (current_branch sh (w_trace w2)) = Some n in
  record_field (w_docs w1 !! path) (u "username") = Some login
  /\ record_field (w_docs w1 !! path) (u "original") = Some original
  /\ (forall w2, on_branch w2 ->
        (meta sh (Some (u "original.parent_commit")) JNull w2).1
        = Ok (JStr (take 10 p))
        /\ (meta sh (Some (u "original.head_commit")) JNull w2).1
           = Ok (JStr (take 10 h)))
  /\ (forall w2 p2 h2, on_branch w2 ->
        let w3 := (meta sh (Some (u "updated")) (commit_pair p2 h2) w2).2 in
        record_field (w_docs w3 !! path) (u "updated") = Some (commit_pair p2 h2)
        /\ record_field (w_docs w3 !! path) (u "original") = Some original
        /\ record_field (w_docs w3 !! path) (u "username") = Some login)
  /\ (forall w2,
        w_docs w2 !! path = w_docs w1 !! path ->
        (forall evs, get_pull_request_ID (current_branch sh (w_trace w2 ++ evs))
                     = Some n) ->
        let w3 := (update_meta sh w2).2 in
        (exists tr1 tr2 cmd,
           record_field (w_docs w3 !! path) (u "updated")
           = Some (commit_pair
                     (JStr (take 10 (strip (sh_popen sh tr1 cmd))))
                     (JStr (take 10 (strip (sh_popen sh tr2 (u "git rev-parse HEAD")))))))
        /\ record_field (w_docs w3 !! path) (u "original") = Some original
        /\ record_field (w_docs w3 !! path) (u "username") = Some login)
  /\ (forall w2 branch_name,
        same_but (u "updated") (w_docs w2) (w_docs (update_meta sh w2).2)
        /\ same_but (u "updated") (w_docs w2) (w_docs (continue_update sh w2).2)
        /\ same_but (u "updated") (w_docs w2)
                    (w_docs (update_branch sh branch_name w2).2)).
Proof.
  intros Hpid Hfetch Hb Hp Hh Hhs Hu Hl path original on_branch.
  destruct (command_fetch_ok sh _ _ _ _ _ _ Hfetch)
    as (base' & pc & head' & hc & user' & login' & ps & hs
        & Hb' & Hp' & Hh' & Hhs' & Hu' & Hl' & Hps & Hhs2 & docs & Hsame).
  rewrite Hb in Hb'. injection Hb' as <-. rewrite Hp in Hp'. injection Hp' as <-.
  rewrite Hh in Hh'. injection Hh' as <-. rewrite Hhs in Hhs'. injection Hhs' as <-.
  rewrite Hu in Hu'. injection Hu' as <-. rewrite Hl in Hl'. injection Hl' as <-.
  cbn [py_slice10] in Hps, Hhs2. injection Hps as <-. injection Hhs2 as <-.
  assert (Hpath : treeish_path sh pid = path).
  { unfold path, treeish_path. by rewrite Hpid. }
  rewrite Hpath in Hsame.
  assert (Huser : record_field (w_docs w1 !! path) (u "username") = Some login).
  { rewrite (Hsame path (u "username")) by (by vm_compute).
    rewrite lookup_insert_eq. cbn [record_field dict_get].
    by rewrite ustring_eqb_refl. }
  assert (Horig : record_field (w_docs w1 !! path) (u "original") = Some original).
  { rewrite (Hsame path (u "original")) by (by vm_compute).
    rewrite lookup_insert_eq. cbn [record_field dict_get].
    rewrite ustring_eqb_ne by (by vm_compute). by rewrite ustring_eqb_refl. }
  split; [done|]. split; [done|].
  destruct (record_field_some _ _ _ Horig) as (d & Hdoc & Hd).
  assert (Hd' : dict_get (u "username") d = Some login).
  { rewrite Hdoc in Huser. exact Huser. }
  split; [|split; [|split]].
  - intros w2 [Hdocs Hid]. rewrite Hdoc in Hdocs. split.
    + by rewrite (meta_read_nested (u "original.parent_commit")
                    (u "original") (u "parent_commit")
                    w2 n d _ (JStr (take 10 p)) ltac:(by vm_compute) Hid Hdocs Hd).
    + by rewrite (meta_read_nested (u "original.head_commit")
                    (u "original") (u "head_commit")
                    w2 n d _ (JStr (take 10 h)) ltac:(by vm_compute) Hid Hdocs Hd).
  - intros w2 p2 h2 [Hdocs Hid] w3. subst w3. rewrite Hdoc in Hdocs.
    rewrite (meta_write_run sh (u "updated") (commit_pair p2 h2) w2 n d
               updated_no_dot ltac:(done) Hid Hdocs).
    cbn [snd w_docs with_docs]. fold path. rewrite lookup_insert_eq.
    cbn [record_field]. rewrite dict_get_set_eq.
    rewrite !dict_get_set_ne by (by vm_compute). done.
  - intros w2 Hdocs Hid w3. subst w3. rewrite Hdoc in Hdocs.
    rewrite update_meta_run. cbn zeta.
    pose proof (Hid []) as Hid0. rewrite app_nil_r in Hid0.
    rewrite (get_pull_request_ID_prefix _ _ Hid0), ustring_eqb_refl.
    cbn [negb snd w_docs with_trace].
    match goal with |- context [meta sh ?k ?v ?w0] =>
      rewrite (meta_write_run sh (u "updated") v w0 n d updated_no_dot
                 ltac:(done));
        [|cbn [w_trace with_trace asked_branch]; rewrite <- !app_assoc; apply Hid
         |exact Hdocs] end.
    cbn [snd w_docs with_docs]. fold path. rewrite lookup_insert_eq.
    cbn [record_field]. rewrite dict_get_set_eq.
    rewrite !dict_get_set_ne by (by vm_compute).
    split; [|done]. by eexists _, _, _.
  - intros w2 branch_name. split; [apply docs_rel_update_meta|].
    split; [apply docs_rel_continue_update|apply docs_rel_update_branch].
Qed.

End RoundTrip.

(** C1, witness: request 42 is fetched from a fresh process; its record
    then holds the ten-character forms of the two commits. *)
Lemma metadata_record_round_trip_witness :
  let w1 := (command_fetch shell_42 (u "o/r") (JStr (u "42")) false
                           (fresh_world ∅)).2 in
  command_fetch shell_42 (u "o/r") (JStr (u "42")) false (fresh_world ∅)
  = (Ok pull_42, w1)
  /\ record_field (w_docs w1 !! treeish_path shell_42 (JInt 42)) (u "original")
     = Some (commit_pair (JStr (u "fedcba9876")) (JStr (u "0123456789"))).
Proof.
  intros w1.
  assert (Hrun : command_fetch shell_42 (u "o/r") (JStr (u "42")) false
                               (fresh_world ∅) = (Ok pull_42, w1))
    by (by vm_compute).
  split; [exact Hrun|].
  exact (proj1 (proj2 (metadata_record_round_trip shell_42 (u "o/r")
    (JStr (u "42")) 42 false (fresh_world ∅) pull_42 w1
    (JObj [(u "ref", JStr (u "master")); (u "sha", JStr (u "fedcba9876543210fedc"))])
    (JObj [(u "ref", JStr (u "JIRA-99-fix")); (u "sha", JStr (u "0123456789abcdef0123"))])
    (JObj [(u "login", JStr (u "octocat"))])
    (u "fedcba9876543210fedc") (u "0123456789abcdef0123") (JStr (u "octocat"))
    eq_refl Hrun eq_refl eq_refl eq_refl eq_refl eq_refl eq_refl))).
Defined.

(** C2, witness: pull request 42 from [JIRA-99-fix]. *)
Lemma branch_name_id_round_trip_witness :
  (0 < 42)%Z
  /\ exists suffix,
       build_branch_name quiet_shell pull_42
       = Ok (u "pull-request-" ++ str_of_Z 42 ++ suffix)
       /\ (suffix = [] \/ exists ticket, suffix = 45 :: ticket)
       /\ get_pull_request_ID (u "pull-request-" ++ str_of_Z 42 ++ suffix)
          = Some 42%Z.
Proof.
  split; [lia|].
  exact (branch_name_id_round_trip quiet_shell pull_42
    (JObj [(u "ref", JStr (u "JIRA-99-fix")); (u "sha", JStr (u "0123456789abcdef0123"))])
    42 (u "JIRA-99-fix") (u "Fix it")
    ltac:(lia) eq_refl eq_refl eq_refl eq_refl).
Defined.

(** ** A record that cannot be read *)

Lemma never_raises_ret {A} (a : A) : never_raises (ret a).
Proof. intros w. by exists a. Qed.

Lemma never_raises_bind {A B} (m : M A) (f : A -> M B) :
  never_raises m -> (forall a, never_raises (f a)) -> never_raises (bind m f).
Proof.
  intros Hm Hf w. unfold bind. destruct (Hm w) as [a Ha].
  destruct (m w) as [r w1]. cbn [fst] in Ha. subst r. apply Hf.
Qed.

Lemma never_raises_try_except {A} (m : M A) h :
  (forall e, never_raises (h e)) -> never_raises (try_except m h).
Proof.
  intros Hh w. unfold try_except. destruct (m w) as [[a|e] w1]; [by exists a|].
  apply Hh.
Qed.

Lemma never_raises_log args : never_raises (log args).
Proof.
  induction args as [|arg args IH]; cbn [log]; [apply never_raises_ret|].
  apply never_raises_bind; [intros w; by exists tt|]. intros _.
  apply never_raises_bind; [intros w; by exists tt|]. by intros _.
Qed.

Section Absent.

Variable sh : shell.

Lemma meta_never_raises key value : never_raises (meta sh key value).
Proof.
  unfold meta. apply never_raises_bind.
  { intros w. rewrite get_current_branch_name_run. cbn. by eexists. }
  intros branch_name. destruct (get_pull_request_ID branch_name); [|apply never_raises_ret].
  assert (Hfailed : forall k : option ustring, never_raises
    (log [JStr (u "Could not update '" ++ py_str sh (from_option JStr JNull k)
                ++ u "' with '" ++ py_str sh value ++ u "'")] ;;; ret JNull)%py).
  { intros k. apply never_raises_bind; [apply never_raises_log|].
    intros _. apply never_raises_ret. }
  apply never_raises_bind.
  { apply never_raises_try_except. intros _. apply never_raises_ret. }
  intros [current_value|]; [|apply Hfailed].
  apply never_raises_try_except. intros _. apply Hfailed.
Qed.

Lemma close_pull_request_absent repo pid comment w :
  unreadable (w_docs w !! treeish_path sh pid) ->
  close_pull_request sh repo pid comment w = close_plainly sh repo pid comment w.
Proof.
  intros Hdoc. unfold close_pull_request, close_plainly.
  unfold bind at 1. unfold bind at 4. unfold get_options. cbn zeta.
  set (comment0 := match comment with
                   | Some _ => comment
                   | None => opt_close_default_comment (w_options w)
                   end).
  assert (Htry :
    (if is_nil (option_list comment0)
        || bool_decide (comment0 = opt_close_default_comment (w_options w))
     then try_except (close_comment sh repo pid comment0) (fun _ => ret comment0)
     else ret comment0) w = (Ok comment0, w)).
  { destruct (_ || _); [|done].
    unfold try_except, close_comment, bind at 1, load_doc.
    by destruct Hdoc as [->|[s ->]]. }
  unfold bind at 1. by rewrite Htry.
Qed.

(** C8 (as amended). For a request whose record was never created, and
    for a read that finds the record file missing, cut short or not
    decodable: [meta] returns [None] and does not raise (it never does),
    the record files stay as they were, and the callers go on:
    [update_meta] still returns its commit range and
    [close_pull_request] posts the caller's comment without links and
    closes the request.  [meta] reports the failure through [log], which
    prints it whatever the debug flag; [close_pull_request] drops its
    own read failure without a message. *)
Theorem metadata_failure_is_absent key value w n :
  get_pull_request_ID (current_branch sh (w_trace w)) = Some n ->
  unreadable (w_docs w !! treeish_path sh (JInt n)) ->
  meta sh key value w
  = (Ok JNull, logged (could_not_update sh key value) (asked_branch w))
  /\ w_trace (meta sh key value w).2
     = w_trace w ++ [EvPopen current_branch_cmd;
                     EvPrintJson (could_not_update sh key value);
                     EvPrint (u "/---")]
  /\ w_docs (meta sh key value w).2 = w_docs w
  /\ (forall key' value', never_raises (meta sh key' value'))
  /\ (exists branch_treeish, (update_meta sh w).1 = Ok branch_treeish)
  /\ (forall repo pid comment w0,
        unreadable (w_docs w0 !! treeish_path sh pid) ->
        close_pull_request sh repo pid comment w0
        = close_plainly sh repo pid comment w0).
Proof.
  intros Hid Hdoc.
  rewrite (meta_absent_run sh key value w n Hid Hdoc).
  split; [done|]. split.
  { cbn [snd logged asked_branch w_trace with_trace]. by rewrite <- app_assoc. }
  split; [done|]. split; [apply meta_never_raises|]. split.
  - rewrite update_meta_run. cbn zeta.
    rewrite (get_pull_request_ID_prefix _ _ Hid), ustring_eqb_refl.
    cbn [negb fst]. by eexists.
  - apply close_pull_request_absent.
Qed.

End Absent.

(** C8, witness: on [pull-request-7], no record in the temporary
    directory. *)
Lemma metadata_failure_is_absent_witness :
  let sh := shell_on_branch (u "pull-request-7") in
  get_pull_request_ID (current_branch sh (w_trace (fresh_world ∅))) = Some 7%Z
  /\ unreadable (w_docs (fresh_world ∅) !! treeish_path sh (JInt 7))
  /\ (meta sh (Some (u "new_pr_url")) JNull (fresh_world ∅)).1 = Ok JNull.
Proof.
  intros sh.
  assert (Hid : get_pull_request_ID (current_branch sh (w_trace (fresh_world ∅)))
                = Some 7%Z) by (by vm_compute).
  assert (Hdoc : unreadable (w_docs (fresh_world ∅) !! treeish_path sh (JInt 7)))
    by (by left).
  split; [exact Hid|]. split; [exact Hdoc|].
  by rewrite (proj1 (metadata_failure_is_absent sh (Some (u "new_pr_url")) JNull
                       (fresh_world ∅) 7 Hid Hdoc)).
Defined.

(** C8, counterexample to "logged only in debug mode": the debug flag
    is off, the record of request 7 is missing, and [meta] prints its
    failure message all the same. *)
Lemma log_ignores_debug_counterexample :
  let sh := shell_on_branch (u "pull-request-7") in
  w_DEBUG (fresh_world ∅) = false
  /\ unreadable (w_docs (fresh_world ∅) !! treeish_path sh (JInt 7))
  /\ w_trace (meta sh (Some (u "new_pr_url")) JNull (fresh_world ∅)).2
     = [EvPopen current_branch_cmd;
        EvPrintJson (JStr (u "Could not update 'new_pr_url' with 'None'"));
        EvPrint (u "/---")].
Proof.
  intros sh. split; [done|]. split; [by left|]. by vm_compute.
Qed.

(** ** The verdict of close *)

Lemma existsb_zip {A B} (f : A * B -> bool) (l1 : list A) (l2 : list B) :
  existsb f (zip l1 l2) = true <->
  exists i a b, l1 !! i = Some a /\ l2 !! i = Some b /\ f (a, b) = true.
Proof.
  revert l2. induction l1 as [|a l1 IH]; intros l2; cbn [zip zip_with existsb].
  - split; [done|]. by intros (i & a & b & H & _).
  - destruct l2 as [|b l2]; cbn [existsb].
    + split; [done|]. by intros (i & a' & b' & _ & H & _).
    + rewrite orb_true_iff, IH. split.
      * intros [H|(i & a' & b' & H1 & H2 & H3)];
          [by exists 0%nat, a, b|by exists (S i), a', b'].
      * intros ([|i] & a' & b' & H1 & H2 & H3); cbn in H1, H2.
        -- left. congruence.
        -- right. by exists i, a', b'.
Qed.

Lemma commits_differ_same c : commits_differ c c = false.
Proof.
  unfold commits_differ. rewrite ustring_eqb_refl. cbn [negb].
  by rewrite andb_false_r.
Qed.

Lemma trees_differ_same s : trees_differ s s = false.
Proof.
  unfold trees_differ. cbn zeta. rewrite Nat.eqb_refl.
  induction (split_on 10 s) as [|c l IH]; cbn [zip zip_with existsb]; [done|].
  cbn [fst snd]. by rewrite commits_differ_same, IH.
Qed.

Lemma trees_differ_spec current original :
  trees_differ current original = true <->
  length (split_on 10 current) <> length (split_on 10 original)
  \/ exists i c o,
       split_on 10 current !! i = Some c /\ split_on 10 original !! i = Some o
       /\ (4 <= length (split_on 32 c))%nat /\ (4 <= length (split_on 32 o))%nat
       /\ nth 3 (split_on 32 c) [] <> nth 3 (split_on 32 o) [].
Proof.
  unfold trees_differ. cbn zeta.
  destruct (_ =? _)%nat eqn:E.
  - apply Nat.eqb_eq in E. rewrite existsb_zip. split.
    + intros (i & c & o & Hc & Ho & Hd). right. exists i, c, o.
      cbn [fst snd] in Hd. unfold commits_differ in Hd.
      apply andb_prop in Hd as [Hd H3]. apply andb_prop in Hd as [H1 H2].
      apply Nat.leb_le in H1, H2. apply negb_true_iff in H3.
      repeat (split; [done|]). intros Heq. by rewrite Heq, ustring_eqb_refl in H3.
    + intros [Hne|(i & c & o & Hc & Ho & H1 & H2 & H3)]; [done|].
      exists i, c, o. repeat (split; [done|]). cbn [fst snd]. unfold commits_differ.
      rewrite (proj2 (Nat.leb_le _ _) H1), (proj2 (Nat.leb_le _ _) H2).
      by rewrite ustring_eqb_ne.
  - apply Nat.eqb_neq in E. split; [by left|done].
Qed.

Lemma py_getitem_commit_pair a b :
  py_getitem (commit_pair a b) (u "parent_commit") = Ok a
  /\ py_getitem (commit_pair a b) (u "head_commit") = Ok b.
Proof. split; reflexivity. Qed.

(** From here on the functions of the program are unfolded by name only. *)

Arguments ustring_eqb : simpl never.
Arguments contains : simpl never.
Arguments split_on : simpl never.
Arguments trees_differ : simpl never.
Arguments commits_differ : simpl never.
Arguments py_str : simpl never.
Arguments get_tmp_path : simpl never.
Arguments get_api_url : simpl never.
Arguments treeish_path : simpl never.
Arguments path_join : simpl never.
Arguments diff_tree_cmd : simpl never.
Arguments my_changes_link : simpl never.
Arguments total_diff_link : simpl never.
Arguments submitted_line : simpl never.
Arguments could_not_update : simpl never.
Arguments current_branch : simpl never.
Arguments build_branch_name : simpl never.
Arguments build_pull_request_title : simpl never.
Arguments get_current_branch_name : simpl never.
Arguments display_status : simpl never.
Arguments meta : simpl never.
Arguments update_meta : simpl never.
Arguments github_request : simpl never.
Arguments github_json_request : simpl never.
Arguments get_pull_request : simpl never.
Arguments get_pull_requests : simpl never.
Arguments post_comment : simpl never.
Arguments display_pull_request_minimal : simpl never.
Arguments display_pull_request : simpl never.
Arguments get_repo_url : simpl never.
Arguments fetch_pull_request : simpl never.
Arguments get_git_base_path : simpl never.
Arguments get_work_dir : simpl never.
Arguments in_work_dir : simpl never.
Arguments get_original_dir_path : simpl never.
Arguments complete_update : simpl never.
Arguments continue_update : simpl never.
Arguments update_branch : simpl never.
Arguments command_fetch : simpl never.
Arguments close_comment : simpl never.
Arguments close_pull_request : simpl never.
Arguments command_close : simpl never.
Arguments command_merge : simpl never.
Arguments command_update : simpl never.
Arguments get_repo_name_for_remote : simpl never.
Arguments open_URL : simpl never.
Arguments find_submitted : simpl never.
Arguments command_submit : simpl never.
Arguments log : simpl never.
Arguments chdir : simpl never.
Arguments close_plainly : simpl never.
Arguments filter_pulls : simpl never.

Section CloseComment.

Variable sh : shell.

Lemma close_comment_run repo pid comment w d username op oh
    (updated : option (json * json)) :
  w_docs w !! treeish_path sh pid = Some (Encoded (JObj d)) ->
  dict_get (u "username") d = Some username ->
  dict_get (u "original") d = Some (commit_pair op oh) ->
  dict_get (u "updated") d = (fun c => commit_pair c.1 c.2) <$> updated ->
  let up := from_option fst (JStr []) updated in
  let uh := from_option snd (JStr []) updated in
  let cur := take 10 (strip (sh_popen sh (w_trace w) (u "git rev-parse HEAD"))) in
  let w1 := with_trace (w_trace w ++ [EvPopen (u "git rev-parse HEAD")]) w in
  let differ := negb (py_eq_str oh cur) in
  let tr2 := w_trace w1 ++ [EvPopen (diff_tree_cmd (u "HEAD"))] in
  let w2 := if differ
            then with_trace (tr2 ++ [EvPopen (diff_tree_cmd (py_str sh oh))]) w1
            else w1 in
  let diff_commit :=
    differ && trees_differ (strip (sh_popen sh (w_trace w1) (diff_tree_cmd (u "HEAD"))))
                           (strip (sh_popen sh tr2 (diff_tree_cmd (py_str sh oh)))) in
  let last_head := py_or uh oh in
  let changed := negb (py_eq_str last_head cur) && diff_commit in
  let r := meta sh (Some (u "new_pr_url")) JNull w2 in
  close_comment sh repo pid comment w =
  (Ok (Some (default [] comment ++ submitted_line sh (value_of r.1)
             ++ (if changed then my_changes_link sh repo username last_head cur
                 else [])
             ++ total_diff_link sh repo (py_or up op) cur)),
   r.2).
Proof.
  intros Hdoc Hu Ho Hup up uh cur w1 differ tr2 w2 diff_commit last_head changed r.
  unfold close_comment, bind, load_doc, lift, ret, os_popen.
  rewrite Hdoc. unfold py_getitem at 1. cbv beta iota. rewrite Hu. cbv beta iota.
  unfold py_in at 1. cbv beta iota. rewrite Ho.
  rewrite bool_decide_eq_true_2 by (by eexists).
  unfold py_getitem at 1. cbv beta iota. rewrite Ho. cbv beta iota.
  destruct (py_getitem_commit_pair op oh) as [-> ->]. cbv beta iota.
  unfold py_in at 1. cbv beta iota.
  assert (Hlink : forall (c : bool) (a b : ustring),
            (if c then a ++ b else a) = a ++ (if c then b else [])).
  { intros [] a b; [done|by rewrite app_nil_r]. }
  assert (Hfin : forall w3 diff_commit0,
    w3 = w2 -> diff_commit0 = diff_commit ->
    (let (r0, w') := meta sh (Some (u "new_pr_url")) JNull w3 in
     match r0 with
     | Ok a =>
         (Ok (Some
            (((if truthy a && negb (py_eq_str a [])
               then default [] comment
                    ++ 10 :: u "Pull request submitted at: " ++ py_str sh a
               else default [] comment)
              ++ (if if py_eq_str last_head cur then false else diff_commit0
                  then 10 :: 10 :: u "View just my changes: https://github.com/"
                       ++ repo ++ u "/compare/" ++ py_str sh username ++ u ":"
                       ++ py_str sh last_head ++ u "..." ++ cur
                  else []))
             ++ 10 :: u "View total diff: https://github.com/" ++ repo
             ++ u "/compare/" ++ py_str sh (py_or up op) ++ u "..." ++ cur)),
          w')
     | Raise e => (Raise e, w')
     end)
    = (Ok (Some (default [] comment ++ submitted_line sh (value_of r.1)
                 ++ (if changed then my_changes_link sh repo username last_head cur
                     else [])
                 ++ total_diff_link sh repo (py_or up op) cur)),
       r.2)).
  { intros w3 dc -> ->. subst r.
    destruct (meta_never_raises sh (Some (u "new_pr_url")) JNull w2) as [v Hv].
    destruct (meta sh (Some (u "new_pr_url")) JNull w2) as [r0 wm].
    cbn [fst snd] in *. subst r0. cbn [value_of].
    unfold submitted_line, my_changes_link, total_diff_link, changed.
    rewrite Hlink. destruct (py_eq_str last_head cur); cbn [negb andb];
      by rewrite <- !app_assoc. }
  subst differ cur.
  destruct updated as [[up0 uh0]|].
  - change (dict_get (u "updated") d = Some (commit_pair up0 uh0)) in Hup.
    rewrite Hup.
    rewrite bool_decide_eq_true_2 by (by eexists). cbv beta iota.
    unfold py_getitem at 1. cbv beta iota. rewrite Hup. cbv beta iota.
    destruct (py_getitem_commit_pair up0 uh0) as [-> ->]. cbv beta iota.
    cbn [fst snd].
    destruct (negb (py_eq_str oh _)) eqn:Ed; cbv beta iota;
      (apply Hfin; [unfold w2|unfold diff_commit]; try rewrite Ed; reflexivity).
  - change (dict_get (u "updated") d = None) in Hup. rewrite Hup.
    rewrite bool_decide_eq_false_2 by (by intros [? ?]). cbv beta iota.
    cbn [fst snd].
    destruct (negb (py_eq_str oh _)) eqn:Ed; cbv beta iota;
      (apply Hfin; [unfold w2|unfold diff_commit]; try rewrite Ed; reflexivity).
Qed.

End CloseComment.

Section CloseVerdict.

Variable sh : shell.

(** C3 (as amended). When close builds its comment from a record with
    [username] and [original] (and maybe [updated]), it compares the
    [git diff-tree] listing of HEAD with the listing of the {e original}
    head commit, and HEAD itself with the original head and with the
    last recorded head ([updated]'s, else [original]'s).  The verdict is
    "changed" exactly when HEAD is neither of these two commits and the
    listings differ: in their number of lines, or at some position in
    the fourth space-separated field of two lines that both have one.
    Two identical listings never differ.  The "view just my changes"
    link is in the comment exactly when the verdict is "changed". *)
Theorem close_classification repo pid comment w d username op oh
    (updated : option (json * json)) :
  w_docs w !! treeish_path sh pid = Some (Encoded (JObj d)) ->
  dict_get (u "username") d = Some username ->
  dict_get (u "original") d = Some (commit_pair op oh) ->
  dict_get (u "updated") d = (fun c => commit_pair c.1 c.2) <$> updated ->
  let up := from_option fst (JStr []) updated in
  let uh := from_option snd (JStr []) updated in
  let last_head := py_or uh oh in
  let cur := take 10 (strip (sh_popen sh (w_trace w) (u "git rev-parse HEAD"))) in
  let tr1 := w_trace w ++ [EvPopen (u "git rev-parse HEAD")] in
  let current_tree := strip (sh_popen sh tr1 (diff_tree_cmd (u "HEAD"))) in
  let tr2 := tr1 ++ [EvPopen (diff_tree_cmd (u "HEAD"))] in
  let original_tree := strip (sh_popen sh tr2 (diff_tree_cmd (py_str sh oh))) in
  let changed :=
    negb (py_eq_str oh cur) && negb (py_eq_str last_head cur)
    && trees_differ current_tree original_tree in
  let asked :=
    if negb (py_eq_str oh cur)
    then with_trace (tr2 ++ [EvPopen (diff_tree_cmd (py_str sh oh))]) w
    else with_trace tr1 w in
  let new_pr_url := value_of (meta sh (Some (u "new_pr_url")) JNull asked).1 in
  (close_comment sh repo pid comment w).1
  = Ok (Some (default [] comment ++ submitted_line sh new_pr_url
              ++ (if changed
                  then my_changes_link sh repo username last_head cur
                  else [])
              ++ total_diff_link sh repo (py_or up op) cur))
  /\ (forall current original,
        trees_differ current original = true <->
        length (split_on 10 current) <> length (split_on 10 original)
        \/ exists i c o,
             split_on 10 current !! i = Some c
             /\ split_on 10 original !! i = Some o
             /\ (4 <= length (split_on 32 c))%nat
             /\ (4 <= length (split_on 32 o))%nat
             /\ nth 3 (split_on 32 c) [] <> nth 3 (split_on 32 o) [])
  /\ (forall listing, trees_differ listing listing = false).
Proof.
  intros Hdoc Hu Ho Hup up uh last_head cur tr1 current_tree tr2 original_tree
         changed asked new_pr_url.
  split; [|split; [apply trees_differ_spec|apply trees_differ_same]].
  rewrite (close_comment_run sh repo pid comment w d username op oh updated
             Hdoc Hu Ho Hup).
  cbn [fst]. subst new_pr_url asked changed. cbn [w_trace with_trace].
  fold cur tr1 current_tree. fold tr2. fold original_tree. fold uh. fold last_head.
  destruct (py_eq_str oh cur), (py_eq_str last_head cur);
    cbn [negb andb]; reflexivity.
Qed.

End CloseVerdict.

(** C3, witness: request 7, fetched at [aaaaaaaaaa], updated to
    [bbbbbbbbbb], closed at [cccccccccc]. *)
Lemma close_classification_witness :
  (close_comment diff_shell (u "o/r") (JInt 7) None world_7).1
  = Ok (Some (my_changes_link diff_shell (u "o/r") (JStr (u "octocat"))
                              (JStr (u "bbbbbbbbbb")) (u "cccccccccc")
              ++ total_diff_link diff_shell (u "o/r") (JStr (u "dddddddddd"))
                                 (u "cccccccccc"))).
Proof.
  destruct (close_classification diff_shell (u "o/r") (JInt 7) None world_7
              record_7 (JStr (u "octocat"))
              (JStr (u "eeeeeeeeee")) (JStr (u "aaaaaaaaaa"))
              (Some (JStr (u "dddddddddd"), JStr (u "bbbbbbbbbb")))
              ltac:(by vm_compute) eq_refl eq_refl eq_refl)
    as [Hrun _].
  rewrite Hrun. clear Hrun. by vm_compute.
Defined.

(** C3, counterexample to the claim as written (HEAD compared with the
    last recorded head commit): the last recorded head of request 7 is
    [bbbbbbbbbb], its listing and the listing of HEAD are identical, so
    the verdict should be "unchanged"; close compares HEAD with the
    original head [aaaaaaaaaa] instead and adds the link. *)
Lemma close_compares_original_counterexample :
  dict_get (u "updated") record_7
  = Some (commit_pair (JStr (u "dddddddddd")) (JStr (u "bbbbbbbbbb")))
  /\ (forall tr,
        strip (sh_popen diff_shell tr (diff_tree_cmd (u "HEAD")))
        = strip (sh_popen diff_shell tr (diff_tree_cmd (u "bbbbbbbbbb"))))
  /\ (forall tr,
        trees_differ (strip (sh_popen diff_shell tr (diff_tree_cmd (u "HEAD"))))
                     (strip (sh_popen diff_shell tr (diff_tree_cmd (u "bbbbbbbbbb"))))
        = false)
  /\ (close_comment diff_shell (u "o/r") (JInt 7) None world_7).1
     = Ok (Some (my_changes_link diff_shell (u "o/r") (JStr (u "octocat"))
                                 (JStr (u "bbbbbbbbbb")) (u "cccccccccc")
                 ++ total_diff_link diff_shell (u "o/r") (JStr (u "dddddddddd"))
                                    (u "cccccccccc"))).
Proof.
  split; [reflexivity|]. split; [by intros tr; vm_compute|].
  split; [by intros tr; vm_compute|]. by vm_compute.
Qed.

(** ** Commands outside a pull-request branch *)

Section Guard.

Variable sh : shell.

Lemma get_current_branch_name_guard w :
  take 13 (current_branch sh (w_trace w)) <> u "pull-request-" ->
  get_current_branch_name sh true w = (not_a_pull_request, asked_branch w).
Proof.
  intros Hb. rewrite get_current_branch_name_run. cbn zeta.
  by rewrite (ustring_eqb_ne _ _ Hb).
Qed.

Lemma get_current_branch_name_pass w :
  take 13 (current_branch sh (w_trace w)) = u "pull-request-" ->
  get_current_branch_name sh true w
  = (Ok (current_branch sh (w_trace w)), asked_branch w).
Proof.
  intros Hb. rewrite get_current_branch_name_run. cbn zeta.
  by rewrite Hb, ustring_eqb_refl.
Qed.

(** C5 (as amended). Close, merge and an update of the current branch
    first ask git for the current branch and, when its name does not
    begin with [pull-request-], stop at once with the fatal error
    "Invalid branch: not a pull request": no git command has been run on
    the branch, no request sent, no file touched.  A name that begins
    with [pull-request-] passes this guard whether or not digits follow.
    The branch-to-ID function returns the integer captured by
    [^pull-request-(\d+)] for the names that match and [None] for all
    others. *)
Theorem not_on_pull_request_branch repo comment w :
  (forall evs,
     take 13 (current_branch sh (w_trace w ++ evs)) <> u "pull-request-") ->
  let closing := EvPrintColor (u "Closing pull request") (u "status") in
  command_merge sh repo comment w
  = (not_a_pull_request,
     with_trace (w_trace w ++ [EvPopen current_branch_cmd]) w)
  /\ command_update sh repo None w
     = (not_a_pull_request,
        with_trace (w_trace w ++ [EvPopen current_branch_cmd]) w)
  /\ command_close sh repo comment w
     = (not_a_pull_request,
        with_trace (w_trace w ++ [closing; EvPopen current_branch_cmd]) w)
  /\ (forall w0,
        take 13 (current_branch sh (w_trace w0)) = u "pull-request-" ->
        (get_current_branch_name sh true w0).1
        = Ok (current_branch sh (w_trace w0)))
  /\ (forall name,
        (matches_at_start (atoms branch_re) name ->
         exists ds rest,
           name = u "pull-request-" ++ ds ++ rest /\ ds <> []
           /\ Forall (fun c => is_decimal c = true) ds /\ stops_digits rest
           /\ get_pull_request_ID name = Some (Z.of_N (py_int ds)))
        /\ (~ matches_at_start (atoms branch_re) name ->
            get_pull_request_ID name = None)).
Proof.
  intros Hb closing. subst closing.
  pose proof (Hb []) as Hb0. rewrite app_nil_r in Hb0.
  split; [|split; [|split; [|split]]].
  - unfold command_merge, bind.
    by rewrite (get_current_branch_name_guard w Hb0).
  - unfold command_update, bind.
    by rewrite (get_current_branch_name_guard w Hb0).
  - unfold command_close, bind, print_color, emit.
    cbv beta iota.
    rewrite (get_current_branch_name_guard
               (with_trace (w_trace w ++ [EvPrintColor (u "Closing pull request")
                                                       (u "status")]) w)
               (Hb [EvPrintColor (u "Closing pull request") (u "status")])).
    unfold asked_branch. cbn [w_trace with_trace]. by rewrite <- app_assoc.
  - intros w0 Hp. by rewrite (get_current_branch_name_pass w0 Hp).
  - apply get_pull_request_ID_spec.
Qed.

End Guard.

(** C5, witness: merge, update and close on [master]. *)
Lemma not_on_pull_request_branch_witness :
  let sh := shell_on_branch (u "master") in
  (forall evs, take 13 (current_branch sh (w_trace (fresh_world ∅) ++ evs))
               <> u "pull-request-")
  /\ command_merge sh (u "o/r") None (fresh_world ∅)
     = (not_a_pull_request,
        with_trace [EvPopen current_branch_cmd] (fresh_world ∅)).
Proof.
  intros sh.
  assert (Hb : forall evs,
             take 13 (current_branch sh (w_trace (fresh_world ∅) ++ evs))
             <> u "pull-request-") by (by intros evs; vm_compute).
  split; [exact Hb|].
  exact (proj1 (not_on_pull_request_branch sh (u "o/r") None (fresh_world ∅) Hb)).
Defined.

(** C5, counterexample to the claim as written: [pull-request-x] does
    not match [^pull-request-(\d+)] and has no ID, yet merge goes on to
    check out the update branch, merge [pull-request-x] into it and
    delete it; it does not end with the fatal error of the guard. *)
Lemma merge_unrecognized_branch_counterexample :
  let sh := shell_on_branch (u "pull-request-x") in
  let run := command_merge sh (u "o/r") None (fresh_world ∅) in
  ~ matches_at_start (atoms branch_re) (u "pull-request-x")
  /\ get_pull_request_ID (u "pull-request-x") = None
  /\ take 6 (w_trace run.2)
     = [EvPopen current_branch_cmd;
        EvPrintColor (u "Merging pull-request-x into master") (u "status");
        EvSystem (u "git checkout master");
        EvSystem (u "git merge pull-request-x");
        EvPrintColor (u "Deleting branch pull-request-x") (u "status");
        EvSystem (u "git branch -D pull-request-x")]
  /\ run.1 <> not_a_pull_request.
Proof.
  intros sh run.
  split; [by apply match_here_none; vm_compute|].
  split; [by vm_compute|]. split; by vm_compute.
Qed.

(** ** An update through the work directory *)

(** C6 (the code departs from the claim). With [work-dir] set to an
    existing directory and the update started from another checkout,
    [update_branch] switches into the work directory, opens
    [.git/original_dir_path] for binary writing and hands it the
    caller's location as a [str]: the write ends in [TypeError].  The
    file is left empty, and neither the reset and clean of the work
    directory nor the checkout, merge or rebase is run. *)
Theorem update_branch_work_dir_type_error :
  let run := update_branch work_shell (u "pull-request-7") work_world in
  run.1 = Raise TypeError
  /\ w_trace run.2
     = [EvPopen (u "git rev-parse --show-toplevel");
        EvPopen (u "git symbolic-ref HEAD");
        EvPopen (u "git config git-pull-request.work-dir-pull-request-7");
        EvPopen (u "git rev-parse --show-toplevel");
        EvPrintColor (u "Switching to work directory /work") (u "status");
        EvChdir (u "/work")]
  /\ w_blobs run.2 !! u "/work/.git/original_dir_path" = Some []
  /\ (forall path text w, (write_wb path (Str text) w).1 = Raise TypeError).
Proof.
  intros run. split; [by vm_compute|]. split; [by vm_compute|].
  split; [by vm_compute|]. done.
Qed.

(** ** What computations add to the history *)

Section TraceRel.

Variable sh : shell.
Variable P : event -> Prop.

Lemma trace_rel_ret {A} (a : A) : trace_rel P (ret a).
Proof. intros w. exists []. by rewrite app_nil_r. Qed.

Lemma trace_rel_raise {A} e : trace_rel P (@raise A e).
Proof. intros w. exists []. by rewrite app_nil_r. Qed.

Lemma trace_rel_bind {A B} (m : M A) (f : A -> M B) :
  trace_rel P m -> (forall a, trace_rel P (f a)) -> trace_rel P (bind m f).
Proof.
  intros Hm Hf w. unfold bind. destruct (Hm w) as (evs & He & HP).
  destruct (m w) as [[a|e] w1]; cbn [snd] in *; [|by exists evs].
  destruct (Hf a w1) as (evs' & He' & HP'). exists (evs ++ evs').
  rewrite He', He, app_assoc. split; [done|]. by apply Forall_app.
Qed.

Lemma trace_rel_try_except {A} (m : M A) h :
  trace_rel P m -> (forall e, trace_rel P (h e)) -> trace_rel P (try_except m h).
Proof.
  intros Hm Hh w. unfold try_except. destruct (Hm w) as (evs & He & HP).
  destruct (m w) as [[a|e] w1]; cbn [snd] in *; [by exists evs|].
  destruct (Hh e w1) as (evs' & He' & HP'). exists (evs ++ evs').
  rewrite He', He, app_assoc. split; [done|]. by apply Forall_app.
Qed.

Lemma trace_rel_lift {A} (r : result A) : trace_rel P (lift r).
Proof. destruct r; [apply trace_rel_ret|apply trace_rel_raise]. Qed.

Lemma trace_rel_emit e : P e -> trace_rel P (emit e).
Proof. intros HP w. exists [e]. split; [done|]. by constructor. Qed.

Lemma trace_rel_os_system cmd : P (EvSystem cmd) -> trace_rel P (os_system sh cmd).
Proof. intros HP w. exists [EvSystem cmd]. split; [done|]. by constructor. Qed.

Lemma trace_rel_os_popen cmd : P (EvPopen cmd) -> trace_rel P (os_popen sh cmd).
Proof. intros HP w. exists [EvPopen cmd]. split; [done|]. by constructor. Qed.

Lemma trace_rel_silent {A} (m : M A) :
  (forall w, w_trace (m w).2 = w_trace w) -> trace_rel P m.
Proof. intros H w. exists []. by rewrite app_nil_r. Qed.

Lemma trace_rel_exists path : trace_rel P (os_path_exists sh path).
Proof. by apply trace_rel_silent. Qed.

Lemma trace_rel_islink path : trace_rel P (os_path_islink sh path).
Proof. by apply trace_rel_silent. Qed.

Lemma trace_rel_get_world : trace_rel P get_world.
Proof. by apply trace_rel_silent. Qed.

Lemma trace_rel_get_options : trace_rel P get_options.
Proof. by apply trace_rel_silent. Qed.

Lemma trace_rel_load_doc path : trace_rel P (load_doc path).
Proof.
  apply trace_rel_silent. intros w. unfold load_doc.
  by destruct (w_docs w !! path) as [[]|].
Qed.

Lemma trace_rel_dump_doc path v : trace_rel P (dump_doc path v).
Proof. by apply trace_rel_silent. Qed.

Lemma trace_rel_write_wb path data : trace_rel P (write_wb path data).
Proof. apply trace_rel_silent. intros w. unfold write_wb. by destruct data. Qed.

Lemma trace_rel_read_rb path : trace_rel P (read_rb path).
Proof.
  apply trace_rel_silent. intros w. unfold read_rb.
  by destruct (w_blobs w !! path).
Qed.

Lemma trace_rel_set_work_dir d :
  trace_rel P (fun w => (Ok d, with__work_dir d w) : result work_dir_val * world).
Proof. by apply trace_rel_silent. Qed.

End TraceRel.

Create HintDb hist discriminated.

#[export] Hint Resolve trace_rel_ret trace_rel_raise trace_rel_lift
  trace_rel_exists trace_rel_islink trace_rel_get_world trace_rel_get_options
  trace_rel_load_doc trace_rel_dump_doc trace_rel_write_wb trace_rel_read_rb
  trace_rel_set_work_dir : hist.

(** Walk through a computation as [docs_walk] does; what remains are
    the events themselves. *)
Ltac hist_walk :=
  repeat first
    [ solve [eauto with hist]
    | apply trace_rel_bind; [|intros ?]
    | apply trace_rel_try_except; [|intros ?]
    | apply trace_rel_emit
    | apply trace_rel_os_system
    | apply trace_rel_os_popen
    | progress (unfold when, print_, print_color, chdir, os_chdir)
    | match goal with
      | |- trace_rel _ (if ?b then _ else _) => destruct b
      | |- trace_rel _ (match ?x with _ => _ end) => destruct x
      | |- trace_rel _ (let _ := _ in _) => cbn zeta
      end ].

(** ** Continuing an update *)

Section Continue.

Variable sh : shell.

(** Two commands differ when their texts do. *)
Ltac other_event :=
  unfold not_system;
  let H := fresh in
  intros H; first [discriminate H | injection H as H; vm_compute in H; congruence].

Section History.

Variable other : ustring.
Hypothesis other_is :
  other = u "git rebase --continue" \/ other = u "git commit".

Abbreviation P := (not_system other).

Lemma trace_rel_log args : trace_rel P (log args).
Proof. induction args; cbn [log]; hist_walk; other_event. Qed.

Lemma trace_rel_get_current_branch_name ensure :
  trace_rel P (get_current_branch_name sh ensure).
Proof. unfold get_current_branch_name. hist_walk. other_event. Qed.

Lemma trace_rel_meta key value : trace_rel P (meta sh key value).
Proof.
  unfold meta. pose proof trace_rel_get_current_branch_name.
  pose proof trace_rel_log. hist_walk.
Qed.

Lemma trace_rel_update_meta : trace_rel P (update_meta sh).
Proof.
  unfold update_meta. pose proof trace_rel_get_current_branch_name.
  pose proof trace_rel_meta. hist_walk; other_event.
Qed.

Lemma trace_rel_get_git_base_path : trace_rel P (get_git_base_path sh).
Proof. unfold get_git_base_path. hist_walk. other_event. Qed.

Lemma trace_rel_get_work_dir : trace_rel P (get_work_dir sh).
Proof. unfold get_work_dir. hist_walk; other_event. Qed.

Lemma trace_rel_in_work_dir : trace_rel P (in_work_dir sh).
Proof.
  unfold in_work_dir. pose proof trace_rel_get_git_base_path.
  pose proof trace_rel_get_work_dir. hist_walk.
Qed.

Lemma trace_rel_get_original_dir_path : trace_rel P (get_original_dir_path sh).
Proof.
  unfold get_original_dir_path. pose proof trace_rel_get_git_base_path.
  pose proof trace_rel_get_work_dir. hist_walk.
Qed.

Lemma trace_rel_complete_update branch_name :
  trace_rel P (complete_update sh branch_name).
Proof.
  unfold complete_update.
  pose proof trace_rel_in_work_dir. pose proof trace_rel_get_original_dir_path.
  pose proof trace_rel_get_current_branch_name. pose proof trace_rel_update_meta.
  hist_walk; destruct other_is as [-> | ->]; other_event.
Qed.

End History.

Lemma get_work_dir_no_dir w :
  (forall tr p, sh_exists sh tr p = false) ->
  (forall p, w__work_dir w <> WdPath p) ->
  exists w', get_work_dir sh w = (Ok WdFalse, w') /\ later_same w w'.
Proof.
  intros Hex Hwd. unfold get_work_dir, bind, get_world, get_options, os_popen,
    os_path_exists, ret.
  destruct (w__work_dir w) as [| |p] eqn:E; [| |by destruct (Hwd p)].
  - cbv beta iota.
    repeat first
      [ progress (cbv beta iota)
      | progress (cbn [negb is_nil])
      | progress (rewrite ?Hex)
      | match goal with
        | |- context [negb (is_nil ?x)] => destruct (negb (is_nil x))
        | |- context [opt_work_dir ?o] => destruct (opt_work_dir o)
        end ];
      (eexists; split; [reflexivity|]);
      (split; [done|]; split; [done|]; split; [|done]);
      cbn [w_trace with_trace with__work_dir];
      rewrite <- ?app_assoc; by eexists.
  - exists w. split; [done|]. split; [done|]. split; [done|].
    split; [exists []; by rewrite app_nil_r|]. intros p. by rewrite E.
Qed.

Lemma in_work_dir_no_dir w :
  (forall tr p, sh_exists sh tr p = false) ->
  (forall p, w__work_dir w <> WdPath p) ->
  exists w', in_work_dir sh w = (Ok false, w') /\ later_same w w'.
Proof.
  intros Hex Hwd. unfold in_work_dir, bind at 1, get_git_base_path, bind at 1,
    os_popen, ret. cbv beta iota. unfold bind.
  match goal with |- context [get_work_dir sh ?w0] =>
    destruct (get_work_dir_no_dir w0 Hex Hwd) as (w' & -> & Hd & Ho & [evs He] & Hw)
  end.
  exists w'. split; [done|]. split; [done|]. split; [done|]. split; [|done].
  cbn [w_trace with_trace] in He. rewrite <- app_assoc in He. by eexists.
Qed.

Lemma later_same_trans w1 w2 w3 :
  later_same w1 w2 -> later_same w2 w3 -> later_same w1 w3.
Proof.
  intros (Hd & Ho & [evs He] & _) (Hd' & Ho' & [evs' He'] & Hw).
  split; [congruence|]. split; [congruence|]. split; [|done].
  exists (evs ++ evs'). by rewrite He', He, app_assoc.
Qed.

(** Completing an update when no work directory is in use: the record
    is brought up to date and the success is announced. *)
Lemma complete_update_no_dir branch_name w :
  (forall tr p, sh_exists sh tr p = false) ->
  (forall p, w__work_dir w <> WdPath p) ->
  exists w1,
    later_same w w1
    /\ complete_update sh branch_name w =
       match update_meta sh w1 with
       | (Ok _, w2) =>
           (Ok tt,
            with_trace (w_trace w2 ++
                        [EvPrintColor (u "Updating " ++ branch_name ++ u " from "
                                       ++ opt_update_branch (w_options w1)
                                       ++ u " complete") (u "success")]) w2)
       | (Raise e, w2) => (Raise e, w2)
       end.
Proof.
  intros Hex Hwd. unfold complete_update, bind at 1, get_options at 1.
  unfold bind at 1.
  destruct (in_work_dir_no_dir w Hex Hwd) as (w1 & -> & Hl).
  exists w1. split; [done|]. unfold bind, ret, get_options, print_color, emit.
  by destruct (update_meta sh w1) as [[t|e] w2].
Qed.

Lemma continue_update_run w :
  opt_update_method (w_options w) = u "merge"
  \/ opt_update_method (w_options w) = u "rebase" ->
  continue_update sh w =
  let cmd := completion_cmd (opt_update_method (w_options w)) in
  let w1 := with_trace (w_trace w ++ [EvSystem cmd]) w in
  if negb (sh_system sh (w_trace w) cmd =? 0)%Z
  then (Raise (UserWarning (u "Updating from " ++ opt_update_branch (w_options w)
                            ++ u " failed" ++ 10 :: resolve_instruction)), w1)
  else bind (get_current_branch_name sh true) (complete_update sh) w1.
Proof.
  intros Hm. unfold continue_update, bind at 1, get_options at 1.
  cbv beta iota. unfold completion_cmd.
  destruct Hm as [-> | ->].
  - replace (ustring_eqb (u "merge") (u "merge")) with true by by vm_compute.
    unfold bind at 1, os_system at 1. cbv beta iota zeta.
    by destruct (negb _).
  - replace (ustring_eqb (u "rebase") (u "merge")) with false by by vm_compute.
    replace (ustring_eqb (u "rebase") (u "rebase")) with true by by vm_compute.
    unfold bind at 1, os_system at 1. cbv beta iota zeta.
    by destruct (negb _).
Qed.

Lemma continue_update_history w other :
  opt_update_method (w_options w) = u "merge"
  \/ opt_update_method (w_options w) = u "rebase" ->
  other = u "git rebase --continue" \/ other = u "git commit" ->
  exists evs,
    w_trace (continue_update sh w).2
    = w_trace w ++ EvSystem (completion_cmd (opt_update_method (w_options w))) :: evs
    /\ Forall (not_system other) evs.
Proof.
  intros Hm Ho. rewrite (continue_update_run w Hm). cbv zeta.
  destruct (negb _).
  - exists []. by split.
  - match goal with |- context [bind ?m ?f ?w1] =>
      destruct (trace_rel_bind (not_system other) m f
                  (trace_rel_get_current_branch_name other true)
                  (trace_rel_complete_update other Ho) w1) as (evs & He & HP)
    end.
    exists evs. split; [|done]. rewrite He. cbn [w_trace with_trace].
    by rewrite <- app_assoc.
Qed.

Lemma continue_update_success w n d :
  opt_update_method (w_options w) = u "merge"
  \/ opt_update_method (w_options w) = u "rebase" ->
  sh_system sh (w_trace w)
            (completion_cmd (opt_update_method (w_options w))) = 0%Z ->
  (forall evs,
     get_pull_request_ID (current_branch sh (w_trace w ++ evs)) = Some n) ->
  (forall tr p, sh_exists sh tr p = false) ->
  (forall p, w__work_dir w <> WdPath p) ->
  w_docs w !! treeish_path sh (JInt n) = Some (Encoded (JObj d)) ->
  exists w' tr1 tr2 branch,
    continue_update sh w = (Ok tt, w')
    /\ w_docs w' =
       <[treeish_path sh (JInt n) :=
           Encoded (JObj (dict_set (u "updated")
             (commit_pair
                (JStr (take 10 (strip (sh_popen sh tr1
                   (u "git merge-base " ++ opt_update_branch (w_options w)
                    ++ u " " ++ branch)))))
                (JStr (take 10 (strip (sh_popen sh tr2 (u "git rev-parse HEAD"))))))
             d))]> (w_docs w).
Proof.
  intros Hm Hcode Hid Hex Hwd Hdoc.
  rewrite (continue_update_run w Hm). cbv zeta. rewrite Hcode.
  change (negb (0 =? 0)%Z) with false. cbv iota.
  set (w1 := with_trace _ w).
  unfold bind at 1.
  rewrite (get_current_branch_name_pass sh w1
             (get_pull_request_ID_prefix _ _ (Hid [EvSystem _]))).
  set (branch := current_branch sh (w_trace w1)).
  destruct (complete_update_no_dir branch (asked_branch w1) Hex Hwd)
    as (w2 & (Hd2 & Ho2 & [evs2 He2] & Hw2) & ->).
  cbn [w_docs w_options w_trace asked_branch with_trace w1] in Hd2, Ho2, He2.
  rewrite <- !app_assoc in He2.
  rewrite update_meta_run. cbv zeta.
  rewrite He2, (get_pull_request_ID_prefix _ _ (Hid _)).
  change (negb (ustring_eqb (u "pull-request-") (u "pull-request-"))) with false.
  cbv iota.
  match goal with |- context [meta sh ?k ?v ?w0] =>
    assert (Hrun : meta sh k v w0 =
      (Ok v, with_docs (<[treeish_path sh (JInt n) :=
                Encoded (JObj (dict_set (u "updated") v d))]> (w_docs w0))
                (asked_branch w0)))
  end.
  { apply meta_write_run; [apply updated_no_dot|done| |].
    - cbn [w_trace with_trace asked_branch]. rewrite He2, <- !app_assoc. apply Hid.
    - cbn [w_docs with_trace asked_branch]. by rewrite Hd2. }
  rewrite Hrun. cbn [snd].
  eexists _, _, _, _. split; [reflexivity|].
  cbn [w_docs with_trace with_docs asked_branch]. by rewrite Hd2, Ho2.
Qed.

(** C4. With the update method set to [merge] or [rebase],
    [continue_update] begins by running the completion command of that
    method, [git commit] for a merge and [git rebase --continue] for a
    rebase, and nothing it does afterwards runs either completion
    command: the one of the other method is never run.  When the command
    exits with a code other than zero, the run stops there with the
    warning whose second line is the instruction to resolve the
    conflicts and run continue-update, and no record file has been
    written.  When it exits with zero, the run goes on to ask for the
    current branch and to complete the update; where git stays on the
    branch of request [n], no work directory is in use and the record of
    [n] exists, it returns normally and leaves the record with its
    [updated] field set to the commit pair just recomputed. *)
Theorem continue_update_completion_half w :
  opt_update_method (w_options w) = u "merge"
  \/ opt_update_method (w_options w) = u "rebase" ->
  let cmd := completion_cmd (opt_update_method (w_options w)) in
  let w1 := with_trace (w_trace w ++ [EvSystem cmd]) w in
  (exists evs,
     w_trace (continue_update sh w).2 = w_trace w ++ EvSystem cmd :: evs
     /\ Forall (not_system (u "git commit")) evs
     /\ Forall (not_system (u "git rebase --continue")) evs)
  /\ (sh_system sh (w_trace w) cmd <> 0%Z ->
      continue_update sh w =
      (Raise (UserWarning (u "Updating from " ++ opt_update_branch (w_options w)
                           ++ u " failed" ++ 10 :: resolve_instruction)), w1)
      /\ w_docs (continue_update sh w).2 = w_docs w)
  /\ (sh_system sh (w_trace w) cmd = 0%Z ->
      continue_update sh w
      = bind (get_current_branch_name sh true) (complete_update sh) w1
      /\ forall n d,
          (forall evs,
             get_pull_request_ID (current_branch sh (w_trace w ++ evs)) = Some n) ->
          (forall tr p, sh_exists sh tr p = false) ->
          (forall p, w__work_dir w <> WdPath p) ->
          w_docs w !! treeish_path sh (JInt n) = Some (Encoded (JObj d)) ->
          exists w' tr1 tr2 branch,
            continue_update sh w = (Ok tt, w')
            /\ w_docs w' =
               <[treeish_path sh (JInt n) :=
                   Encoded (JObj (dict_set (u "updated")
                     (commit_pair
                        (JStr (take 10 (strip (sh_popen sh tr1
                           (u "git merge-base " ++ opt_update_branch (w_options w)
                            ++ u " " ++ branch)))))
                        (JStr (take 10 (strip (sh_popen sh tr2
                           (u "git rev-parse HEAD"))))))
                     d))]> (w_docs w)).
Proof.
  intros Hm cmd w1. split; [|split].
  - destruct (continue_update_history w (u "git commit") Hm (or_intror eq_refl))
      as (evs & He & HP).
    destruct (continue_update_history w (u "git rebase --continue") Hm
                (or_introl eq_refl)) as (evs' & He' & HP').
    exists evs. split; [done|]. split; [done|].
    rewrite He in He'. apply app_inv_head in He'. by injection He' as ->.
  - intros Hcode. rewrite (continue_update_run w Hm). cbv zeta.
    fold cmd. apply Z.eqb_neq in Hcode. by rewrite Hcode.
  - intros Hcode. split.
    + rewrite (continue_update_run w Hm). cbv zeta. fold cmd.
      by rewrite Hcode.
    + intros n d. by apply continue_update_success.
Qed.

End Continue.

(** C4, witness: a merge of request 42 whose conflicts are still there,
    and the same merge once they are resolved. *)
Lemma continue_update_completion_half_witness :
  (continue_update conflict_shell world_42 =
   (Raise (UserWarning (u "Updating from " ++ u "master" ++ u " failed"
                        ++ 10 :: resolve_instruction)),
    with_trace [EvSystem (u "git commit")] world_42)
   /\ w_docs (continue_update conflict_shell world_42).2 = w_docs world_42)
  /\ exists w' tr1 tr2 branch,
       continue_update (shell_on_branch (u "pull-request-42")) world_42 = (Ok tt, w')
       /\ w_docs w' =
          <[u "/tmp/git-pull-request-treeish-42" :=
              Encoded (JObj (dict_set (u "updated")
                (commit_pair
                   (JStr (take 10 (strip (sh_popen (shell_on_branch (u "pull-request-42"))
                      tr1 (u "git merge-base " ++ u "master" ++ u " " ++ branch)))))
                   (JStr (take 10 (strip (sh_popen (shell_on_branch (u "pull-request-42"))
                      tr2 (u "git rev-parse HEAD"))))))
                [(u "username", JStr (u "octocat"));
                 (u "original", commit_pair (JStr (u "fedcba9876"))
                                            (JStr (u "0123456789")))]))]>
            (w_docs world_42).
Proof.
  split.
  - exact (proj1 (proj2 (continue_update_completion_half conflict_shell world_42
                           (or_introl eq_refl)))
                 ltac:(by vm_compute)).
  - exact (proj2 (proj2 (proj2 (continue_update_completion_half
                                  (shell_on_branch (u "pull-request-42")) world_42
                                  (or_introl eq_refl)))
                        eq_refl)
                 42%Z
                 [(u "username", JStr (u "octocat"));
                  (u "original", commit_pair (JStr (u "fedcba9876"))
                                             (JStr (u "0123456789")))]
                 (fun evs => eq_refl)
                 (fun tr p => eq_refl)
                 ltac:(by vm_compute)
                 ltac:(by vm_compute)).
Defined.

(** * Further properties of the code *)

(** ** Descriptions: tags and blank lines *)

Lemma strip_tags_go_no_angle quote tag s c :
  (quote = true -> tag = true) ->
  c ∈ strip_tags_go quote tag s -> c <> 60 /\ c <> 62.
Proof.
  revert quote tag. induction s as [|x s IH]; intros quote tag Hq;
    cbn [strip_tags_go].
  - by intros ?%elem_of_nil.
  - destruct quote, tag; try (by specialize (Hq eq_refl));
      cbn [negb andb]; rewrite ?andb_true_r, ?andb_false_r;
      destruct (x =? 60) eqn:E1; destruct (x =? 62) eqn:E2;
      destruct ((x =? 34) || (x =? 39)) eqn:E3; cbn [negb andb orb];
      intros H;
      first [ apply elem_of_cons in H as [-> | H];
              [split; by apply N.eqb_neq|] | idtac ];
      (eapply IH; [|exact H]); done.
Qed.

Lemma strip_tags_go_plain s :
  Forall (fun c => c <> 60 /\ c <> 62) s -> strip_tags_go false false s = s.
Proof.
  induction 1 as [|x s [H1 H2] _ IH]; cbn [strip_tags_go]; [done|].
  apply N.eqb_neq in H1, H2. rewrite H1, H2. cbn [andb negb].
  by rewrite andb_false_r, IH.
Qed.

Lemma sub_html_blocks_plain s :
  Forall (fun c => c <> 60) s -> sub_html_blocks 0 s = s.
Proof.
  induction 1 as [|x s H1 _ IH]; cbn [sub_html_blocks]; [done|].
  change (u "<html>") with (60 :: u "html>"). cbn [starts_with].
  apply N.eqb_neq in H1. rewrite H1. cbn [andb]. by rewrite IH.
Qed.

Lemma strip_html_tags_fixed s :
  Forall (fun c => c <> 60 /\ c <> 62) s -> strip_html_tags s = s.
Proof.
  intros H. unfold strip_html_tags. rewrite sub_html_blocks_plain.
  - by apply strip_tags_go_plain.
  - eapply Forall_impl; [exact H|]. by intros c [? _].
Qed.

(** What [strip_html_tags] returns holds neither [<] nor [>], whatever
    the text it was given, well-formed HTML or not; hence to strip a
    second time changes nothing. *)
Theorem strip_html_tags_no_angle_bracket html_raw :
  (60 ∉ strip_html_tags html_raw)
  /\ (62 ∉ strip_html_tags html_raw)
  /\ strip_html_tags (strip_html_tags html_raw) = strip_html_tags html_raw.
Proof.
  assert (H : forall c, c ∈ strip_html_tags html_raw -> c <> 60 /\ c <> 62).
  { intros c. by apply strip_tags_go_no_angle. }
  split; [|split].
  - intros Hc. by destruct (H _ Hc).
  - intros Hc. by destruct (H _ Hc).
  - apply strip_html_tags_fixed. by apply Forall_forall.
Qed.

(** A text that holds neither [<] nor [>] comes out of
    [strip_html_tags] as it went in. *)
Theorem strip_html_tags_plain_text html_raw :
  60 ∉ html_raw -> 62 ∉ html_raw -> strip_html_tags html_raw = html_raw.
Proof.
  intros H1 H2. apply strip_html_tags_fixed, Forall_forall.
  intros c Hc. split; intros ->; done.
Qed.

Lemma strip_html_tags_plain_text_witness :
  strip_html_tags (u "Fix the 'build' & ship it") = u "Fix the 'build' & ship it".
Proof.
  apply strip_html_tags_plain_text.
  - by vm_compute; intros H;
      repeat (apply elem_of_cons in H as [H|H]; [done|]); inversion H.
  - by vm_compute; intros H;
      repeat (apply elem_of_cons in H as [H|H]; [done|]); inversion H.
Defined.

(** *** Lines *)

Lemma splitlines_cons_plain c s :
  is_linebreak c = false ->
  splitlines (c :: s) = match splitlines s with
                        | l :: ls => (c :: l) :: ls
                        | [] => [[c]]
                        end.
Proof. intros H. cbn [splitlines]. by rewrite H. Qed.

Lemma splitlines_no_linebreak_le n s :
  (length s <= n)%nat -> Forall no_linebreak (splitlines s).
Proof.
  revert s. induction n as [|n IH]; intros [|c s] Hn; cbn [length] in Hn;
    try lia; cbn [splitlines]; [constructor|constructor|].
  assert (Hs : Forall no_linebreak (splitlines s)) by (apply IH; lia).
  destruct (is_linebreak c) eqn:E.
  - constructor; [constructor|].
    destruct (c =? 13); [|done].
    destruct s as [|c' s']; [done|].
    destruct (c' =? 10); [|done].
    apply IH. cbn [length] in Hn. lia.
  - destruct (splitlines s) as [|l ls]; [by repeat constructor|].
    inversion Hs; subst. constructor; [by constructor|done].
Qed.

Lemma splitlines_no_linebreak s : Forall no_linebreak (splitlines s).
Proof. by apply (splitlines_no_linebreak_le (length s)). Qed.

Lemma splitlines_line l :
  l <> [] -> no_linebreak l -> splitlines l = [l].
Proof.
  intros Hne H. induction H as [|c l Hc H IH]; [done|].
  rewrite (splitlines_cons_plain _ _ Hc).
  destruct l as [|c' l']; [done|]. by rewrite IH.
Qed.

Lemma splitlines_app_nl l rest :
  no_linebreak l -> splitlines (l ++ 10 :: rest) = l :: splitlines rest.
Proof.
  induction 1 as [|c l Hc H IH]; [done|].
  cbn [app]. by rewrite (splitlines_cons_plain _ _ Hc), IH.
Qed.

Lemma splitlines_join_nl lines :
  Forall no_linebreak lines -> last lines <> Some [] ->
  splitlines (join_nl lines) = lines.
Proof.
  induction 1 as [|l ls Hl Hls IH]; [done|]. intros Hlast.
  cbn [join_nl]. destruct ls as [|l' ls'].
  - apply splitlines_line; [|done]. by intros ->.
  - rewrite splitlines_app_nl by done. f_equal. apply IH.
    by rewrite last_cons_cons in Hlast.
Qed.

Lemma drop_blank_spec lines :
  exists pre, lines = pre ++ drop_blank lines
              /\ Forall (fun l => blank l = true) pre
              /\ forall l, head (drop_blank lines) = Some l -> blank l = false.
Proof.
  induction lines as [|l ls (pre & E & Hpre & Hhd)]; cbn [drop_blank].
  - by exists [].
  - destruct (blank l) eqn:B.
    + exists (l :: pre). split; [by rewrite E at 1|]. split; [by constructor|done].
    + exists []. split; [done|]. split; [constructor|]. by intros ? [= <-].
Qed.

Lemma drop_blank_fixed lines :
  (forall l, head lines = Some l -> blank l = false) ->
  drop_blank lines = lines.
Proof.
  destruct lines as [|l ls]; [done|]. intros H. cbn [drop_blank].
  by rewrite (H l eq_refl).
Qed.

Lemma head_rev {A} (l : list A) : head (rev l) = last l.
Proof.
  replace (rev l) with (reverse l) by (unfold reverse; by rewrite rev_alt).
  apply head_reverse.
Qed.

(** The lines that are left when the blank lines at both ends are
    dropped. *)
Lemma trimmed_spec lines :
  let kept := rev (drop_blank (rev (drop_blank lines))) in
  exists pre post,
    lines = pre ++ kept ++ post
    /\ Forall (fun l => blank l = true) pre
    /\ Forall (fun l => blank l = true) post
    /\ (forall l, head kept = Some l -> blank l = false)
    /\ (forall l, last kept = Some l -> blank l = false).
Proof.
  intros kept. subst kept.
  destruct (drop_blank_spec lines) as (pre & E & Hpre & Hhd).
  destruct (drop_blank_spec (rev (drop_blank lines))) as (post & E' & Hpost & Hhd').
  set (A := drop_blank lines) in *. set (B := drop_blank (rev A)) in *.
  assert (EA : A = rev B ++ rev post).
  { rewrite <- (rev_involutive A), E', rev_app_distr. done. }
  exists pre, (rev post). split; [by rewrite E at 1; rewrite EA|].
  split; [done|]. split; [by apply Forall_rev|]. split.
  - intros l Hl. apply Hhd. rewrite EA.
    destruct (rev B); [done|]. done.
  - intros l Hl. apply Hhd'. rewrite <- (rev_involutive B).
    by rewrite head_rev.
Qed.

(** [strip_empty_lines] removes the blank lines before the first and
    after the last line that is not blank, and those only: the lines of
    its result are the lines of [text] between two runs of blank lines,
    and the first and the last of them are not blank. *)
Theorem strip_empty_lines_trims text :
  exists pre post,
    splitlines text = pre ++ splitlines (strip_empty_lines text) ++ post
    /\ Forall (fun l => blank l = true) pre
    /\ Forall (fun l => blank l = true) post
    /\ (forall l, head (splitlines (strip_empty_lines text)) = Some l ->
                  blank l = false)
    /\ (forall l, last (splitlines (strip_empty_lines text)) = Some l ->
                  blank l = false).
Proof.
  destruct (trimmed_spec (splitlines text))
    as (pre & post & E & Hpre & Hpost & Hhd & Hlast).
  unfold strip_empty_lines. cbv zeta.
  set (kept := rev (drop_blank (rev (drop_blank (splitlines text))))) in *.
  assert (Hs : splitlines (join_nl kept) = kept).
  { apply splitlines_join_nl.
    - pose proof (splitlines_no_linebreak text) as H. rewrite E in H.
      apply Forall_app in H as [_ H]. by apply Forall_app in H as [H _].
    - intros H. by specialize (Hlast _ H). }
  rewrite Hs. by exists pre, post.
Qed.

(** To strip the empty lines of a text that [strip_empty_lines] has
    returned changes nothing. *)
Theorem strip_empty_lines_idempotent text :
  strip_empty_lines (strip_empty_lines text) = strip_empty_lines text.
Proof.
  destruct (trimmed_spec (splitlines text))
    as (pre & post & E & Hpre & Hpost & Hhd & Hlast).
  unfold strip_empty_lines. cbv zeta.
  set (kept := rev (drop_blank (rev (drop_blank (splitlines text))))) in *.
  assert (Hs : splitlines (join_nl kept) = kept).
  { apply splitlines_join_nl.
    - pose proof (splitlines_no_linebreak text) as H. rewrite E in H.
      apply Forall_app in H as [_ H]. by apply Forall_app in H as [H _].
    - intros H. by specialize (Hlast _ H). }
  rewrite Hs, (drop_blank_fixed kept Hhd).
  rewrite (drop_blank_fixed (rev kept)); [by rewrite rev_involutive|].
  intros l Hl. apply Hlast. by rewrite <- head_rev.
Qed.

(** ** The title of a pull request *)

Lemma digit_not_upper c : 48 <= c <= 57 -> is_upper c = false.
Proof.
  intros H. unfold is_upper. apply andb_false_iff. left. apply N.leb_gt. lia.
Qed.

Lemma in_lang_ticket_head t :
  in_lang (atoms ticket_re) t -> exists c t', t = c :: t' /\ is_upper c = true.
Proof.
  intros H. destruct (in_lang_ticket is_decimal t H) as (U & D & -> & HU & HlU & _).
  destruct HU as [|c U Hc HU]; [cbn in HlU; lia|]. by exists c, (U ++ 45 :: D).
Qed.

Lemma get_jira_ticket_no_upper s :
  Forall (fun c => is_upper c = false) s -> get_jira_ticket s = [].
Proof.
  intros Hs. destruct (get_jira_ticket_spec s) as [[E _]|[_ Hf]]; [done|].
  exfalso. destruct Hf as (pre & rest & E & Hl & _).
  destruct (in_lang_ticket_head _ Hl) as (c & t' & Et & Hc).
  rewrite Et in E. rewrite E in Hs.
  apply Forall_app in Hs as [_ Hs]. inversion Hs; congruence.
Qed.

Lemma get_jira_ticket_after pre t :
  Forall (fun c => is_upper c = false) pre ->
  in_lang (atoms ticket_re) t ->
  get_jira_ticket (pre ++ t) = t.
Proof.
  intros Hpre Hl.
  destruct (get_jira_ticket_spec (pre ++ t)) as [[_ Hn]|[_ Hf]].
  - exfalso. apply (Hn pre t []); [by rewrite app_nil_r|done].
  - apply (first_match_unique _ _ _ _ Hf). exists pre, [].
    split; [by rewrite app_nil_r|]. split; [done|]. split.
    + intros pre' t' rest' E Hl'.
      destruct (decide (length pre <= length pre')%nat) as [|Hlt]; [done|].
      exfalso. destruct (in_lang_ticket_head _ Hl') as (c & t'' & -> & Hc).
      assert (Hc' : (pre ++ t) !! length pre' = Some c).
      { rewrite E. cbn [app]. apply list_lookup_middle. done. }
      rewrite lookup_app_l in Hc' by lia.
      eapply Forall_lookup_1 in Hpre; [|exact Hc']. cbn beta in Hpre. congruence.
    + intros t' rest' E _. rewrite app_nil_r in E. rewrite E, length_app. lia.
Qed.

(** The title [build_pull_request_title] gives for a title it has given
    is that title again: a ticket is its own first ticket. *)
Theorem build_pull_request_title_idempotent branch_name :
  build_pull_request_title (build_pull_request_title branch_name)
  = build_pull_request_title branch_name.
Proof.
  unfold build_pull_request_title.
  destruct (get_jira_ticket_spec branch_name) as [[E _]|[Hne Hf]].
  - rewrite E. cbn [is_nil negb]. by rewrite E.
  - rewrite (is_nil_false _ Hne). cbn [negb].
    destruct Hf as (_ & _ & _ & Hl & _).
    pose proof (get_jira_ticket_after [] _ (Forall_nil_2 _) Hl) as Hfix.
    cbn [app] in Hfix. by rewrite Hfix, (is_nil_false _ Hne).
Qed.

Lemma branch_prefix_no_upper n :
  Forall (fun c => is_upper c = false) (u "pull-request-" ++ str_of_Z n).
Proof.
  apply Forall_app. split; [by vm_compute; repeat constructor|].
  assert (H : forall m, Forall (fun c => is_upper c = false) (str_of_N m)).
  { intros m. destruct (str_of_N_spec m) as (_ & Hd & _).
    eapply Forall_impl; [exact Hd|]. intros c Hc. by apply digit_not_upper. }
  destruct n; cbn [str_of_Z]; [apply H|apply H|].
  constructor; [done|apply H].
Qed.

(** For a pull request whose number is an integer and whose head
    reference and title are text, the title that
    [build_pull_request_title] derives from the branch name
    [build_branch_name] gives is the ticket that went into that name, the
    one of the head reference before the one of the title; when neither
    holds a ticket it is the whole name [pull-request-<number>]. *)
Theorem build_pull_request_title_of_branch_name sh pr head (n : Z) ref title :
  py_getitem pr (u "number") = Ok (JInt n) ->
  py_getitem pr (u "head") = Ok head ->
  py_getitem head (u "ref") = Ok (JStr ref) ->
  py_getitem pr (u "title") = Ok (JStr title) ->
  exists branch_name,
    build_branch_name sh pr = Ok branch_name
    /\ build_pull_request_title branch_name =
       if negb (is_nil (get_jira_ticket ref)) then get_jira_ticket ref
       else if negb (is_nil (get_jira_ticket title)) then get_jira_ticket title
       else u "pull-request-" ++ str_of_Z n.
Proof.
  intros Hn Hh Hr Ht. rewrite (build_branch_name_eq sh pr head n ref title Hn Hh Hr Ht).
  eexists. split; [reflexivity|].
  assert (Hticket : forall text,
    get_jira_ticket text <> [] ->
    build_pull_request_title
      (u "pull-request-" ++ str_of_Z n ++ 45 :: get_jira_ticket text)
    = get_jira_ticket text).
  { intros text Hne.
    destruct (get_jira_ticket_spec text) as [[E _]|[_ Hf]]; [done|].
    destruct Hf as (_ & _ & _ & Hl & _).
    assert (E : get_jira_ticket (u "pull-request-" ++ str_of_Z n
                                 ++ 45 :: get_jira_ticket text)
                = get_jira_ticket text).
    { replace (u "pull-request-" ++ str_of_Z n ++ 45 :: get_jira_ticket text)
        with (((u "pull-request-" ++ str_of_Z n) ++ [45]) ++ get_jira_ticket text)
        by (by rewrite <- !app_assoc).
      apply get_jira_ticket_after; [|done].
      apply Forall_app. split; [apply branch_prefix_no_upper|by repeat constructor]. }
    unfold build_pull_request_title. by rewrite E, (is_nil_false _ Hne). }
  destruct (get_jira_ticket ref) as [|c t] eqn:Eref; cbn [is_nil negb].
  - destruct (get_jira_ticket title) as [|c t] eqn:Etitle; cbn [is_nil negb].
    + rewrite app_nil_r. unfold build_pull_request_title.
      by rewrite (get_jira_ticket_no_upper _ (branch_prefix_no_upper n)).
    + rewrite <- Etitle. apply Hticket. by rewrite Etitle.
  - rewrite <- Eref. apply Hticket. by rewrite Eref.
Qed.

Lemma build_pull_request_title_of_branch_name_witness :
  exists branch_name,
    build_branch_name quiet_shell pull_42 = Ok branch_name
    /\ build_pull_request_title branch_name = u "JIRA-99".
Proof.
  exact (build_pull_request_title_of_branch_name quiet_shell pull_42
    (JObj [(u "ref", JStr (u "JIRA-99-fix")); (u "sha", JStr (u "0123456789abcdef0123"))])
    42 (u "JIRA-99-fix") (u "Fix it") eq_refl eq_refl eq_refl eq_refl).
Defined.

(** ** The files of the records *)

Lemma str_of_N_inj n m : str_of_N n = str_of_N m -> n = m.
Proof.
  intros E. destruct (str_of_N_spec n) as (_ & _ & Hn).
  destruct (str_of_N_spec m) as (_ & _ & Hm). congruence.
Qed.

Lemma str_of_N_head n : exists c s, str_of_N n = c :: s /\ c <> 45.
Proof.
  destruct (str_of_N_spec n) as (Hne & Hd & _).
  destruct (str_of_N n) as [|c s]; [done|]. exists c, s. split; [done|].
  inversion Hd; subst. lia.
Qed.

Lemma str_of_Z_inj n m : str_of_Z n = str_of_Z m -> n = m.
Proof.
  assert (Hneg : forall p k, 45 :: str_of_N p <> str_of_N k).
  { intros p k E. destruct (str_of_N_head k) as (c & s & Ek & Hc). congruence. }
  destruct n as [|n|n], m as [|m|m]; unfold str_of_Z; cbn [Z.to_N]; intros E;
    try done;
    try (by apply str_of_N_inj in E; first [discriminate E | injection E as ->]);
    try (by destruct (Hneg _ _ E)); try (by symmetry in E; destruct (Hneg _ _ E)).
  injection E as E. apply str_of_N_inj in E. by injection E as ->.
Qed.

(** The records of two pull requests with different numbers are kept in
    different files. *)
Theorem treeish_path_distinct sh (n m : Z) :
  n <> m -> treeish_path sh (JInt n) <> treeish_path sh (JInt m).
Proof.
  intros Hne E. apply Hne. unfold treeish_path, get_tmp_path in E.
  unfold py_str in E. apply app_inv_head in E. injection E as E.
  by apply str_of_Z_inj.
Qed.

Lemma treeish_path_distinct_witness :
  treeish_path quiet_shell (JInt 7) <> treeish_path quiet_shell (JInt 42).
Proof. apply treeish_path_distinct. lia. Defined.

(** ** Requests to GitHub *)

(** [github_json_request], step by step. *)
Lemma github_json_request_run sh url params w :
  github_json_request sh url params w =
  let encode_data := match params with
                     | Some p => if truthy p then Some p else None
                     | None => None
                     end in
  let post := bool_decide (is_Some encode_data) in
  let w1 := if w_DEBUG w then with_trace (w_trace w ++ [EvPrint url]) w else w in
  let w2 := with_trace (w_trace w1 ++ [EvRequest post url encode_data]) w1 in
  match sh_http sh (w_trace w1) post url encode_data with
  | ConnectionFailed => (Raise AttributeError, w2)
  | Response _ (NotJson []) =>
      (Raise (UserWarning (u "Invalid response from github")), w2)
  | Response _ (NotJson (_ :: _)) => (Raise JSONDecodeError, w2)
  | Response _ (Encoded v) => (Ok v, w2)
  end.
Proof.
  unfold github_json_request, github_request, bind, get_world, when, print_, emit,
    ret, raise.
  cbv zeta. destruct (w_DEBUG w); cbv beta iota;
    (destruct (sh_http sh _ _ url _) as [|status [[|c s]|v]]; reflexivity).
Qed.

Section Requests.

Variable sh : shell.


Lemma filter_pulls_cons update_branch pull rest :
  filter_pulls update_branch (pull :: rest) =
  (base <-- py_getitem pull (u "base") ;;
   ref <-- py_getitem base (u "ref") ;;
   kept <-- filter_pulls update_branch rest ;;
   Ok (if py_eq_str ref update_branch then pull :: kept else kept))%py.
Proof. reflexivity. Qed.

Lemma filter_pulls_ok update_branch pulls :
  Forall has_base_ref pulls ->
  filter_pulls update_branch pulls
  = Ok (List.filter (on_branch update_branch) pulls).
Proof.
  induction 1 as [|pull pulls [ref Hpull] _ IH]; [done|].
  rewrite filter_pulls_cons. cbn [List.filter]. unfold on_branch. rewrite Hpull.
  unfold base_ref, rbind in Hpull.
  destruct (py_getitem pull (u "base")) as [base|e]; [|done].
  cbn [rbind]. rewrite Hpull, IH. cbn [rbind].
  by destruct (py_eq_str ref update_branch).
Qed.

Lemma filter_pulls_raise update_branch pulls :
  Exists (fun pull => ~ has_base_ref pull) pulls ->
  exists e, filter_pulls update_branch pulls = Raise e.
Proof.
  induction 1 as [pull pulls Hpull|pull pulls _ [e IH]]; rewrite filter_pulls_cons.
  - unfold has_base_ref, base_ref, rbind in Hpull.
    destruct (py_getitem pull (u "base")) as [base|e]; cbn [rbind]; [|by eexists].
    destruct (py_getitem base (u "ref")) as [ref|e]; cbn [rbind]; [|by eexists].
    destruct Hpull. by eexists.
  - destruct (py_getitem pull (u "base")) as [base|e']; cbn [rbind]; [|by eexists].
    destruct (py_getitem base (u "ref")) as [ref|e']; cbn [rbind]; [|by eexists].
    rewrite IH. cbn [rbind]. by eexists.
Qed.

(** When GitHub answers the query for the open pull requests of a
    repository with the list [pulls], [get_pull_requests] returns that
    list as it is if it is not to filter; if it is to filter and every
    pull request names its base branch, it returns those whose base
    branch is the update branch, in the order of the reply; and it
    raises if one of them names no base branch. *)
Theorem get_pull_requests_filter repo status pulls w :
  (forall tr, sh_http sh tr false
                (get_api_url (u "repos/" ++ repo ++ u "/pulls")) None
              = Response status (Encoded (JArr pulls))) ->
  (get_pull_requests sh repo false w).1 = Ok (JArr pulls)
  /\ (Forall has_base_ref pulls ->
      (get_pull_requests sh repo true w).1
      = Ok (JArr (List.filter (on_branch (opt_update_branch (w_options w))) pulls)))
  /\ (Exists (fun pull => ~ has_base_ref pull) pulls ->
      exists e, (get_pull_requests sh repo true w).1 = Raise e).
Proof.
  intros Hhttp.
  assert (Hreq : exists w2,
    github_json_request sh (get_api_url (u "repos/" ++ repo ++ u "/pulls")) None w
    = (Ok (JArr pulls), w2) /\ w_options w2 = w_options w).
  { rewrite github_json_request_run. cbv zeta.
    change (bool_decide (is_Some (@None json))) with false.
    rewrite Hhttp. eexists. split; [reflexivity|]. by destruct (w_DEBUG w). }
  destruct Hreq as (w2 & Hreq & Hopts).
  unfold get_pull_requests, bind. rewrite Hreq. split; [done|].
  unfold get_options, lift, py_iter, ret. rewrite Hopts. split.
  - intros Hall. by rewrite (filter_pulls_ok _ _ Hall).
  - intros Hsome.
    destruct (filter_pulls_raise (opt_update_branch (w_options w)) _ Hsome) as [e ->].
    by exists e.
Qed.

End Requests.

Lemma get_pull_requests_filter_witness :
  (get_pull_requests
     (github_shell (u "master") 200
        (Encoded (JArr [pull_42;
                        JObj [(u "number", JInt 43);
                              (u "base", JObj [(u "ref", JStr (u "7.4.x"))])]])))
     (u "o/r") true (fresh_world ∅)).1
  = Ok (JArr [pull_42]).
Proof.
  refine (proj1 (proj2 (get_pull_requests_filter
    (github_shell (u "master") 200
        (Encoded (JArr [pull_42;
                        JObj [(u "number", JInt 43);
                              (u "base", JObj [(u "ref", JStr (u "7.4.x"))])]])))
    (u "o/r") 200
    [pull_42;
     JObj [(u "number", JInt 43);
           (u "base", JObj [(u "ref", JStr (u "7.4.x"))])]]
    (fresh_world ∅) (fun tr => eq_refl))) _).
  repeat constructor; by eexists.
Defined.

(** ** The work directory *)

Section WorkDir.

Variable sh : shell.


End WorkDir.


(** ** What a computation leaves in the history *)

Lemma trace_rel_mono {A : Type} (P Q : event -> Prop) (m : M A) :
  (forall e, P e -> Q e) -> trace_rel P m -> trace_rel Q m.
Proof.
  intros HPQ Hm w. destruct (Hm w) as (evs & He & HP). exists evs.
  split; [done|]. eapply Forall_impl; [exact HP|done].
Qed.

Section Quiet.

Variable sh : shell.

Abbreviation Q := no_command.

Ltac quiet_walk := hist_walk; try exact I.

Lemma quiet_log args : trace_rel Q (log args).
Proof. induction args; cbn [log]; quiet_walk. Qed.

Lemma quiet_get_current_branch_name ensure :
  trace_rel Q (get_current_branch_name sh ensure).
Proof. unfold get_current_branch_name. quiet_walk. Qed.

Lemma quiet_display_status : trace_rel Q (display_status sh).
Proof.
  unfold display_status. pose proof quiet_get_current_branch_name. quiet_walk.
Qed.

Lemma quiet_meta key value : trace_rel Q (meta sh key value).
Proof.
  unfold meta. pose proof quiet_get_current_branch_name.
  pose proof quiet_log. quiet_walk.
Qed.

Lemma quiet_update_meta : trace_rel Q (update_meta sh).
Proof.
  unfold update_meta. pose proof quiet_get_current_branch_name.
  pose proof quiet_meta. quiet_walk.
Qed.

Lemma quiet_get_git_base_path : trace_rel Q (get_git_base_path sh).
Proof. unfold get_git_base_path. quiet_walk. Qed.

Lemma quiet_get_work_dir : trace_rel Q (get_work_dir sh).
Proof. unfold get_work_dir. quiet_walk. Qed.

Lemma quiet_in_work_dir : trace_rel Q (in_work_dir sh).
Proof.
  unfold in_work_dir. pose proof quiet_get_git_base_path.
  pose proof quiet_get_work_dir. quiet_walk.
Qed.

Lemma quiet_github_json_request url params :
  trace_rel Q (github_json_request sh url params).
Proof. unfold github_json_request, github_request. quiet_walk. Qed.

Lemma quiet_get_pull_request repo pid : trace_rel Q (get_pull_request sh repo pid).
Proof. unfold get_pull_request. apply quiet_github_json_request. Qed.

Lemma quiet_get_pull_requests repo filter :
  trace_rel Q (get_pull_requests sh repo filter).
Proof.
  unfold get_pull_requests. pose proof quiet_github_json_request. quiet_walk.
Qed.

Lemma quiet_post_comment repo pid comment :
  trace_rel Q (post_comment sh repo pid comment).
Proof. unfold post_comment. pose proof quiet_github_json_request. quiet_walk. Qed.

Lemma quiet_display_pull_request_minimal pr :
  trace_rel Q (display_pull_request_minimal pr).
Proof. unfold display_pull_request_minimal. quiet_walk. Qed.

Lemma quiet_display_pull_request pr : trace_rel Q (display_pull_request pr).
Proof.
  unfold display_pull_request. pose proof quiet_display_pull_request_minimal.
  quiet_walk.
Qed.

Lemma quiet_close_comment repo pid comment :
  trace_rel Q (close_comment sh repo pid comment).
Proof. unfold close_comment. pose proof quiet_meta. quiet_walk. Qed.

Lemma quiet_close_pull_request repo pid comment :
  trace_rel Q (close_pull_request sh repo pid comment).
Proof.
  unfold close_pull_request. pose proof quiet_close_comment.
  pose proof quiet_post_comment. pose proof quiet_github_json_request.
  quiet_walk.
Qed.

End Quiet.

(** ** Completing an update outside of the work directory *)

(** Where no work directory is in use, [complete_update] runs no
    command through [os.system] and changes no directory: the branch is
    left as the merge or rebase has left it, and all that happens is that
    git is asked for commits and the record is brought up to date, in its
    [updated] field only. *)
Theorem complete_update_without_work_dir sh branch_name w :
  (forall tr p, sh_exists sh tr p = false) ->
  (forall p, w__work_dir w <> WdPath p) ->
  (exists evs,
     w_trace (complete_update sh branch_name w).2 = w_trace w ++ evs
     /\ Forall no_command evs)
  /\ same_but (u "updated") (w_docs w) (w_docs (complete_update sh branch_name w).2).
Proof.
  intros Hex Hwd. split; [|apply docs_rel_complete_update].
  unfold complete_update, bind at 1, get_options at 1. unfold bind at 1.
  destruct (quiet_in_work_dir sh w) as (evs1 & He1 & HP1).
  destruct (in_work_dir_no_dir sh w Hex Hwd) as (w1 & E1 & _).
  rewrite E1 in He1 |- *. cbn [snd] in He1.
  match goal with |- context [bind ?m ?f w1] =>
    assert (Hrest : trace_rel no_command (bind m f))
  end.
  { pose proof (quiet_update_meta sh). hist_walk; exact I. }
  destruct (Hrest w1) as (evs2 & He2 & HP2).
  exists (evs1 ++ evs2). split; [|by apply Forall_app].
  by rewrite He2, He1, app_assoc.
Qed.

Lemma complete_update_without_work_dir_witness :
  (exists evs,
     w_trace (complete_update (shell_on_branch (u "pull-request-42"))
                (u "pull-request-42") world_42).2 = w_trace world_42 ++ evs
     /\ Forall no_command evs)
  /\ same_but (u "updated") (w_docs world_42)
       (w_docs (complete_update (shell_on_branch (u "pull-request-42"))
                  (u "pull-request-42") world_42).2).
Proof.
  exact (complete_update_without_work_dir (shell_on_branch (u "pull-request-42"))
           (u "pull-request-42") world_42 (fun tr p => eq_refl)
           ltac:(by vm_compute)).
Defined.

(** ** Close and merge when a step fails *)

(** Two commands differ when their texts do. *)
Ltac distinct_command :=
  let H := fresh in
  intros H; first [discriminate H | injection H as H; vm_compute in H; congruence].

Section Failures.

Variable sh : shell.

Lemma github_json_request_unreachable url params w :
  unreachable sh ->
  exists w',
    github_json_request sh url params w = (Raise AttributeError, w')
    /\ w_docs w' = w_docs w
    /\ exists evs, w_trace w' = w_trace w ++ evs /\ Forall no_command evs.
Proof.
  intros Hun. rewrite github_json_request_run. cbv zeta. rewrite Hun.
  eexists. split; [reflexivity|]. destruct (w_DEBUG w).
  - split; [done|]. cbn [w_trace with_trace]. rewrite <- app_assoc.
    eexists. split; [reflexivity|]. by repeat constructor.
  - split; [done|]. cbn [w_trace with_trace].
    eexists. split; [reflexivity|]. by repeat constructor.
Qed.

(** [command_close] asks GitHub for the pull request before it does
    anything else: when GitHub cannot be reached it stops with an
    exception, and by then it has run no command through [os.system] (the
    update branch is not checked out, the branch of the pull request is
    not deleted) and written no record. *)
Theorem command_close_unreachable repo comment w :
  unreachable sh ->
  exists e w' evs,
    command_close sh repo comment w = (Raise e, w')
    /\ (e = AttributeError
        \/ e = UserWarning (u "Invalid branch: not a pull request"))
    /\ w_trace w' = w_trace w ++ evs
    /\ Forall no_command evs
    /\ w_docs w' = w_docs w.
Proof.
  intros Hun. unfold command_close, bind at 1, print_color at 1, emit.
  cbv beta iota. unfold bind at 1.
  rewrite get_current_branch_name_run. cbv zeta. cbn [andb].
  destruct (negb _).
  - eexists _, _, _. split; [reflexivity|]. split; [by right|].
    unfold asked_branch. cbn [w_trace with_trace w_docs].
    rewrite <- app_assoc. split; [reflexivity|]. split; [|done].
    by repeat constructor.
  - unfold bind at 1, get_pull_request.
    match goal with |- context [github_json_request sh ?url None ?w0] =>
      destruct (github_json_request_unreachable url None w0 Hun)
        as (w' & -> & Hd & evs & He & HP)
    end.
    eexists _, _, _. split; [reflexivity|]. split; [by left|].
    rewrite He, Hd. unfold asked_branch. cbn [w_trace with_trace w_docs].
    rewrite <- !app_assoc. split; [reflexivity|]. split; [|done].
    by repeat constructor.
Qed.

Lemma close_pull_request_unreachable repo pid comment w :
  unreachable sh ->
  exists w' evs,
    close_pull_request sh repo pid comment w = (Raise AttributeError, w')
    /\ w_trace w' = w_trace w ++ evs.
Proof.
  intros Hun. unfold close_pull_request, bind at 1, get_options at 1.
  cbv zeta beta iota.
  set (comment0 := match comment with
                   | Some _ => comment
                   | None => opt_close_default_comment (w_options w)
                   end).
  assert (Htry : exists c1 w1 evs1,
    (if is_nil (option_list comment0)
        || bool_decide (comment0 = opt_close_default_comment (w_options w))
     then try_except (close_comment sh repo pid comment0) (fun _ => ret comment0)
     else ret comment0) w = (Ok c1, w1) /\ w_trace w1 = w_trace w ++ evs1).
  { destruct (_ || _).
    - unfold try_except.
      destruct (quiet_close_comment sh repo pid comment0 w) as (evs1 & He1 & _).
      destruct (close_comment sh repo pid comment0 w) as [[c1|e] w1];
        by eexists _, _, _.
    - exists comment0, w, []. by rewrite app_nil_r. }
  destruct Htry as (c1 & w1 & evs1 & Htry & He1).
  unfold bind at 1. rewrite Htry.
  assert (Hpost : exists w2 evs2,
    (match c1 with
     | Some (c :: text) => post_comment sh repo pid (c :: text)
     | _ => ret tt
     end ;;;
     github_json_request sh
       (get_api_url (u "repos/" ++ repo ++ u "/pulls/" ++ py_str sh pid))
       (Some (JObj [(u "state", JStr (u "closed"))])) ;;; ret tt)%py w1
    = (Raise AttributeError, w2) /\ w_trace w2 = w_trace w1 ++ evs2).
  { destruct c1 as [[|c text]|]; unfold bind at 1; unfold ret at 1.
    - unfold bind.
      match goal with |- context [github_json_request sh ?url ?p ?w0] =>
        destruct (github_json_request_unreachable url p w0 Hun)
          as (w' & -> & _ & evs & He & _)
      end. by eexists _, _.
    - unfold post_comment, bind.
      match goal with |- context [github_json_request sh ?url ?p ?w0] =>
        destruct (github_json_request_unreachable url p w0 Hun)
          as (w' & -> & _ & evs & He & _)
      end. by eexists _, _.
    - unfold bind.
      match goal with |- context [github_json_request sh ?url ?p ?w0] =>
        destruct (github_json_request_unreachable url p w0 Hun)
          as (w' & -> & _ & evs & He & _)
      end. by eexists _, _. }
  destruct Hpost as (w2 & evs2 & -> & He2).
  exists w2, (evs1 ++ evs2). split; [done|]. by rewrite He2, He1, app_assoc.
Qed.

(** [command_merge] merges and deletes the branch before it closes the
    pull request.  On a pull-request branch, with git doing all it is
    asked and [merge-auto-close] set, a GitHub that cannot be reached
    makes the command stop with an exception only after the branch has
    been merged into the update branch and deleted. *)
Theorem command_merge_unreachable repo comment w :
  take 13 (current_branch sh (w_trace w)) = u "pull-request-" ->
  (forall tr cmd, sh_system sh tr cmd = 0%Z) ->
  opt_merge_auto_close (w_options w) = true ->
  unreachable sh ->
  let branch_name := current_branch sh (w_trace w) in
  exists w' evs,
    command_merge sh repo comment w = (Raise AttributeError, w')
    /\ w_trace w' =
       w_trace w ++
       [EvPopen current_branch_cmd;
        EvPrintColor (u "Merging " ++ branch_name ++ u " into "
                      ++ opt_update_branch (w_options w)) (u "status");
        EvSystem (u "git checkout " ++ opt_update_branch (w_options w));
        EvSystem (u "git merge " ++ branch_name);
        EvPrintColor (u "Deleting branch " ++ branch_name) (u "status");
        EvSystem (u "git branch -D " ++ branch_name);
        EvPrintColor (u "Closing pull request") (u "status")] ++ evs.
Proof.
  intros Hb Hsys Hopt Hun branch_name. subst branch_name.
  unfold command_merge, bind at 1.
  rewrite (get_current_branch_name_pass sh w Hb).
  unfold bind, get_options, print_color, emit, os_system, ret.
  cbv beta iota.
  repeat (rewrite Hsys; change (negb (0 =? 0)%Z) with false; cbv beta iota).
  cbn [w_options with_trace asked_branch]. rewrite Hopt.
  cbv beta iota.
  match goal with |- context [close_pull_request sh ?r ?p ?c ?w0] =>
    destruct (close_pull_request_unreachable r p c w0 Hun) as (w' & evs & -> & He)
  end.
  exists w', evs. split; [done|]. rewrite He.
  cbn [w_trace with_trace asked_branch]. by rewrite <- !app_assoc.
Qed.

(** When [git merge] fails, [command_merge] stops there: the branch of
    the pull request is not deleted, nothing is sent to GitHub and no
    record is written. *)
Theorem command_merge_failed_merge repo comment w :
  (forall tr branch_name,
     sh_system sh tr (u "git merge " ++ branch_name) <> 0%Z) ->
  exists e w' evs,
    command_merge sh repo comment w = (Raise e, w')
    /\ w_trace w' = w_trace w ++ evs
    /\ Forall no_branch_delete evs
    /\ Forall no_request evs
    /\ w_docs w' = w_docs w.
Proof.
  intros Hmerge. unfold command_merge, bind at 1.
  rewrite get_current_branch_name_run. cbv zeta. cbn [andb].
  destruct (negb (ustring_eqb _ _)).
  - eexists _, _, _. split; [reflexivity|]. unfold asked_branch.
    cbn [w_trace with_trace w_docs]. split; [reflexivity|].
    split; [|split; [|done]]; repeat constructor.
    intros b. distinct_command.
  - unfold bind, get_options, print_color, emit, os_system, ret.
    cbv beta iota.
    destruct (negb (sh_system sh _ (u "git checkout " ++ _) =? 0)%Z).
    + cbv beta iota. unfold raise. eexists _, _, _. split; [reflexivity|].
      unfold asked_branch. cbn [w_trace with_trace w_docs]. rewrite <- !app_assoc.
      split; [reflexivity|].
      split; [|split; [|done]]; repeat constructor; intros b; distinct_command.
    + cbv beta iota.
      match goal with |- context [sh_system sh ?tr (u "git merge " ++ ?b)] =>
        pose proof (Hmerge tr b) as Hne; apply Z.eqb_neq in Hne; rewrite Hne
      end.
      cbv beta iota. cbn [negb]. unfold raise. eexists _, _, _.
      split; [reflexivity|].
      unfold asked_branch. cbn [w_trace with_trace w_docs]. rewrite <- !app_assoc.
      split; [reflexivity|].
      split; [|split; [|done]]; repeat constructor; intros b; distinct_command.
Qed.

End Failures.

Lemma command_close_unreachable_witness :
  exists e w' evs,
    command_close (shell_on_branch (u "pull-request-42")) (u "o/r") None world_42
    = (Raise e, w')
    /\ (e = AttributeError
        \/ e = UserWarning (u "Invalid branch: not a pull request"))
    /\ w_trace w' = w_trace world_42 ++ evs
    /\ Forall no_command evs
    /\ w_docs w' = w_docs world_42.
Proof.
  exact (command_close_unreachable (shell_on_branch (u "pull-request-42"))
           (u "o/r") None world_42 (fun _ _ _ _ => eq_refl)).
Defined.

Lemma command_merge_unreachable_witness :
  exists w' evs,
    command_merge (shell_on_branch (u "pull-request-42")) (u "o/r") None world_42
    = (Raise AttributeError, w')
    /\ w_trace w' =
       w_trace world_42 ++
       [EvPopen current_branch_cmd;
        EvPrintColor (u "Merging " ++ u "pull-request-42" ++ u " into "
                      ++ u "master") (u "status");
        EvSystem (u "git checkout " ++ u "master");
        EvSystem (u "git merge " ++ u "pull-request-42");
        EvPrintColor (u "Deleting branch " ++ u "pull-request-42") (u "status");
        EvSystem (u "git branch -D " ++ u "pull-request-42");
        EvPrintColor (u "Closing pull request") (u "status")] ++ evs.
Proof.
  exact (command_merge_unreachable (shell_on_branch (u "pull-request-42"))
           (u "o/r") None world_42 eq_refl (fun _ _ => eq_refl) eq_refl
           (fun _ _ _ _ => eq_refl)).
Defined.

Lemma command_merge_failed_merge_witness :
  exists e w' evs,
    command_merge merge_conflict_shell (u "o/r") None world_42 = (Raise e, w')
    /\ w_trace w' = w_trace world_42 ++ evs
    /\ Forall no_branch_delete evs
    /\ Forall no_request evs
    /\ w_docs w' = w_docs world_42.
Proof.
  apply (command_merge_failed_merge merge_conflict_shell (u "o/r") None world_42).
  intros tr branch_name. unfold merge_conflict_shell, simple_shell. cbn [sh_system].
  rewrite starts_with_app. done.
Defined.

(** ** Fetching *)

#[export] Instance only_removed_reflexive : Reflexive only_removed.
Proof. intros docs path. by left. Qed.

#[export] Instance only_removed_transitive : Transitive only_removed.
Proof.
  intros a b c Hab Hbc path.
  destruct (Hbc path) as [-> | ->]; [apply Hab|by right].
Qed.

Section FetchAll.

Variable sh : shell.








End FetchAll.



(** ** The name of the repository *)

Section RepoName.

Variable sh : shell.

(** [get_default_repo_name] never returns an empty name: it returns a
    name that is not empty or raises "Failed to determine github
    repository name".  A [github.repo] set in the git configuration is
    the name, and the remotes are then not looked at. *)
Theorem get_default_repo_name_not_empty w :
  ((exists name w', get_default_repo_name sh w = (Ok name, w') /\ name <> [])
   \/ exists w',
        get_default_repo_name sh w
        = (Raise (UserWarning (u "Failed to determine github repository name")),
           w'))
  /\ (strip (sh_popen sh (w_trace w) (u "git config github.repo")) <> [] ->
      get_default_repo_name sh w
      = (Ok (strip (sh_popen sh (w_trace w) (u "git config github.repo"))),
         with_trace (w_trace w ++ [EvPopen (u "git config github.repo")]) w)).
Proof.
  unfold get_default_repo_name, get_repo_name_for_remote, bind, os_popen, ret, raise.
  cbv beta iota zeta.
  destruct (strip (sh_popen sh (w_trace w) (u "git config github.repo")))
    as [|c name] eqn:E; cbn [is_nil]; cbv beta iota.
  - split; [|done].
    destruct (sh_remote_re sh _ _) as [[|c name]|];
      [right; by eexists|left; by eexists _, _|right; by eexists].
  - split; [|done]. left. by eexists _, _.
Qed.

End RepoName.

Lemma get_default_repo_name_not_empty_witness :
  get_default_repo_name
    (simple_shell (fun _ => 0%Z) (fun _ => u "o/r" ++ [10]) (fun _ => false)
                  (fun _ _ _ => ConnectionFailed))
    (fresh_world ∅)
  = (Ok (u "o/r"),
     with_trace [EvPopen (u "git config github.repo")] (fresh_world ∅)).
Proof.
  refine (proj2 (get_default_repo_name_not_empty
    (simple_shell (fun _ => 0%Z) (fun _ => u "o/r" ++ [10]) (fun _ => false)
                  (fun _ _ _ => ConnectionFailed))
    (fresh_world ∅)) _).
  by vm_compute.
Defined.

(** ** Comments *)

Section Comment.

Variable sh : shell.

(** [command_comment] posts no empty comment: without a comment, or
    with the empty text for one, it raises and no request is sent. *)
Theorem command_comment_needs_text repo comment pull_request_ID w :
  comment = None \/ comment = Some [] ->
  exists e w' evs,
    command_comment sh repo comment pull_request_ID w = (Raise e, w')
    /\ (e = UserWarning (u "Please include a comment")
        \/ e = UserWarning (u "Invalid branch: not a pull request"))
    /\ w_trace w' = w_trace w ++ evs
    /\ Forall no_request evs.
Proof.
  intros Hc. unfold command_comment, bind.
  assert (Hraise : forall (i : json) (w0 : world),
    match comment with
    | Some (c :: text) => post_comment sh repo i (c :: text)
    | _ => raise (UserWarning (u "Please include a comment"))
    end w0 = (Raise (UserWarning (u "Please include a comment")), w0)).
  { intros i w0. by destruct Hc as [-> | ->]. }
  destruct pull_request_ID as [given|].
  - unfold ret. rewrite Hraise.
    exists (UserWarning (u "Please include a comment")), w, [].
    rewrite app_nil_r. split; [done|]. split; [by left|]. by split.
  - rewrite get_current_branch_name_run. cbv zeta. cbn [andb].
    destruct (negb _).
    + eexists _, _, _. split; [reflexivity|]. split; [by right|].
      unfold asked_branch. cbn [w_trace with_trace]. split; [reflexivity|].
      by repeat constructor.
    + unfold ret. rewrite Hraise. eexists _, _, _. split; [reflexivity|].
      split; [by left|].
      unfold asked_branch. cbn [w_trace with_trace]. split; [reflexivity|].
      by repeat constructor.
Qed.

End Comment.

Lemma command_comment_needs_text_witness :
  exists e w' evs,
    command_comment (shell_on_branch (u "pull-request-42")) (u "o/r") (Some [])
                    None world_42 = (Raise e, w')
    /\ (e = UserWarning (u "Please include a comment")
        \/ e = UserWarning (u "Invalid branch: not a pull request"))
    /\ w_trace w' = w_trace world_42 ++ evs
    /\ Forall no_request evs.
Proof.
  exact (command_comment_needs_text (shell_on_branch (u "pull-request-42"))
           (u "o/r") (Some []) None world_42 (or_intror eq_refl)).
Defined.

(** ** Aliases *)

Lemma dict_set_not_nil k v d : dict_set k v d <> [].
Proof. destruct d as [|[k' v'] d]; cbn [dict_set]; [done|]. by destruct (ustring_eqb k' k). Qed.

Lemma lookup_alias_dict d key :
  lookup_alias (JObj d) key =
  match dict_get key d with
  | Some v => if truthy v then v else JStr key
  | None => JStr key
  end.
Proof.
  unfold lookup_alias. destruct d as [|kv d]; [done|].
  cbn [truthy is_nil negb py_in py_getitem rbind].
  destruct (dict_get key (kv :: d)) as [v|]; [|done].
  rewrite bool_decide_eq_true_2 by done. done.
Qed.

(** After [command_alias] has bound [alias] to [githubname] in a
    mapping that is a JSON object, [lookup_alias] resolves [alias] to
    [githubname] (to [alias] itself when [githubname] is empty) and
    every other key as before, and the file holds the new mapping.  On
    anything but an object the command raises and writes nothing. *)
Theorem alias_round_trip d alias githubname filename w :
  let users := JObj (dict_set alias (JStr githubname) d) in
  command_alias (JObj d) alias githubname filename w
  = (Ok users, with_docs (<[filename := Encoded users]> (w_docs w)) w)
  /\ lookup_alias users alias
     = JStr (if is_nil githubname then alias else githubname)
  /\ (forall key, key <> alias ->
        lookup_alias users key = lookup_alias (JObj d) key)
  /\ (forall users',
        (forall d', users' <> JObj d') ->
        command_alias users' alias githubname filename w
        = (Raise (UserWarning (u "Error while updating the alias for " ++ alias)),
           w)).
Proof.
  intros users. subst users. split; [done|]. split; [|split].
  - rewrite lookup_alias_dict, dict_get_set_eq. cbn [truthy].
    by destruct githubname.
  - intros key Hne. rewrite !lookup_alias_dict.
    by rewrite dict_get_set_ne.
  - intros users' Hno. unfold command_alias, bind.
    destruct users' as [| | | | |d']; try done. by destruct (Hno d').
Qed.

Lemma alias_round_trip_witness :
  lookup_alias (JObj (dict_set (u "bob") (JStr (u "robert-smith"))
                        [(u "al", JStr (u "alice"))])) (u "al")
  = lookup_alias (JObj [(u "al", JStr (u "alice"))]) (u "al").
Proof.
  refine (proj1 (proj2 (proj2 (alias_round_trip
    [(u "al", JStr (u "alice"))] (u "bob") (u "robert-smith")
    (u "git-pull-request.users") (fresh_world ∅)))) (u "al") _).
  by vm_compute.
Defined.

(** ** What the commands do to the records *)

Section Records.

Variable sh : shell.

(** [command_update] changes no field of any record but [updated],
    whatever its target and however the update ends: the user name and
    the original commits of every pull request survive it. *)
Theorem command_update_keeps_records repo target w :
  same_but (u "updated") (w_docs w) (w_docs (command_update sh repo target w).2).
Proof.
  revert w. change (docs_rel (same_but (u "updated")) (command_update sh repo target)).
  unfold command_update.
  pose proof (docs_rel_get_current_branch_name sh (same_but (u "updated"))).
  pose proof (docs_rel_get_pull_request sh (same_but (u "updated"))).
  pose proof (docs_rel_update_branch sh).
  pose proof (docs_rel_display_status sh (same_but (u "updated"))).
  docs_walk.
Qed.

Lemma docs_rel_meta_read key : docs_rel eq (meta sh key JNull).
Proof.
  unfold meta.
  pose proof (docs_rel_get_current_branch_name sh eq).
  pose proof (docs_rel_log eq).
  docs_walk.
Qed.

Lemma docs_rel_close_pull_request repo pid comment :
  docs_rel eq (close_pull_request sh repo pid comment).
Proof.
  unfold close_pull_request, close_comment.
  pose proof docs_rel_meta_read.
  pose proof (docs_rel_post_comment sh eq).
  pose proof (docs_rel_github_json_request sh eq).
  docs_walk.
Qed.

(** [command_close] and [command_merge] leave every record file as it
    is, however they end: closing reads the record and never writes or
    removes it, so the record of a pull request outlives its branch. *)
Theorem close_and_merge_keep_record_files repo comment w :
  w_docs (command_close sh repo comment w).2 = w_docs w
  /\ w_docs (command_merge sh repo comment w).2 = w_docs w.
Proof.
  pose proof (docs_rel_get_current_branch_name sh eq).
  pose proof (docs_rel_get_pull_request sh eq).
  pose proof (docs_rel_display_pull_request eq).
  pose proof docs_rel_close_pull_request.
  pose proof (docs_rel_display_status sh eq).
  split; symmetry.
  - revert w. change (docs_rel eq (command_close sh repo comment)).
    unfold command_close. docs_walk.
  - revert w. change (docs_rel eq (command_merge sh repo comment)).
    unfold command_merge. docs_walk.
Qed.


End Records.

